(** * Project-management CLI: entity registries, relationships and persistence

    A shallow embedding of [models/user.py], [models/project.py],
    [models/task.py] and [utils/file_handler.py].

    Python objects are embedded as records, the class-level registries
    ([_all_users], [_next_id], ...) as an explicit state record, raised
    exceptions as the [Raise] branch of a state-and-exception monad in which
    the state reached so far survives the exception, and the insertion-ordered
    [dict] of the registries as an association list.

    - Values are typed as the annotations of the source type them: ids are
      integers, names and stamps are strings, an [Optional] argument is an
      [option].  A flat record read from a JSON document may lack any key.
    - A method takes the object as its state.  The registry holds the object
      itself, so a method called on a registered object is seen through the
      registry ([call] and [store] in each model).
    - Lists are values.  In the source an object built from a list that
      its caller keeps shares the list with the caller, and with every
      other object built from it; a method that appends to the list of one
      of them, or removes from it, then does so for all of them.  Here that
      is the same method called on each of them in turn, so the registry
      states the source reaches are among the [reachable] ones.
    - The clock is an argument: [now] stands for the value [datetime.now()]
      returns during the call.
    - The file system is a [Disk]: whether the data directory exists or can
      be created, what each path holds, and which writes fail. *)

From Stdlib Require Import ZArith List String Ascii Bool Lia Eqdep_dec.
From Stdlib Require Import PrimFloat Uint63.
Import ListNotations.
Open Scope string_scope.
Open Scope list_scope.
Open Scope Z_scope.

(** ** Exceptions and the state-and-exception monad *)

(** The exceptions the program raises or lets through.  [ParserError] is
    [dateutil.parser.ParserError], a subclass of [ValueError];
    [OverflowError] is the other exception [dateutil.parser.parse] documents
    for a string. *)
Inductive exn :=
| ValueError (msg : string)
| KeyError (key : string)
| OSError
| ParserError (msg : string)
| OverflowError (msg : string).

(** [isinstance(e, ValueError)] *)
Definition is_ValueError (e : exn) : bool :=
  match e with
  | ValueError _ | ParserError _ => true
  | KeyError _ | OSError | OverflowError _ => false
  end.

Inductive result (A : Type) :=
| Ok (a : A)
| Raise (e : exn).
Arguments Ok {A} a.
Arguments Raise {A} e.

(** A computation over a mutable state [S]: it returns a value or raises,
    and in both cases hands back the state it has reached. *)
Definition M (S A : Type) : Type := S -> result A * S.

Definition ret {S A} (a : A) : M S A := fun s => (Ok a, s).
Definition raise {S A} (e : exn) : M S A := fun s => (Raise e, s).
Definition bind {S A B} (c : M S A) (k : A -> M S B) : M S B :=
  fun s =>
    match c s with
    | (Ok a, s') => k a s'
    | (Raise e, s') => (Raise e, s')
    end.
Definition get {S} : M S S := fun s => (Ok s, s).
Definition put {S} (s : S) : M S unit := fun _ => (Ok tt, s).

Declare Scope py_scope.
Delimit Scope py_scope with py.
Notation "x <- c ;; k" := (bind c (fun x => k))
  (at level 100, c at next level, right associativity) : py_scope.
Notation "c ;;; k" := (bind c (fun _ => k))
  (at level 100, right associativity) : py_scope.
Open Scope py_scope.

(** [for x in l: body x] *)
Fixpoint for_each {S A} (l : list A) (body : A -> M S unit) : M S unit :=
  match l with
  | [] => ret tt
  | x :: l' => body x ;;; for_each l' body
  end.

(** Running a computation on one component of a pair of states. *)
Definition on_fst {S1 S2 A} (c : M S1 A) : M (S1 * S2) A :=
  fun s => let (r, s1) := c (fst s) in (r, (s1, snd s)).
Definition on_snd {S1 S2 A} (c : M S2 A) : M (S1 * S2) A :=
  fun s => let (r, s2) := c (snd s) in (r, (fst s, s2)).

(** [data[key]]: a missing key raises [KeyError]. *)
Definition getitem {S A} (field : option A) (key : string) : M S A :=
  match field with
  | Some a => ret a
  | None => raise (KeyError key)
  end.

(** [data.get(key, default)] *)
Definition get_default {A} (field : option A) (dflt : A) : A :=
  match field with
  | Some a => a
  | None => dflt
  end.

(** ** Python strings

    A [str] is a Rocq [string]; its characters are code points below 256. *)

(** [str.isspace] on one code point below 256. *)
Definition isspace (c : ascii) : bool :=
  let n := nat_of_ascii c in
  (((9 <=? n) && (n <=? 13)) || ((28 <=? n) && (n <=? 32))
   || (n =? 133) || (n =? 160))%nat.

Fixpoint lstrip (s : string) : string :=
  match s with
  | String c s' => if isspace c then lstrip s' else s
  | EmptyString => EmptyString
  end.

Fixpoint rev_string (s acc : string) : string :=
  match s with
  | String c s' => rev_string s' (String c acc)
  | EmptyString => acc
  end.

Definition rstrip (s : string) : string :=
  rev_string (lstrip (rev_string s "")) "".

(** [s.strip()] *)
Definition strip (s : string) : string := rstrip (lstrip s).

(** Every character of [s] is whitespace (so also when [s] is empty). *)
Fixpoint all_space (s : string) : bool :=
  match s with
  | String c s' => isspace c && all_space s'
  | EmptyString => true
  end.

(** [len(s)] *)
Definition len (s : string) : Z := Z.of_nat (String.length s).

(** [c in s] for a one-character [c] *)
Fixpoint char_in (c : ascii) (s : string) : bool :=
  match s with
  | String c' s' => Ascii.eqb c c' || char_in c s'
  | EmptyString => false
  end.

(** Truth value of a [str]: the empty string is falsy. *)
Definition truthy_str (s : string) : bool :=
  match s with EmptyString => false | _ => true end.

(** [x or default] on an [Optional[int]]: [None] and [0] are falsy. *)
Definition or_int {S} (x : option Z) (dflt : M S Z) : M S Z :=
  match x with
  | Some z => if z =? 0 then dflt else ret z
  | None => dflt
  end.

(** [x or default] on an [Optional[str]]: [None] and [""] are falsy. *)
Definition or_str (x : option string) (dflt : string) : string :=
  match x with
  | Some s => if truthy_str s then s else dflt
  | None => dflt
  end.

(** [x or []] on an [Optional[List[int]]]: [None] and [[]] are falsy, and
    both give the empty list. *)
Definition or_list (x : option (list Z)) : list Z :=
  match x with
  | Some l => l
  | None => []
  end.

(** [str.lower] on one code point below 256: the letters A to Z and the
    accented capitals (192 to 222, without the multiplication sign 215)
    move up by 32. *)
Definition lower_char (c : ascii) : ascii :=
  let n := nat_of_ascii c in
  if (((65 <=? n) && (n <=? 90))
      || ((192 <=? n) && (n <=? 222) && negb (n =? 215)))%nat
  then ascii_of_nat (n + 32)
  else c.

(** [s.lower()] *)
Fixpoint lower (s : string) : string :=
  match s with
  | String c s' => String (lower_char c) (lower s')
  | EmptyString => EmptyString
  end.

(** [needle in hay] on strings: [needle] occurs in [hay] as a substring. *)
Fixpoint contains (needle hay : string) : bool :=
  String.prefix needle hay ||
  match hay with
  | String _ hay' => contains needle hay'
  | EmptyString => false
  end.

(** ** Lists of ids: the relationship lists *)

(** [x in l] *)
Definition mem (x : Z) (l : list Z) : bool := existsb (Z.eqb x) l.

(** [l.append(x)] *)
Definition append (x : Z) (l : list Z) : list Z := l ++ [x].

(** [l.remove(x)]: drops the first occurrence (the callers below only call
    it when [x in l], so the [ValueError] of an absent item never arises). *)
Fixpoint remove (x : Z) (l : list Z) : list Z :=
  match l with
  | [] => []
  | y :: l' => if Z.eqb x y then l' else y :: remove x l'
  end.

(** ** Insertion-ordered dictionaries keyed by ids *)

Definition dict (V : Type) : Type := list (Z * V).

(** [d.get(k)] *)
Fixpoint dict_get {V} (d : dict V) (k : Z) : option V :=
  match d with
  | [] => None
  | (k', v) :: d' => if Z.eqb k k' then Some v else dict_get d' k
  end.

(** [d[k] = v]: an existing key keeps its position, a new key goes last. *)
Fixpoint dict_set {V} (d : dict V) (k : Z) (v : V) : dict V :=
  match d with
  | [] => [(k, v)]
  | (k', v') :: d' =>
      if Z.eqb k k' then (k, v) :: d' else (k', v') :: dict_set d' k v
  end.

(** [list(d.values())] *)
Definition dict_values {V} (d : dict V) : list V := map snd d.
Definition dict_keys {V} (d : dict V) : list Z := map fst d.

(** ** utils/file_handler.py *)

Module FileHandler.

Section WithRecord.
(** The flat records of the documents kept in the data directory. *)
Context {R : Type}.

(** What [open] and [json.load] find at a path. *)
Inductive File :=
| Absent                      (* [os.path.exists] is false *)
| Unreadable                  (* [open] or [read] raises *)
| Malformed                   (* [json.load] raises [JSONDecodeError] *)
| Document (data : list R).

(** How a write to a path can go wrong. *)
Inductive WriteFault :=
| OpenFails                   (* [open(path, 'w')] raises *)
| DumpFails.                  (* the file is truncated, then [json.dump] raises *)

Record Disk := {
  dir_exists : bool;                        (* [os.path.exists(DATA_DIR)] *)
  makedirs_ok : bool;                       (* would [os.makedirs] succeed *)
  files : string -> File;                   (* contents, by path *)
  write_fault : string -> option WriteFault
}.

Definition DATA_DIR : string := "data".

(** [os.path.join(DATA_DIR, filename)] for a plain file name, which is
    what the program passes: [users.json], [projects.json], [tasks.json]
    and their backups.  A [Disk] tells the files of the data directory
    apart by this path. *)
Definition path_join (dir filename : string) : string :=
  (dir ++ "/" ++ filename)%string.

Definition stat (d : Disk) (path : string) : File :=
  if dir_exists d then files d path else Absent.

Definition write (d : Disk) (path : string) (f : File) : Disk :=
  {| dir_exists := dir_exists d;
     makedirs_ok := makedirs_ok d;
     files := fun p => if String.eqb p path then f else files d p;
     write_fault := write_fault d |}.

(** [os.makedirs(DATA_DIR)]: raises [OSError] when the directory cannot be
    created; a directory just created is empty. *)
Definition makedirs : M Disk unit :=
  fun d =>
    if makedirs_ok d
    then (Ok tt, {| dir_exists := true;
                    makedirs_ok := makedirs_ok d;
                    files := fun _ => Absent;
                    write_fault := write_fault d |})
    else (Raise OSError, d).

Definition ensure_data_dir : M Disk unit :=
  d <- get ;;
  if negb (dir_exists d) then makedirs else ret tt.

Definition get_file_path (filename : string) : M Disk string :=
  ensure_data_dir ;;;
  ret (path_join DATA_DIR filename).

(** The path is computed before the [try] block is entered; everything
    raised inside the block is caught and turned into [[]]. *)
Definition load_data (filename : string) : M Disk (list R) :=
  file_path <- get_file_path filename ;;
  d <- get ;;
  match stat d file_path with
  | Document data => ret data
  | Absent => ret []
  | Malformed => ret []
  | Unreadable => ret []
  end.

(** As for [load_data], the path is computed before the [try] block. *)
Definition save_data (filename : string) (data : list R) : M Disk bool :=
  file_path <- get_file_path filename ;;
  d <- get ;;
  match write_fault d file_path with
  | None => put (write d file_path (Document data)) ;;; ret true
  | Some OpenFails => ret false
  | Some DumpFails => put (write d file_path Malformed) ;;; ret false
  end.

(** [shutil.copy2(src, dst)] inside the [try] block of [backup_data]: it
    raises when the source cannot be read or when the write at the
    destination meets a fault, and otherwise leaves at the destination what
    the source holds.  [None] stands for the exception. *)
Definition copy2 (src_path dst_path : string) : M Disk (option unit) :=
  d <- get ;;
  match stat d src_path, write_fault d dst_path with
  | Unreadable, _ => ret None
  | Absent, _ => ret None
  | _, Some OpenFails => ret None
  | _, Some DumpFails => put (write d dst_path Malformed) ;;; ret None
  | src, None => put (write d dst_path src) ;;; ret (Some tt)
  end.

(** Both paths are computed outside the [try] block, which only guards the
    copy. *)
Definition backup_data (filename : string) : M Disk (option string) :=
  file_path <- get_file_path filename ;;
  d <- get ;;
  match stat d file_path with
  | Absent => ret None
  | _ =>
      let backup_filename := (filename ++ ".backup")%string in
      backup_path <- get_file_path backup_filename ;;
      copied <- copy2 file_path backup_path ;;
      match copied with
      | Some _ => ret (Some backup_filename)
      | None => ret None
      end
  end.

(** A save to [filename] will go through: the data directory exists or
    can be created, and the write meets no fault. *)
Definition can_save (d : Disk) (filename : string) : Prop :=
  dir_exists d || makedirs_ok d = true /\
  write_fault d (path_join DATA_DIR filename) = None.

End WithRecord.
Arguments File : clear implicits.
Arguments Disk : clear implicits.

End FileHandler.

(** ** Dates and times

    [datetime] objects, [datetime.isoformat] and [dateutil.parser.parse] are
    library code; the models only rely on the interface below.  [parse]
    answers [None] where the library raises, and [parse_error] is the
    exception it raises there: which one, and with which message, is the
    library's business. *)

Class DateTime := {
  datetime : Type;
  isoformat : datetime -> string;
  parse : string -> option datetime;
  parse_error : string -> exn
}.

Class DateTimeLaws `{DateTime} : Prop := {
  (** an ISO rendering is never the empty string *)
  isoformat_nonempty : forall d, isoformat d <> ""
}.

(** The parser reads the ISO rendering of [d] back to [d].  Whether it does
    is a property of the two libraries, not of this program. *)
Definition reads_back `{DateTime} (d : datetime) : Prop :=
  parse (isoformat d) = Some d.

(** ** models/user.py *)

Module User.
Section WithDateTime.
Context `{DateTime}.

Record t := {
  user_id : Z;
  _name : string;
  _email : string;
  created_at : string;
  projects : list Z
}.

(** The class attributes. *)
Record State := {
  _all_users : dict t;
  _next_id : Z
}.

Definition initial : State := {| _all_users := []; _next_id := 1 |}.

(** A flat record of [users.json].  A key may be missing ([None]); a key
    that is present holds a value of the type the layout gives it. *)
Record record := {
  j_user_id : option Z;
  j_name : option string;
  j_email : option string;
  j_created_at : option string;
  j_projects : option (list Z)
}.

Definition _get_next_id : M State Z :=
  st <- get ;;
  let current_id := _next_id st in
  put {| _all_users := _all_users st; _next_id := _next_id st + 1 |} ;;;
  ret current_id.

(** [User._all_users[key] = self] *)
Definition register (key : Z) (self : t) : M State unit :=
  st <- get ;;
  put {| _all_users := dict_set (_all_users st) key self;
         _next_id := _next_id st |}.

(** [User.__init__]; [now] is the reading of [datetime.now()]. *)
Definition __init__ (now : datetime) (name email : string)
    (user_id : option Z) (created_at : option string)
    (projects : option (list Z)) : M State t :=
  user_id <- or_int user_id _get_next_id ;;
  let self := {| user_id := user_id;
                 _name := name;
                 _email := email;
                 created_at := or_str created_at (isoformat now);
                 projects := or_list projects |} in
  register user_id self ;;;
  ret self.

(** The [name] property. *)
Definition name (self : t) : string := _name self.

Definition set_name (value : string) : M t unit :=
  if negb (truthy_str value) || (len (strip value) <? 2)
  then raise (ValueError "Name must be at least 2 characters long")
  else
    self <- get ;;
    put {| user_id := user_id self;
           _name := strip value;
           _email := _email self;
           created_at := created_at self;
           projects := projects self |}.

(** The [email] property. *)
Definition email (self : t) : string := _email self.

Definition set_email (value : string) : M t unit :=
  if negb (char_in "@" value) || negb (char_in "." value)
  then raise (ValueError "Invalid email format")
  else
    self <- get ;;
    put {| user_id := user_id self;
           _name := _name self;
           _email := strip value;
           created_at := created_at self;
           projects := projects self |}.

Definition create (now : datetime) (name email : string) : M State t :=
  __init__ now name email None None None.

Definition get_all (st : State) : list t := dict_values (_all_users st).

Definition find_by_id (st : State) (user_id : Z) : option t :=
  dict_get (_all_users st) user_id.

Definition set_projects (l : list Z) : M t unit :=
  self <- get ;;
  put {| user_id := user_id self;
         _name := _name self;
         _email := _email self;
         created_at := created_at self;
         projects := l |}.

Definition add_project (project_id : Z) : M t unit :=
  self <- get ;;
  if negb (mem project_id (projects self))
  then set_projects (append project_id (projects self))
  else ret tt.

Definition remove_project (project_id : Z) : M t unit :=
  self <- get ;;
  if mem project_id (projects self)
  then set_projects (remove project_id (projects self))
  else ret tt.

Definition to_dict (self : t) : record :=
  {| j_user_id := Some (user_id self);
     j_name := Some (_name self);
     j_email := Some (_email self);
     j_created_at := Some (created_at self);
     j_projects := Some (projects self) |}.

Definition from_dict (now : datetime) (data : record) : M State t :=
  name <- getitem (j_name data) "name" ;;
  email <- getitem (j_email data) "email" ;;
  user_id <- getitem (j_user_id data) "user_id" ;;
  __init__ now name email (Some user_id) (j_created_at data)
           (Some (get_default (j_projects data) [])).

(** The body of the loop of [load_all]. *)
Definition load_one (now : datetime) (user_data : record) : M State unit :=
  user <- from_dict now user_data ;;
  register (user_id user) user ;;;
  st <- get ;;
  if user_id user >=? _next_id st
  then put {| _all_users := _all_users st; _next_id := user_id user + 1 |}
  else ret tt.

Definition load_all (now : datetime)
  : M (FileHandler.Disk record * State) unit :=
  data <- on_fst (FileHandler.load_data "users.json") ;;
  on_snd (
    st <- get ;;
    put {| _all_users := []; _next_id := _next_id st |} ;;;
    st <- get ;;
    put {| _all_users := _all_users st; _next_id := 1 |} ;;;
    for_each data (load_one now)).

Definition save_all : M (FileHandler.Disk record * State) unit :=
  st <- on_snd get ;;
  let data := map to_dict (dict_values (_all_users st)) in
  on_fst (FileHandler.save_data "users.json" data) ;;;
  ret tt.

(** [User.find_by_name]: case-insensitive partial match; the property
    [user.name] it reads is [user._name]. *)
Definition find_by_name (st : State) (name : string) : list t :=
  let name_lower := lower name in
  filter (fun user => contains name_lower (lower (_name user)))
         (dict_values (_all_users st)).

(** *** The public surface as a transition system

    A method is called on an object the registry holds under [key]; the
    registry holds the object itself, so it sees the mutation. *)

Inductive method :=
| SetName (value : string)
| SetEmail (value : string)
| AddProject (project_id : Z)
| RemoveProject (project_id : Z).

Definition call (m : method) : M t unit :=
  match m with
  | SetName value => set_name value
  | SetEmail value => set_email value
  | AddProject project_id => add_project project_id
  | RemoveProject project_id => remove_project project_id
  end.

Definition store (key : Z) (self : t) (st : State) : State :=
  {| _all_users := dict_set (_all_users st) key self; _next_id := _next_id st |}.

Inductive step : State -> State -> Prop :=
| step_init now name email user_id created_at projects st :
    step st (snd (__init__ now name email user_id created_at projects st))
| step_create now name email st :
    step st (snd (create now name email st))
| step_from_dict now data st :
    step st (snd (from_dict now data st))
| step_call key self m st :
    find_by_id st key = Some self ->
    step st (store key (snd (call m self)) st)
| step_load_all now disk st :
    step st (snd (snd (load_all now (disk, st))))
| step_save_all disk st :
    step st (snd (snd (save_all (disk, st)))).

(** The registry states the User class can be in. *)
Inductive reachable : State -> Prop :=
| reachable_initial : reachable initial
| reachable_step st st' : reachable st -> step st st' -> reachable st'.

(** A record as [to_dict] writes them: every key is there, the id is not
    0 and the creation stamp is not empty. *)
Definition canonical (data : record) : Prop :=
  exists id name email created projects,
    data = {| j_user_id := Some id;
              j_name := Some name;
              j_email := Some email;
              j_created_at := Some created;
              j_projects := Some projects |} /\
    id <> 0 /\ created <> "".

(** The operations that never pass an explicit id to the constructor: the
    factory, the methods, and loading and saving. *)
Inductive step_auto : State -> State -> Prop :=
| auto_create now name email st :
    step_auto st (snd (create now name email st))
| auto_call key self m st :
    find_by_id st key = Some self ->
    step_auto st (store key (snd (call m self)) st)
| auto_load_all now disk st :
    step_auto st (snd (snd (load_all now (disk, st))))
| auto_save_all disk st :
    step_auto st (snd (snd (save_all (disk, st)))).

Inductive reachable_auto : State -> Prop :=
| reachable_auto_initial : reachable_auto initial
| reachable_auto_step st st' :
    reachable_auto st -> step_auto st st' -> reachable_auto st'.

(** What every registered user satisfies: it sits under its own id, the id
    is not [0], and its creation stamp is not empty. *)
Definition entry_ok (e : Z * t) : Prop :=
  user_id (snd e) = fst e /\ fst e <> 0 /\ created_at (snd e) <> "".

Definition wf (st : State) : Prop :=
  Forall entry_ok (_all_users st) /\ NoDup (dict_keys (_all_users st)) /\
  1 <= _next_id st.

(** The greatest of the ids [l] and [0]. *)
Definition max_id (l : list Z) : Z := fold_right Z.max 0 l.

(** The counter is one past the greatest registered id (one, when no
    registered id is positive). *)
Definition counter_past_ids (st : State) : Prop :=
  _next_id st = max_id (dict_keys (_all_users st)) + 1.

(** Every registered id is below the counter. *)
Definition counter_ahead (st : State) : Prop :=
  Forall (fun k => k < _next_id st) (dict_keys (_all_users st)).

(** A record that has the three keys [from_dict] subscripts. *)
Definition complete (data : record) : bool :=
  match j_name data, j_email data, j_user_id data with
  | Some _, Some _, Some _ => true
  | _, _, _ => false
  end.

(** What [load_all] does once it has the records: it empties the registry,
    resets the counter and runs its loop. *)
Definition reload (now : datetime) (data : list record) : M State unit :=
  st <- get ;;
  put {| _all_users := []; _next_id := _next_id st |} ;;;
  st <- get ;;
  put {| _all_users := _all_users st; _next_id := 1 |} ;;;
  for_each data (load_one now).

(** The user that [from_dict] builds from a complete record in a registry
    whose counter is [next]. *)
Definition built (now : datetime) (data : record) (next : Z) : t :=
  let id := get_default (j_user_id data) 0 in
  {| user_id := if id =? 0 then next else id;
     _name := get_default (j_name data) "";
     _email := get_default (j_email data) "";
     created_at := or_str (j_created_at data) (isoformat now);
     projects := get_default (j_projects data) [] |}.

End WithDateTime.
End User.

(** ** models/task.py *)

Module Task.
Section WithDateTime.
Context `{DateTime}.

Record t := {
  task_id : Z;
  _title : string;
  _description : string;
  _status : string;
  project_id : Z;
  assigned_users : list Z;
  created_at : string
}.

(** The class attributes. *)
Record State := {
  _all_tasks : dict t;
  _next_id : Z
}.

Definition initial : State := {| _all_tasks := []; _next_id := 1 |}.

Definition VALID_STATUSES : list string :=
  ["pending"; "in_progress"; "completed"].

(** [s in l] on a list of strings *)
Definition str_in (s : string) (l : list string) : bool :=
  existsb (String.eqb s) l.

(** A flat record of [tasks.json]; see [User.record]. *)
Record record := {
  j_task_id : option Z;
  j_title : option string;
  j_description : option string;
  j_status : option string;
  j_project_id : option Z;
  j_assigned_users : option (list Z);
  j_created_at : option string
}.

Definition _get_next_id : M State Z :=
  st <- get ;;
  let current_id := _next_id st in
  put {| _all_tasks := _all_tasks st; _next_id := _next_id st + 1 |} ;;;
  ret current_id.

(** [Task._all_tasks[key] = self] *)
Definition register (key : Z) (self : t) : M State unit :=
  st <- get ;;
  put {| _all_tasks := dict_set (_all_tasks st) key self;
         _next_id := _next_id st |}.

Definition invalid_status : exn :=
  ValueError "Invalid status. Must be one of: pending, in_progress, completed".

(** [Task.__init__]; [now] is the reading of [datetime.now()]. *)
Definition __init__ (now : datetime) (title description : string)
    (project_id : Z) (task_id : option Z) (status : string)
    (assigned_users : option (list Z)) (created_at : option string)
  : M State t :=
  task_id <- or_int task_id _get_next_id ;;
  let self := {| task_id := task_id;
                 _title := title;
                 _description := description;
                 _status := status;
                 project_id := project_id;
                 assigned_users := or_list assigned_users;
                 created_at := or_str created_at (isoformat now) |} in
  if negb (str_in (_status self) VALID_STATUSES)
  then raise invalid_status
  else
    register task_id self ;;;
    ret self.

(** The [title] property. *)
Definition title (self : t) : string := _title self.

Definition set_title (value : string) : M t unit :=
  if negb (truthy_str value) || negb (truthy_str (strip value))
  then raise (ValueError "Title cannot be empty")
  else
    self <- get ;;
    put {| task_id := task_id self;
           _title := strip value;
           _description := _description self;
           _status := _status self;
           project_id := project_id self;
           assigned_users := assigned_users self;
           created_at := created_at self |}.

(** The [description] property. *)
Definition description (self : t) : string := _description self.

Definition set_description (value : string) : M t unit :=
  self <- get ;;
  put {| task_id := task_id self;
         _title := _title self;
         _description := if truthy_str value then strip value else "";
         _status := _status self;
         project_id := project_id self;
         assigned_users := assigned_users self;
         created_at := created_at self |}.

(** The [status] property. *)
Definition status (self : t) : string := _status self.

Definition set_status (value : string) : M t unit :=
  if negb (str_in value VALID_STATUSES)
  then raise invalid_status
  else
    self <- get ;;
    put {| task_id := task_id self;
           _title := _title self;
           _description := _description self;
           _status := value;
           project_id := project_id self;
           assigned_users := assigned_users self;
           created_at := created_at self |}.

Definition mark_complete : M t unit := set_status "completed".

Definition is_completed (self : t) : bool :=
  String.eqb (_status self) "completed".

Definition create (now : datetime) (title description : string)
    (project_id : Z) : M State t :=
  __init__ now title description project_id None "pending" None None.

Definition get_all (st : State) : list t := dict_values (_all_tasks st).

Definition find_by_id (st : State) (task_id : Z) : option t :=
  dict_get (_all_tasks st) task_id.

Definition set_assigned_users (l : list Z) : M t unit :=
  self <- get ;;
  put {| task_id := task_id self;
         _title := _title self;
         _description := _description self;
         _status := _status self;
         project_id := project_id self;
         assigned_users := l;
         created_at := created_at self |}.

Definition assign_user (user_id : Z) : M t unit :=
  self <- get ;;
  if negb (mem user_id (assigned_users self))
  then set_assigned_users (append user_id (assigned_users self))
  else ret tt.

Definition unassign_user (user_id : Z) : M t unit :=
  self <- get ;;
  if mem user_id (assigned_users self)
  then set_assigned_users (remove user_id (assigned_users self))
  else ret tt.

Definition to_dict (self : t) : record :=
  {| j_task_id := Some (task_id self);
     j_title := Some (_title self);
     j_description := Some (_description self);
     j_status := Some (_status self);
     j_project_id := Some (project_id self);
     j_assigned_users := Some (assigned_users self);
     j_created_at := Some (created_at self) |}.

Definition from_dict (now : datetime) (data : record) : M State t :=
  title <- getitem (j_title data) "title" ;;
  description <- getitem (j_description data) "description" ;;
  project_id <- getitem (j_project_id data) "project_id" ;;
  task_id <- getitem (j_task_id data) "task_id" ;;
  __init__ now title description project_id (Some task_id)
           (get_default (j_status data) "pending")
           (Some (get_default (j_assigned_users data) []))
           (j_created_at data).

(** The body of the loop of [load_all]. *)
Definition load_one (now : datetime) (task_data : record) : M State unit :=
  task <- from_dict now task_data ;;
  register (task_id task) task ;;;
  st <- get ;;
  if task_id task >=? _next_id st
  then put {| _all_tasks := _all_tasks st; _next_id := task_id task + 1 |}
  else ret tt.

Definition load_all (now : datetime)
  : M (FileHandler.Disk record * State) unit :=
  data <- on_fst (FileHandler.load_data "tasks.json") ;;
  on_snd (
    st <- get ;;
    put {| _all_tasks := []; _next_id := _next_id st |} ;;;
    st <- get ;;
    put {| _all_tasks := _all_tasks st; _next_id := 1 |} ;;;
    for_each data (load_one now)).

Definition save_all : M (FileHandler.Disk record * State) unit :=
  st <- on_snd get ;;
  let data := map to_dict (dict_values (_all_tasks st)) in
  on_fst (FileHandler.save_data "tasks.json" data) ;;;
  ret tt.

(** The attribute [task.project_id], for use where a parameter takes the
    attribute's name. *)
Definition get_project_id (task : t) : Z := project_id task.

Definition find_by_project (st : State) (project_id : Z) : list t :=
  filter (fun task => Z.eqb (get_project_id task) project_id)
         (dict_values (_all_tasks st)).

Definition find_by_user (st : State) (user_id : Z) : list t :=
  filter (fun task => mem user_id (assigned_users task))
         (dict_values (_all_tasks st)).

(** [Task.find_by_status] reads the registry and may raise; the property
    [task.status] it compares is [task._status]. *)
Definition find_by_status (st : State) (status : string) : result (list t) :=
  if negb (str_in status VALID_STATUSES)
  then Raise invalid_status
  else Ok (filter (fun task => String.eqb (_status task) status)
                  (dict_values (_all_tasks st))).

(** *** The public surface as a transition system

    A method is called on an object the registry holds under [key]; the
    registry holds the object itself, so it sees the mutation. *)

Inductive method :=
| SetTitle (value : string)
| SetDescription (value : string)
| SetStatus (value : string)
| MarkComplete
| AssignUser (user_id : Z)
| UnassignUser (user_id : Z).

Definition call (m : method) : M t unit :=
  match m with
  | SetTitle value => set_title value
  | SetDescription value => set_description value
  | SetStatus value => set_status value
  | MarkComplete => mark_complete
  | AssignUser user_id => assign_user user_id
  | UnassignUser user_id => unassign_user user_id
  end.

Definition store (key : Z) (self : t) (st : State) : State :=
  {| _all_tasks := dict_set (_all_tasks st) key self; _next_id := _next_id st |}.

Inductive step : State -> State -> Prop :=
| step_init now title description project_id task_id status assigned_users created_at st :
    step st (snd (__init__ now title description project_id task_id status
                       assigned_users created_at st))
| step_create now title description project_id st :
    step st (snd (create now title description project_id st))
| step_from_dict now data st :
    step st (snd (from_dict now data st))
| step_call key self m st :
    find_by_id st key = Some self ->
    step st (store key (snd (call m self)) st)
| step_load_all now disk st :
    step st (snd (snd (load_all now (disk, st))))
| step_save_all disk st :
    step st (snd (snd (save_all (disk, st)))).

(** The registry states the Task class can be in. *)
Inductive reachable : State -> Prop :=
| reachable_initial : reachable initial
| reachable_step st st' : reachable st -> step st st' -> reachable st'.

(** What every registered task satisfies: it sits under its own id, the id
    is not [0], its creation stamp is not empty and its status is valid. *)
Definition entry_ok (e : Z * t) : Prop :=
  task_id (snd e) = fst e /\ fst e <> 0 /\ created_at (snd e) <> "" /\
  str_in (_status (snd e)) VALID_STATUSES = true.

Definition wf (st : State) : Prop :=
  Forall entry_ok (_all_tasks st) /\ NoDup (dict_keys (_all_tasks st)) /\
  1 <= _next_id st.

End WithDateTime.
End Task.

(** ** models/project.py *)

Module Project.
Section WithDateTime.
Context `{DateTime}.

Record t := {
  project_id : Z;
  _title : string;
  _description : string;
  _due_date : datetime;
  user_id : Z;
  tasks : list Z;
  created_at : string
}.

(** The class attributes. *)
Record State := {
  _all_projects : dict t;
  _next_id : Z
}.

Definition initial : State := {| _all_projects := []; _next_id := 1 |}.

(** A flat record of [projects.json]; see [User.record]. *)
Record record := {
  j_project_id : option Z;
  j_title : option string;
  j_description : option string;
  j_due_date : option string;
  j_user_id : option Z;
  j_tasks : option (list Z);
  j_created_at : option string
}.

Definition _get_next_id : M State Z :=
  st <- get ;;
  let current_id := _next_id st in
  put {| _all_projects := _all_projects st; _next_id := _next_id st + 1 |} ;;;
  ret current_id.

(** [Project._all_projects[key] = self] *)
Definition register (key : Z) (self : t) : M State unit :=
  st <- get ;;
  put {| _all_projects := dict_set (_all_projects st) key self;
         _next_id := _next_id st |}.

(** [parser.parse(value)]: the value the parser reads, or the exception
    the parser raises for [value]. *)
Definition parser_parse {S} (value : string) : M S datetime :=
  match parse value with
  | Some d => ret d
  | None => raise (parse_error value)
  end.

(** [Project.__init__]; [due_date] is a string ([inl]) or already a
    [datetime] ([inr]); [now] is the reading of [datetime.now()]. *)
Definition __init__ (now : datetime) (title description : string)
    (due_date : string + datetime) (user_id : Z)
    (project_id : option Z) (tasks : option (list Z))
    (created_at : option string) : M State t :=
  project_id <- or_int project_id _get_next_id ;;
  due <- match due_date with
         | inl s => parser_parse s
         | inr d => ret d
         end ;;
  let self := {| project_id := project_id;
                 _title := title;
                 _description := description;
                 _due_date := due;
                 user_id := user_id;
                 tasks := or_list tasks;
                 created_at := or_str created_at (isoformat now) |} in
  register project_id self ;;;
  ret self.

(** The [title] property. *)
Definition title (self : t) : string := _title self.

Definition set_title (value : string) : M t unit :=
  if negb (truthy_str value) || negb (truthy_str (strip value))
  then raise (ValueError "Title cannot be empty")
  else
    self <- get ;;
    put {| project_id := project_id self;
           _title := strip value;
           _description := _description self;
           _due_date := _due_date self;
           user_id := user_id self;
           tasks := tasks self;
           created_at := created_at self |}.

(** The [description] property. *)
Definition description (self : t) : string := _description self.

Definition set_description (value : string) : M t unit :=
  self <- get ;;
  put {| project_id := project_id self;
         _title := _title self;
         _description := if truthy_str value then strip value else "";
         _due_date := _due_date self;
         user_id := user_id self;
         tasks := tasks self;
         created_at := created_at self |}.

(** The [due_date] property. *)
Definition due_date (self : t) : datetime := _due_date self.

(** The setter of [due_date].  Its handler is
    [except (ValueError, TypeError)]: it replaces the parser's error when
    that is a [ValueError] (none of the exceptions here is a [TypeError])
    and lets any other through. *)
Definition set_due_date (value : string) : M t unit :=
  match parse value with
  | Some d =>
      self <- get ;;
      put {| project_id := project_id self;
             _title := _title self;
             _description := _description self;
             _due_date := d;
             user_id := user_id self;
             tasks := tasks self;
             created_at := created_at self |}
  | None =>
      if is_ValueError (parse_error value)
      then raise (ValueError "Invalid date format. Use YYYY-MM-DD")
      else raise (parse_error value)
  end.

Definition create (now : datetime) (title description due_date : string)
    (user_id : Z) : M State t :=
  __init__ now title description (inl due_date) user_id None None None.

Definition get_all (st : State) : list t := dict_values (_all_projects st).

Definition find_by_id (st : State) (project_id : Z) : option t :=
  dict_get (_all_projects st) project_id.

Definition set_tasks (l : list Z) : M t unit :=
  self <- get ;;
  put {| project_id := project_id self;
         _title := _title self;
         _description := _description self;
         _due_date := _due_date self;
         user_id := user_id self;
         tasks := l;
         created_at := created_at self |}.

Definition add_task (task_id : Z) : M t unit :=
  self <- get ;;
  if negb (mem task_id (tasks self))
  then set_tasks (append task_id (tasks self))
  else ret tt.

Definition remove_task (task_id : Z) : M t unit :=
  self <- get ;;
  if mem task_id (tasks self)
  then set_tasks (remove task_id (tasks self))
  else ret tt.

(** [int / int] and [float * int]: the operands are converted to binary64;
    this is exact for the list lengths that fit in memory. *)
Definition float_of_int (n : Z) : float := PrimFloat.of_uint63 (Uint63.of_Z n).

(** [sum(1 for x in l if cond(x))] *)
Definition sum_ones {A} (cond : A -> bool) (l : list A) : Z :=
  fold_left Z.add (map (fun _ => 1) (filter cond l)) 0.

(** [Project.get_completion_percentage], which reads the Task registry. *)
Definition get_completion_percentage (self : t) (task_registry : Task.State)
  : float :=
  match tasks self with
  | [] => 0%float
  | _ =>
      let total_tasks := Z.of_nat (List.length (tasks self)) in
      let completed_tasks :=
        sum_ones
          (fun task_id =>
             match Task.find_by_id task_registry task_id with
             | Some task => String.eqb (Task.status task) "completed"
             | None => false
             end)
          (tasks self) in
      (float_of_int completed_tasks / float_of_int total_tasks
       * float_of_int 100)%float
  end.

Definition to_dict (self : t) : record :=
  {| j_project_id := Some (project_id self);
     j_title := Some (_title self);
     j_description := Some (_description self);
     j_due_date := Some (isoformat (_due_date self));
     j_user_id := Some (user_id self);
     j_tasks := Some (tasks self);
     j_created_at := Some (created_at self) |}.

Definition from_dict (now : datetime) (data : record) : M State t :=
  title <- getitem (j_title data) "title" ;;
  description <- getitem (j_description data) "description" ;;
  due_date <- getitem (j_due_date data) "due_date" ;;
  user_id <- getitem (j_user_id data) "user_id" ;;
  project_id <- getitem (j_project_id data) "project_id" ;;
  __init__ now title description (inl due_date) user_id (Some project_id)
           (Some (get_default (j_tasks data) [])) (j_created_at data).

(** The body of the loop of [load_all]. *)
Definition load_one (now : datetime) (project_data : record) : M State unit :=
  project <- from_dict now project_data ;;
  register (project_id project) project ;;;
  st <- get ;;
  if project_id project >=? _next_id st
  then put {| _all_projects := _all_projects st;
              _next_id := project_id project + 1 |}
  else ret tt.

Definition load_all (now : datetime)
  : M (FileHandler.Disk record * State) unit :=
  data <- on_fst (FileHandler.load_data "projects.json") ;;
  on_snd (
    st <- get ;;
    put {| _all_projects := []; _next_id := _next_id st |} ;;;
    st <- get ;;
    put {| _all_projects := _all_projects st; _next_id := 1 |} ;;;
    for_each data (load_one now)).

Definition save_all : M (FileHandler.Disk record * State) unit :=
  st <- on_snd get ;;
  let data := map to_dict (dict_values (_all_projects st)) in
  on_fst (FileHandler.save_data "projects.json" data) ;;;
  ret tt.

(** The attribute [project.user_id], for use where a parameter takes the
    attribute's name. *)
Definition get_user_id (project : t) : Z := user_id project.

Definition find_by_user (st : State) (user_id : Z) : list t :=
  filter (fun project => Z.eqb (get_user_id project) user_id)
         (dict_values (_all_projects st)).

(** [Project.find_by_title]: case-insensitive partial match; the property
    [project.title] it reads is [project._title]. *)
Definition find_by_title (st : State) (title : string) : list t :=
  let title_lower := lower title in
  filter (fun project => contains title_lower (lower (_title project)))
         (dict_values (_all_projects st)).

(** *** The public surface as a transition system

    A method is called on an object the registry holds under [key]; the
    registry holds the object itself, so it sees the mutation. *)

Inductive method :=
| SetTitle (value : string)
| SetDescription (value : string)
| SetDueDate (value : string)
| AddTask (task_id : Z)
| RemoveTask (task_id : Z).

Definition call (m : method) : M t unit :=
  match m with
  | SetTitle value => set_title value
  | SetDescription value => set_description value
  | SetDueDate value => set_due_date value
  | AddTask task_id => add_task task_id
  | RemoveTask task_id => remove_task task_id
  end.

Definition store (key : Z) (self : t) (st : State) : State :=
  {| _all_projects := dict_set (_all_projects st) key self; _next_id := _next_id st |}.

Inductive step : State -> State -> Prop :=
| step_init now title description due_date user_id project_id tasks created_at st :
    step st (snd (__init__ now title description due_date user_id project_id
                       tasks created_at st))
| step_create now title description due_date user_id st :
    step st (snd (create now title description due_date user_id st))
| step_from_dict now data st :
    step st (snd (from_dict now data st))
| step_call key self m st :
    find_by_id st key = Some self ->
    step st (store key (snd (call m self)) st)
| step_load_all now disk st :
    step st (snd (snd (load_all now (disk, st))))
| step_save_all disk st :
    step st (snd (snd (save_all (disk, st)))).

(** The registry states the Project class can be in. *)
Inductive reachable : State -> Prop :=
| reachable_initial : reachable initial
| reachable_step st st' : reachable st -> step st st' -> reachable st'.

(** What every registered project satisfies: it sits under its own id, the
    id is not [0], and its creation stamp is not empty. *)
Definition entry_ok (e : Z * t) : Prop :=
  project_id (snd e) = fst e /\ fst e <> 0 /\ created_at (snd e) <> "".

Definition wf (st : State) : Prop :=
  Forall entry_ok (_all_projects st) /\ NoDup (dict_keys (_all_projects st)) /\
  1 <= _next_id st.

(** The completion percentage in the words of the specification: an id that
    does not resolve in the Task registry counts neither in the total nor
    as completed. *)
Definition resolves (task_registry : Task.State) (task_id : Z) : bool :=
  match Task.find_by_id task_registry task_id with
  | Some _ => true
  | None => false
  end.

Definition resolves_completed (task_registry : Task.State) (task_id : Z)
  : bool :=
  match Task.find_by_id task_registry task_id with
  | Some task => String.eqb (Task.status task) "completed"
  | None => false
  end.

Definition completion_percentage_skipping (self : t)
    (task_registry : Task.State) : float :=
  match tasks self with
  | [] => 0%float
  | _ =>
      let resolving := filter (resolves task_registry) (tasks self) in
      let completed := filter (resolves_completed task_registry) resolving in
      (float_of_int (Z.of_nat (List.length completed))
       / float_of_int (Z.of_nat (List.length resolving))
       * float_of_int 100)%float
  end.

End WithDateTime.
End Project.

(** ** utils/helpers.py *)

Module Helpers.

Definition validate_email (email : string) : bool :=
  char_in "@" email && char_in "." email && (len email >=? 5).

End Helpers.

(** ** A concrete calendar

    For worked examples: a date-time is given by its ISO rendering, which
    has a first character. *)

Module IsoText.

Record iso := { head : ascii; tail : string }.

Definition render (d : iso) : string := String (head d) (tail d).

Definition read (s : string) : option iso :=
  match s with
  | String c r => Some {| head := c; tail := r |}
  | EmptyString => None
  end.

#[global] Instance calendar : DateTime :=
  {| datetime := iso; isoformat := render; parse := read;
     parse_error :=
       fun s => ParserError ("String does not contain a date: " ++ s) |}.

(** The reading of the clock in the examples. *)
Definition noon : iso := {| head := "2"; tail := "026-11-03T12:00:00" |}.

End IsoText.

(** ** A calendar of ISO 8601 date-times

    Naive date-times as a [datetime] holds them: a date of the proleptic
    Gregorian calendar in the years 1 to 9999 and a time of day to the
    microsecond.  [render] is [datetime.isoformat]; [read] reads the
    renderings [YYYY-MM-DD], [YYYY-MM-DDTHH:MM:SS] and
    [YYYY-MM-DDTHH:MM:SS.ffffff] of a date-time that exists, and nothing
    else. *)

Module Iso8601.

Record fields := {
  year : Z;
  month : Z;
  day : Z;
  hour : Z;
  minute : Z;
  second : Z;
  microsecond : Z
}.

Definition is_leap (y : Z) : bool :=
  (y mod 4 =? 0) && (negb (y mod 100 =? 0) || (y mod 400 =? 0)).

Definition days_in_month (y m : Z) : Z :=
  if m =? 2 then (if is_leap y then 29 else 28)
  else if (m =? 4) || (m =? 6) || (m =? 9) || (m =? 11) then 30
  else 31.

Definition between (lo n hi : Z) : bool := (lo <=? n) && (n <=? hi).

(** The fields a [datetime] can hold. *)
Definition in_range (f : fields) : bool :=
  between 1 (year f) 9999 && between 1 (month f) 12
  && between 1 (day f) (days_in_month (year f) (month f))
  && between 0 (hour f) 23 && between 0 (minute f) 59
  && between 0 (second f) 59 && between 0 (microsecond f) 999999.

Record t := { value : fields; value_in_range : in_range value = true }.

Definition digit (n : Z) : ascii := ascii_of_nat (Z.to_nat (48 + n)).

(** [n] in decimal, zero-padded to [width] digits. *)
Fixpoint pad (width : nat) (n : Z) : string :=
  match width with
  | O => ""
  | S w =>
      String (digit (n / 10 ^ Z.of_nat w)) (pad w (n mod 10 ^ Z.of_nat w))
  end.

(** [datetime.isoformat]: the fraction is left out when it is zero. *)
Definition render (d : t) : string :=
  let f := value d in
  (pad 4 (year f) ++ "-" ++ pad 2 (month f) ++ "-" ++ pad 2 (day f) ++ "T"
   ++ pad 2 (hour f) ++ ":" ++ pad 2 (minute f) ++ ":" ++ pad 2 (second f)
   ++ (if (microsecond f =? 0)%Z then ""
       else "." ++ pad 6 (microsecond f)))%string.

Definition digit_value (c : ascii) : option Z :=
  let n := Z.of_nat (nat_of_ascii c) in
  if (48 <=? n) && (n <=? 57) then Some (n - 48) else None.

(** Reads [width] decimal digits off the front of [s]. *)
Fixpoint number (width : nat) (acc : Z) (s : string) : option (Z * string) :=
  match width, s with
  | O, _ => Some (acc, s)
  | S w, String c r =>
      match digit_value c with
      | Some v => number w (10 * acc + v) r
      | None => None
      end
  | S _, EmptyString => None
  end.

(** Reads the character [c] off the front of [s]. *)
Definition expect (c : ascii) (s : string) : option string :=
  match s with
  | String c' r => if Ascii.eqb c c' then Some r else None
  | EmptyString => None
  end.

Definition then_ {A B} (o : option A) (k : A -> option B) : option B :=
  match o with
  | Some a => k a
  | None => None
  end.

(** The fraction of a second: nothing, or a point and six digits. *)
Definition read_fraction (s : string) : option Z :=
  match s with
  | EmptyString => Some 0
  | _ =>
      then_ (expect "." s) (fun s =>
      then_ (number 6 0 s) (fun '(us, s) =>
      match s with
      | EmptyString => Some us
      | _ => None
      end))
  end.

(** The time of day: nothing (midnight), or [THH:MM:SS] and a fraction. *)
Definition read_time (s : string) : option (Z * Z * Z * Z) :=
  match s with
  | EmptyString => Some (0, 0, 0, 0)
  | _ =>
      then_ (expect "T" s) (fun s =>
      then_ (number 2 0 s) (fun '(h, s) =>
      then_ (expect ":" s) (fun s =>
      then_ (number 2 0 s) (fun '(mi, s) =>
      then_ (expect ":" s) (fun s =>
      then_ (number 2 0 s) (fun '(sec, s) =>
      then_ (read_fraction s) (fun us =>
      Some (h, mi, sec, us))))))))
  end.

Definition read_fields (s : string) : option fields :=
  then_ (number 4 0 s) (fun '(y, s) =>
  then_ (expect "-" s) (fun s =>
  then_ (number 2 0 s) (fun '(m, s) =>
  then_ (expect "-" s) (fun s =>
  then_ (number 2 0 s) (fun '(d, s) =>
  then_ (read_time s) (fun '(h, mi, sec, us) =>
  Some {| year := y; month := m; day := d; hour := h; minute := mi;
          second := sec; microsecond := us |})))))).

(** The date-time with the given fields, if there is one. *)
Definition checked (f : fields) : option t :=
  match in_range f as b return in_range f = b -> option t with
  | true => fun H => Some {| value := f; value_in_range := H |}
  | false => fun _ => None
  end eq_refl.

Definition read (s : string) : option t := then_ (read_fields s) checked.

Definition calendar : DateTime :=
  {| datetime := t; isoformat := render; parse := read;
     parse_error := fun s => ParserError ("Unknown string format: " ++ s) |}.

End Iso8601.

(** ** Sample objects and disks for the worked examples *)

Module Sample.
Import IsoText.

Definition stamp : string := "2026-11-03T12:00:00".

Definition ana : User.t :=
  {| User.user_id := 1; User._name := "Ana"; User._email := "ana@x.com";
     User.created_at := stamp; User.projects := [1] |}.

Definition launch : Project.t :=
  {| Project.project_id := 1; Project._title := "Launch";
     Project._description := "";
     Project._due_date := {| head := "2"; tail := "099-01-01T00:00:00" |};
     Project.user_id := 1; Project.tasks := [1; 2];
     Project.created_at := stamp |}.

Definition write_doc : Task.t :=
  {| Task.task_id := 1; Task._title := "Write doc"; Task._description := "";
     Task._status := "pending"; Task.project_id := 1;
     Task.assigned_users := [1]; Task.created_at := stamp |}.

Definition review_doc : Task.t :=
  {| Task.task_id := 2; Task._title := "Review doc"; Task._description := "";
     Task._status := "completed"; Task.project_id := 1;
     Task.assigned_users := []; Task.created_at := stamp |}.

Definition user_record (id : Z) (name email : string) : User.record :=
  {| User.j_user_id := Some id;
     User.j_name := Some name;
     User.j_email := Some email;
     User.j_created_at := Some stamp;
     User.j_projects := Some [] |}.


(** The registries after one factory call each. *)
Definition one_user : User.State :=
  snd (User.create noon "Ana" "ana@x.com" User.initial).

Definition one_project : Project.State :=
  snd (Project.create noon "Launch" "" "2099-01-01" 1 Project.initial).

Definition one_task : Task.State :=
  snd (Task.create noon "Write doc" "" 1 Task.initial).

(** A working directory in which [data] does not exist and cannot be
    created. *)
Definition read_only_cwd {R} : FileHandler.Disk R :=
  {| FileHandler.dir_exists := false;
     FileHandler.makedirs_ok := false;
     FileHandler.files := fun _ => FileHandler.Absent;
     FileHandler.write_fault := fun _ => None |}.

(** A data directory that holds the given document and nothing else, and
    in which every write succeeds. *)
Definition disk_with {R} (path : string) (f : FileHandler.File R)
  : FileHandler.Disk R :=
  {| FileHandler.dir_exists := true;
     FileHandler.makedirs_ok := true;
     FileHandler.files :=
       fun p => if String.eqb p path then f else FileHandler.Absent;
     FileHandler.write_fault := fun _ => None |}.

(** A data directory in which every write meets the given fault. *)
Definition disk_failing {R} (fault : FileHandler.WriteFault)
  : FileHandler.Disk R :=
  {| FileHandler.dir_exists := true;
     FileHandler.makedirs_ok := true;
     FileHandler.files := fun _ => FileHandler.Absent;
     FileHandler.write_fault := fun _ => Some fault |}.

End Sample.

(** ** A worked session

    The three registries after a session that builds entities with the
    factories and with the constructors, one of them under an explicit id,
    and changes them through their setters and relationship operations.
    Dates are those of the [Iso8601] calendar. *)

Module Office.
#[local] Existing Instance Iso8601.calendar | 0.

(** The reading of the clock during the session: 2026-11-03T09:30:15.000250 *)
Definition morning : Iso8601.t :=
  {| Iso8601.value :=
       {| Iso8601.year := 2026; Iso8601.month := 11; Iso8601.day := 3;
          Iso8601.hour := 9; Iso8601.minute := 30; Iso8601.second := 15;
          Iso8601.microsecond := 250 |};
     Iso8601.value_in_range := eq_refl |}.

(** 2099-01-01T00:00:00, which is what "2099-01-01" reads as *)
Definition launch_day : Iso8601.t :=
  {| Iso8601.value :=
       {| Iso8601.year := 2099; Iso8601.month := 1; Iso8601.day := 1;
          Iso8601.hour := 0; Iso8601.minute := 0; Iso8601.second := 0;
          Iso8601.microsecond := 0 |};
     Iso8601.value_in_range := eq_refl |}.

(** 2028-02-29T17:00:00, as a [datetime] object *)
Definition leap_day : Iso8601.t :=
  {| Iso8601.value :=
       {| Iso8601.year := 2028; Iso8601.month := 2; Iso8601.day := 29;
          Iso8601.hour := 17; Iso8601.minute := 0; Iso8601.second := 0;
          Iso8601.microsecond := 0 |};
     Iso8601.value_in_range := eq_refl |}.

(** [User.find_by_id(key).method(...)]: nothing happens when [key] is not
    registered. *)
Definition on_user (key : Z) (m : User.method) (st : User.State)
  : User.State :=
  match User.find_by_id st key with
  | Some self => User.store key (snd (User.call m self)) st
  | None => st
  end.

Definition on_project (key : Z) (m : Project.method) (st : Project.State)
  : Project.State :=
  match Project.find_by_id st key with
  | Some self => Project.store key (snd (Project.call m self)) st
  | None => st
  end.

Definition on_task (key : Z) (m : Task.method) (st : Task.State)
  : Task.State :=
  match Task.find_by_id st key with
  | Some self => Task.store key (snd (Task.call m self)) st
  | None => st
  end.

Definition users : User.State :=
  on_user 7 (User.RemoveProject 2)
    (on_user 1 (User.AddProject 1)
       (on_user 2 (User.SetName "  Robert ")
          (snd (User.__init__ morning "Cy" "cy@x.com" (Some 7)
                              (Some "2020-02-29T08:15:00") (Some [2; 1])
             (snd (User.create morning "Bob" "bob@x.com"
                (snd (User.create morning "Ana" "ana@x.com"
                                  User.initial)))))))).

Definition projects : Project.State :=
  on_project 1 (Project.SetDueDate "2031-12-31T23:59:59.000250")
    (on_project 1 (Project.AddTask 2)
       (on_project 1 (Project.AddTask 1)
          (snd (Project.__init__ morning "Audit" "Yearly audit"
                                 (inr leap_day) 7 (Some 5) None None
             (snd (Project.create morning "Launch" "" "2099-01-01" 1
                                  Project.initial)))))).

Definition tasks : Task.State :=
  on_task 1 (Task.SetStatus "in_progress")
    (on_task 2 Task.MarkComplete
       (on_task 1 (Task.AssignUser 7)
          (on_task 1 (Task.AssignUser 1)
             (snd (Task.create morning "Review doc" "" 1
                (snd (Task.create morning "Write doc" "First draft" 1
                                  Task.initial))))))).

(** Data directories that hold a document written by an earlier session. *)
Definition users_disk : FileHandler.Disk User.record :=
  Sample.disk_with "data/users.json"
    (FileHandler.Document [Sample.user_record 9 "Old" "old@x.com"]).

Definition projects_disk : FileHandler.Disk Project.record :=
  Sample.disk_with "data/projects.json" FileHandler.Malformed.

Definition tasks_disk : FileHandler.Disk Task.record :=
  Sample.disk_with "data/tasks.json" FileHandler.Absent.

End Office.

(** * Properties *)

(** ** Membership, append and remove on id lists *)

Lemma mem_In (x : Z) (l : list Z) : mem x l = true <-> In x l.
Proof.
  unfold mem. rewrite existsb_exists. split.
  - intros (y & Hy & Heq). apply Z.eqb_eq in Heq. now subst.
  - intros Hin. exists x. split; [assumption | apply Z.eqb_refl].
Qed.

Lemma mem_not_In (x : Z) (l : list Z) : mem x l = false <-> ~ In x l.
Proof.
  rewrite <- mem_In. destruct (mem x l); split; intros; congruence.
Qed.

Lemma mem_append_same (x : Z) (l : list Z) : mem x (append x l) = true.
Proof. apply mem_In. unfold append. apply in_or_app. right. now left. Qed.

Lemma remove_absent (x : Z) (l : list Z) : ~ In x l -> remove x l = l.
Proof.
  induction l as [|y l IH]; simpl; intros Hnin; [reflexivity|].
  destruct (Z.eqb_spec x y) as [->|Hne].
  - exfalso. apply Hnin. now left.
  - f_equal. apply IH. intros Hin. apply Hnin. now right.
Qed.

Lemma str_in_In (s : string) (l : list string) : Task.str_in s l = true <-> In s l.
Proof.
  unfold Task.str_in. rewrite existsb_exists. split.
  - intros (y & Hy & Heq). apply String.eqb_eq in Heq. now subst.
  - intros Hin. exists s. split; [assumption | apply String.eqb_refl].
Qed.

Lemma str_in_not_In (s : string) (l : list string) :
  Task.str_in s l = false <-> ~ In s l.
Proof.
  rewrite <- str_in_In. destruct (Task.str_in s l); split; intros; congruence.
Qed.

(** ** Relationship operations *)

Section Relationships.
Context `{DateTime}.











End Relationships.


(** ** The persistence adapter *)

Section Persistence.
Context {R : Type}.

Lemma get_file_path_ok (filename : string) (d : FileHandler.Disk R) :
  FileHandler.dir_exists d || FileHandler.makedirs_ok d = true ->
  exists d',
    FileHandler.get_file_path filename d
      = (Ok (FileHandler.path_join FileHandler.DATA_DIR filename), d') /\
    FileHandler.dir_exists d' = true /\
    FileHandler.write_fault d' = FileHandler.write_fault d /\
    (FileHandler.dir_exists d = true -> d' = d).
Proof.
  intros Hdir.
  unfold FileHandler.get_file_path, FileHandler.ensure_data_dir,
    FileHandler.makedirs, bind, get, ret.
  destruct (FileHandler.dir_exists d) eqn:Hex; simpl in *.
  - exists d. auto.
  - rewrite Hdir. eexists. split; [reflexivity|]. simpl.
    repeat split; auto. discriminate.
Qed.

(** With a data directory that exists or can be created, [load_data]
    returns normally, and returns [[]] for a file that is absent,
    unreadable or not valid JSON. *)
Lemma load_data_returns (filename : string) (d : FileHandler.Disk R) :
  FileHandler.dir_exists d || FileHandler.makedirs_ok d = true ->
  exists data d',
    FileHandler.load_data filename d = (Ok data, d') /\
    match FileHandler.stat d
            (FileHandler.path_join FileHandler.DATA_DIR filename) with
    | FileHandler.Document doc => data = doc
    | _ => data = []
    end.
Proof.
  intros Hdir. unfold FileHandler.load_data, bind.
  unfold FileHandler.get_file_path, FileHandler.ensure_data_dir,
    FileHandler.makedirs, FileHandler.stat, bind, get, ret.
  destruct (FileHandler.dir_exists d) eqn:Hex; simpl in *.
  - rewrite Hex.
    destruct (FileHandler.files d _) eqn:Hf; eauto.
  - rewrite Hdir. simpl. eauto.
Qed.

(** With a data directory that exists or can be created, [save_data]
    returns a boolean. *)
Lemma save_data_returns (filename : string) (data : list R)
    (d : FileHandler.Disk R) :
  FileHandler.dir_exists d || FileHandler.makedirs_ok d = true ->
  exists b d', FileHandler.save_data filename data d = (Ok b, d').
Proof.
  intros Hdir. unfold FileHandler.save_data, bind.
  destruct (get_file_path_ok filename d Hdir) as (d' & -> & _).
  unfold get, put, ret.
  destruct (FileHandler.write_fault d' _) as [[|]|]; simpl; eauto.
Qed.

(** A successful save leaves the document at the file's path. *)
Lemma save_data_then_load_data (filename : string) (data : list R)
    (d : FileHandler.Disk R) :
  FileHandler.dir_exists d || FileHandler.makedirs_ok d = true ->
  FileHandler.write_fault d
    (FileHandler.path_join FileHandler.DATA_DIR filename) = None ->
  exists d',
    FileHandler.save_data filename data d = (Ok true, d') /\
    FileHandler.load_data filename d' = (Ok data, d').
Proof.
  intros Hdir Hw. unfold FileHandler.save_data, FileHandler.load_data, bind.
  destruct (get_file_path_ok filename d Hdir) as (d1 & -> & Hex & Hwf & _).
  unfold get, put, ret. rewrite Hwf, Hw. simpl.
  eexists. split; [reflexivity|].
  unfold FileHandler.get_file_path, FileHandler.ensure_data_dir, bind, get,
    ret. simpl. rewrite Hex. simpl.
  unfold FileHandler.stat. simpl. rewrite Hex.
  now rewrite String.eqb_refl.
Qed.

(** C8, at the failing input: in a working directory where [data] does not
    exist and cannot be created, [load_data] raises [OSError] instead of
    returning [[]] for the absent file, and [save_data] raises [OSError]
    instead of returning [False]. *)
Theorem persistence_raises_without_data_dir :
  FileHandler.stat (@Sample.read_only_cwd R) "data/users.json"
    = FileHandler.Absent /\
  FileHandler.load_data "users.json" (@Sample.read_only_cwd R)
    = (Raise OSError, Sample.read_only_cwd) /\
  FileHandler.save_data "users.json" [] (@Sample.read_only_cwd R)
    = (Raise OSError, Sample.read_only_cwd).
Proof. repeat split. Qed.

End Persistence.

(** ** Dictionaries *)

Section Dict.
Context {V : Type}.
Implicit Types (d : dict V) (k : Z) (v : V).

Lemma dict_get_set_same d k v : dict_get (dict_set d k v) k = Some v.
Proof.
  induction d as [|[k' v'] d IH]; simpl.
  - now rewrite Z.eqb_refl.
  - destruct (Z.eqb_spec k k') as [->|Hne]; simpl.
    + now rewrite Z.eqb_refl.
    + destruct (Z.eqb_spec k k'); [contradiction | exact IH].
Qed.

Lemma dict_get_set_other d k k' v :
  k' <> k -> dict_get (dict_set d k v) k' = dict_get d k'.
Proof.
  intros Hne. induction d as [|[k0 v0] d IH]; simpl.
  - destruct (Z.eqb_spec k' k); [contradiction | reflexivity].
  - destruct (Z.eqb_spec k k0) as [->|Hne0]; simpl.
    + destruct (Z.eqb_spec k' k0); [contradiction | reflexivity].
    + destruct (Z.eqb_spec k' k0); [reflexivity | exact IH].
Qed.

Lemma dict_get_In d k v : dict_get d k = Some v -> In (k, v) d.
Proof.
  induction d as [|[k' v'] d IH]; simpl; [discriminate|].
  destruct (Z.eqb_spec k k') as [->|Hne].
  - intros [= ->]. now left.
  - intros Hget. right. now apply IH.
Qed.

Lemma dict_get_None d k : ~ In k (dict_keys d) -> dict_get d k = None.
Proof.
  induction d as [|[k' v'] d IH]; simpl; [reflexivity|].
  intros Hnin. destruct (Z.eqb_spec k k') as [->|Hne].
  - exfalso. apply Hnin. now left.
  - apply IH. intros Hin. apply Hnin. now right.
Qed.

(** Assigning to a key that is not there appends it. *)
Lemma dict_set_fresh d k v :
  ~ In k (dict_keys d) -> dict_set d k v = d ++ [(k, v)].
Proof.
  induction d as [|[k' v'] d IH]; simpl; [reflexivity|].
  intros Hnin. destruct (Z.eqb_spec k k') as [->|Hne].
  - exfalso. apply Hnin. now left.
  - f_equal. apply IH. intros Hin. apply Hnin. now right.
Qed.

(** Assigning to a key the value it already has changes nothing. *)
Lemma dict_set_same d k v : dict_get d k = Some v -> dict_set d k v = d.
Proof.
  induction d as [|[k' v'] d IH]; simpl; [discriminate|].
  destruct (Z.eqb_spec k k') as [->|Hne].
  - now intros [= ->].
  - intros Hget. f_equal. now apply IH.
Qed.

Lemma dict_keys_set_In d k v k' :
  In k' (dict_keys (dict_set d k v)) <-> k' = k \/ In k' (dict_keys d).
Proof.
  induction d as [|[k0 v0] d IH]; simpl.
  - intuition.
  - destruct (Z.eqb_spec k k0) as [->|Hne]; simpl.
    + intuition.
    + rewrite IH. intuition.
Qed.

Lemma dict_keys_set_NoDup d k v :
  NoDup (dict_keys d) -> NoDup (dict_keys (dict_set d k v)).
Proof.
  induction d as [|[k0 v0] d IH]; simpl; intros Hnd.
  - constructor; [intros [] | constructor].
  - inversion Hnd as [|? ? Hnin Hnd']; subst.
    destruct (Z.eqb_spec k k0) as [->|Hne]; simpl.
    + now constructor.
    + constructor; [|now apply IH].
      rewrite dict_keys_set_In. intros [Heq | Hin]; [congruence | contradiction].
Qed.

Lemma dict_set_Forall (P : Z * V -> Prop) d k v :
  Forall P d -> P (k, v) -> Forall P (dict_set d k v).
Proof.
  intros Hall Hkv. induction d as [|[k0 v0] d IH]; simpl.
  - now constructor.
  - inversion Hall; subst.
    destruct (Z.eqb_spec k k0); constructor; auto.
Qed.

Lemma dict_set_In d k v e : In e (dict_set d k v) -> e = (k, v) \/ In e d.
Proof.
  induction d as [|[k0 v0] d IH]; simpl.
  - intros [<- | []]. now left.
  - destruct (Z.eqb_spec k k0); simpl; intuition.
Qed.

End Dict.

Lemma dict_get_keys {V} (d : dict V) (k : Z) :
  dict_get d k <> None <-> In k (dict_keys d).
Proof.
  induction d as [|[k0 v0] d IH]; simpl.
  - split; [intros Hne; now contradiction Hne | intros []].
  - destruct (Z.eqb_spec k k0) as [->|Hne].
    + split; [now left | discriminate].
    + rewrite IH. split; [now right | intros [Heq | Hin]; congruence].
Qed.

Lemma dict_In_get {V} (d : dict V) (k : Z) (v : V) :
  NoDup (dict_keys d) -> In (k, v) d -> dict_get d k = Some v.
Proof.
  induction d as [|[k0 v0] d IH]; simpl; [intros _ []|].
  intros Hnd Hin. inversion Hnd as [|? ? Hk0 Hd]; subst.
  destruct Hin as [[= -> ->] | Hin].
  - now rewrite Z.eqb_refl.
  - destruct (Z.eqb_spec k k0) as [->|Hne]; [|now apply IH].
    exfalso. apply Hk0. change k0 with (fst (k0, v)). now apply in_map.
Qed.

(** ** Task status *)

Section TaskStatus.
Context `{DateTime}.

Lemma Task_create_returns now title description project_id st :
  let self := {| Task.task_id := Task._next_id st;
                 Task._title := title;
                 Task._description := description;
                 Task._status := "pending";
                 Task.project_id := project_id;
                 Task.assigned_users := [];
                 Task.created_at := isoformat now |} in
  Task.create now title description project_id st
  = (Ok self,
     {| Task._all_tasks := dict_set (Task._all_tasks st) (Task._next_id st) self;
        Task._next_id := Task._next_id st + 1 |}).
Proof. reflexivity. Qed.

Lemma Task_set_status_invalid value (task : Task.t) :
  ~ In value Task.VALID_STATUSES ->
  Task.set_status value task = (Raise Task.invalid_status, task).
Proof.
  intros Hbad. apply str_in_not_In in Hbad.
  unfold Task.set_status. now rewrite Hbad.
Qed.

(** C9: a task made by the factory has status "pending" and is registered;
    [mark_complete] on any task returns normally, sets its status to
    "completed" and makes [is_completed] true; setting the status of any
    task to a value outside the three valid ones raises the validation
    error and leaves the task, and so its status, as it was. *)
Theorem task_status_transitions
    now title description project_id st (task0 : Task.t) value
    (Hbad : ~ In value Task.VALID_STATUSES) :
  (exists task st',
     Task.create now title description project_id st = (Ok task, st') /\
     Task.status task = "pending" /\
     Task.is_completed task = false /\
     Task.find_by_id st' (Task.task_id task) = Some task) /\
  (exists task',
     Task.mark_complete task0 = (Ok tt, task') /\
     Task.status task' = "completed" /\
     Task.is_completed task' = true) /\
  Task.set_status value task0 = (Raise Task.invalid_status, task0) /\
  Task.status (snd (Task.set_status value task0)) = Task.status task0.
Proof.
  split; [|split; [|split]].
  - rewrite Task_create_returns. cbv zeta.
    eexists. eexists. split; [reflexivity|]. simpl.
    repeat split. unfold Task.find_by_id. simpl. apply dict_get_set_same.
  - eexists. split; [reflexivity|]. split; reflexivity.
  - now apply Task_set_status_invalid.
  - now rewrite Task_set_status_invalid.
Qed.

(** C10: constructing a task with an invalid status and no explicit id
    raises the validation error after the counter has moved on by one and
    before anything is registered: the registry's entries are as before, the
    next [create] gets the id after the consumed one, and the consumed id
    stays as it was in the registry (unused, when it was unused). *)
Theorem failed_task_construction_consumes_id
    now title description project_id status assigned_users created_at
    now' title' description' project_id' st
    (Hbad : ~ In status Task.VALID_STATUSES) :
  exists st1,
    Task.__init__ now title description project_id None status
                  assigned_users created_at st
      = (Raise Task.invalid_status, st1) /\
    Task._next_id st1 = Task._next_id st + 1 /\
    Task._all_tasks st1 = Task._all_tasks st /\
    Task.get_all st1 = Task.get_all st /\
    exists task st2,
      Task.create now' title' description' project_id' st1 = (Ok task, st2) /\
      Task.task_id task = Task._next_id st + 1 /\
      Task.find_by_id st2 (Task.task_id task) = Some task /\
      Task.find_by_id st2 (Task._next_id st)
        = Task.find_by_id st (Task._next_id st).
Proof.
  apply str_in_not_In in Hbad.
  eexists. split.
  - unfold Task.__init__, or_int, Task._get_next_id, bind, get, put, ret.
    cbn [Task._status negb]. rewrite Hbad. reflexivity.
  - simpl. repeat split.
    rewrite Task_create_returns. cbv zeta. simpl.
    eexists. eexists. split; [reflexivity|]. simpl.
    repeat split; unfold Task.find_by_id; simpl.
    + apply dict_get_set_same.
    + apply dict_get_set_other. lia.
Qed.

End TaskStatus.

(** Witness of [task_status_transitions], with the value "bogus". *)
Lemma task_status_transitions_witness :
  Task.set_status "bogus" Sample.write_doc
    = (Raise Task.invalid_status, Sample.write_doc).
Proof.
  apply (@task_status_transitions IsoText.calendar IsoText.noon "Write doc" "" 1 Task.initial
           Sample.write_doc "bogus").
  simpl. intros [Heq | [Heq | [Heq | []]]]; discriminate.
Defined.

(** Witness of [failed_task_construction_consumes_id]: on the initial
    registry the failed construction consumes id 1, and the task created
    next gets id 2 while id 1 stays unused. *)
Lemma failed_task_construction_consumes_id_witness :
  exists st1,
    Task.__init__ IsoText.noon "Write doc" "" 1 None "bogus" None None
                  Task.initial
      = (Raise Task.invalid_status, st1) /\
    Task._next_id st1 = 1 + 1 /\
    Task._all_tasks st1 = [] /\
    Task.get_all st1 = [] /\
    exists task st2,
      Task.create IsoText.noon "Review doc" "" 1 st1 = (Ok task, st2) /\
      Task.task_id task = 1 + 1 /\
      Task.find_by_id st2 (Task.task_id task) = Some task /\
      Task.find_by_id st2 1 = None.
Proof.
  apply (@failed_task_construction_consumes_id IsoText.calendar
           IsoText.noon "Write doc" "" 1 "bogus" None None
           IsoText.noon "Review doc" "" 1 Task.initial).
  simpl. intros [Heq | [Heq | [Heq | []]]]; discriminate.
Defined.

(** ** Validation: setters and constructors *)

Section Validation.
Context `{DateTime}.

(** The guard of the name setter, [not value or len(value.strip()) < 2],
    is [len(value.strip()) < 2]. *)
Lemma set_name_guard (value : string) :
  negb (truthy_str value) || (len (strip value) <? 2)
  = (len (strip value) <? 2).
Proof. destruct value; reflexivity. Qed.

Lemma User_set_name_short (value : string) (u : User.t) :
  (len (strip value) <? 2) = true ->
  User.set_name value u
  = (Raise (ValueError "Name must be at least 2 characters long"), u).
Proof.
  intros Hshort. unfold User.set_name. now rewrite set_name_guard, Hshort.
Qed.

Lemma User_set_name_long (value : string) (u : User.t) :
  (len (strip value) <? 2) = false ->
  exists u',
    User.set_name value u = (Ok tt, u') /\
    User.name u' = strip value /\
    User.user_id u' = User.user_id u /\
    User.email u' = User.email u /\
    User.created_at u' = User.created_at u /\
    User.projects u' = User.projects u.
Proof.
  intros Hlong. unfold User.set_name. rewrite set_name_guard, Hlong.
  eexists. split; [reflexivity|]. repeat split.
Qed.

(** The User constructor validates nothing: it always returns, stores the
    name and the email as given, and registers the object under its id. *)
Lemma User_init_returns now name email user_id created_at projects st :
  exists self st',
    User.__init__ now name email user_id created_at projects st
      = (Ok self, st') /\
    User.name self = name /\
    User.email self = email /\
    User.find_by_id st' (User.user_id self) = Some self.
Proof.
  unfold User.__init__, or_int, User._get_next_id, User.register, bind, get,
    put, ret.
  destruct user_id as [z|]; [destruct (z =? 0)|]; simpl;
    (eexists; eexists; split; [reflexivity|]; repeat split;
     unfold User.find_by_id; simpl; apply dict_get_set_same).
Qed.

(** The Task constructor raises exactly on a status outside the valid
    ones, and then raises the validation error. *)
Lemma Task_init_outcome now title description project_id task_id status
    assigned_users created_at st :
  match fst (Task.__init__ now title description project_id task_id status
                           assigned_users created_at st) with
  | Ok self =>
      Task.str_in status Task.VALID_STATUSES = true /\
      Task.status self = status
  | Raise e =>
      Task.str_in status Task.VALID_STATUSES = false /\
      e = Task.invalid_status
  end.
Proof.
  unfold Task.__init__, or_int, Task._get_next_id, Task.register, bind, get,
    put, ret.
  destruct task_id as [z|]; [destruct (z =? 0)|];
    cbn [Task._status negb fst];
    destruct (Task.str_in status Task.VALID_STATUSES); simpl; auto.
Qed.

(** The Project constructor raises exactly when it is given a due date as
    a string that the parser rejects, and then it raises what the parser
    raised: the constructor has no handler. *)
Lemma Project_init_outcome now title description due_date user_id project_id
    tasks created_at st :
  match fst (Project.__init__ now title description due_date user_id
                              project_id tasks created_at st) with
  | Ok self =>
      match due_date with
      | inl s => parse s = Some (Project.due_date self)
      | inr d => Project.due_date self = d
      end
  | Raise e =>
      match due_date with
      | inl s => parse s = None /\ e = parse_error s
      | inr _ => False
      end
  end.
Proof.
  unfold Project.__init__, Project.parser_parse, or_int,
    Project._get_next_id, Project.register, bind, get, put, ret, raise.
  destruct project_id as [z|]; [destruct (z =? 0)|];
    destruct due_date as [s|d]; simpl;
    try destruct (parse s) eqn:Hp; simpl; auto.
Qed.

(** C1, as the code has it: validation sits in the setters, not in the
    User constructor.  Setting a user's name to "A" raises the validation
    error and leaves the user as it was, and setting it to "Al" succeeds;
    setting the email to "bad" raises and to "a@b.c" succeeds.  The User
    constructor never raises and stores the name it is given, whatever it
    is; the Task constructor raises only the validation error of an invalid
    status, and the Project constructor only on a due date given as a
    string the date parser rejects, and then with the exception the parser
    raised for that string, whichever the library chooses. *)
Theorem validation_in_setters_not_in_User_constructor
    (u : User.t) now name email user_id created_at projects (st : User.State)
    title description project_id task_id status assigned_users created_at'
    (tst : Task.State)
    ptitle pdescription due_date puser_id pproject_id ptasks pcreated_at
    (pst : Project.State) :
  User.set_name "A" u
    = (Raise (ValueError "Name must be at least 2 characters long"), u) /\
  (exists u', User.set_name "Al" u = (Ok tt, u') /\ User.name u' = "Al") /\
  User.set_email "bad" u = (Raise (ValueError "Invalid email format"), u) /\
  (exists u', User.set_email "a@b.c" u = (Ok tt, u') /\
              User.email u' = "a@b.c") /\
  (exists self st',
     User.__init__ now name email user_id created_at projects st
       = (Ok self, st') /\
     User.name self = name /\ User.email self = email /\
     User.find_by_id st' (User.user_id self) = Some self) /\
  match fst (Task.__init__ now title description project_id task_id status
                           assigned_users created_at' tst) with
  | Ok _ => Task.str_in status Task.VALID_STATUSES = true
  | Raise e => Task.str_in status Task.VALID_STATUSES = false /\
               e = Task.invalid_status
  end /\
  match fst (Project.__init__ now ptitle pdescription due_date puser_id
                              pproject_id ptasks pcreated_at pst) with
  | Ok _ => True
  | Raise e => exists s, due_date = inl s /\ parse s = None /\
                         e = parse_error s
  end.
Proof.
  split; [|split; [|split; [|split; [|split; [|split]]]]].
  - now apply User_set_name_short.
  - destruct (User_set_name_long "Al" u eq_refl) as (u' & Hset & Hname & _).
    exists u'. now split.
  - reflexivity.
  - eexists. split; reflexivity.
  - apply User_init_returns.
  - pose proof (Task_init_outcome now title description project_id task_id
                  status assigned_users created_at' tst) as Hout.
    destruct (fst _); tauto.
  - pose proof (Project_init_outcome now ptitle pdescription due_date
                  puser_id pproject_id ptasks pcreated_at pst) as Hout.
    destruct (fst _); [exact I|].
    destruct due_date as [s|d]; [|contradiction].
    exists s. tauto.
Qed.

End Validation.

(** C1 fails as stated: constructing a user with the one-character name "A"
    does not raise; the user is built with that name and registered. *)
Lemma User_constructor_accepts_one_character_name :
  exists self st',
    User.__init__ IsoText.noon "A" "a@b.c" None None None User.initial
      = (Ok self, st') /\
    User.name self = "A" /\
    User.find_by_id st' 1 = Some self.
Proof.
  eexists. eexists. split; [cbv; reflexivity|]. split; reflexivity.
Qed.

(** ** Completion percentage *)

Section Completion.
Context `{DateTime}.

Lemma fold_add_ones {A} (l : list A) (acc : Z) :
  fold_left Z.add (map (fun _ => 1) l) acc = acc + Z.of_nat (List.length l).
Proof.
  revert acc. induction l as [|x l IH]; intros acc; simpl List.length; simpl.
  - lia.
  - rewrite IH. lia.
Qed.

Lemma sum_ones_count {A} (cond : A -> bool) (l : list A) :
  Project.sum_ones cond l = Z.of_nat (List.length (filter cond l)).
Proof. unfold Project.sum_ones. now rewrite fold_add_ones. Qed.

(** C2, as the code has it: with no task ids the percentage is 0.0;
    otherwise it is (number of listed ids that resolve to a task whose
    status is "completed") / (number of listed ids) * 100, so that an id
    that does not resolve counts in the total and not as completed. *)
Theorem completion_percentage_counts_every_listed_id
    (self : Project.t) (task_registry : Task.State) :
  Project.get_completion_percentage self task_registry
  = match Project.tasks self with
    | [] => 0%float
    | _ =>
        (Project.float_of_int
           (Z.of_nat
              (List.length
                 (filter (Project.resolves_completed task_registry)
                         (Project.tasks self))))
         / Project.float_of_int (Z.of_nat (List.length (Project.tasks self)))
         * Project.float_of_int 100)%float
    end.
Proof.
  unfold Project.get_completion_percentage.
  destruct (Project.tasks self) as [|task_id l]; [reflexivity|].
  now rewrite sum_ones_count.
Qed.

(** Where every listed id resolves, the code agrees with the wording that
    skips the ids that do not. *)
Lemma completion_percentage_all_resolving
    (self : Project.t) (task_registry : Task.State) :
  forallb (Project.resolves task_registry) (Project.tasks self) = true ->
  Project.get_completion_percentage self task_registry
  = Project.completion_percentage_skipping self task_registry.
Proof.
  intros Hall.
  unfold Project.get_completion_percentage,
    Project.completion_percentage_skipping.
  destruct (Project.tasks self) as [|task_id l] eqn:Htasks; [reflexivity|].
  rewrite sum_ones_count.
  change (fun task_id0 : Z =>
            match Task.find_by_id task_registry task_id0 with
            | Some task => (Task.status task =? "completed")%string
            | None => false
            end)
    with (Project.resolves_completed task_registry).
  assert (Hfilter : filter (Project.resolves task_registry) (task_id :: l)
                    = task_id :: l).
  { rewrite forallb_forall in Hall.
    clear Htasks. induction (task_id :: l) as [|x xs IH]; [reflexivity|].
    simpl. rewrite (Hall x (or_introl eq_refl)). f_equal.
    apply IH. intros y Hy. apply Hall. now right. }
  now rewrite Hfilter.
Qed.

End Completion.

(** The Task registry of the examples: task 1 "Write doc" is pending,
    task 2 "Review doc" is completed. *)
Lemma completion_percentage_examples :
  let both := {| Task._all_tasks := [(1, Sample.write_doc);
                                      (2, Sample.review_doc)];
                 Task._next_id := 3 |} in
  let no_tasks :=
    snd (Project.set_tasks [] Sample.launch) in
  Project.get_completion_percentage Sample.launch both = 50%float /\
  Project.get_completion_percentage no_tasks both = 0%float.
Proof. split; reflexivity. Qed.

(** C2 fails as stated: Launch lists tasks 1 and 2, and the Task registry
    only holds task 2, which is completed.  The code divides by the two
    listed ids and answers 50.0; skipping the id that does not resolve
    would give 100.0. *)
Lemma completion_percentage_counts_dangling_id :
  let only_review := {| Task._all_tasks := [(2, Sample.review_doc)];
                        Task._next_id := 3 |} in
  Project.get_completion_percentage Sample.launch only_review = 50%float /\
  Project.completion_percentage_skipping Sample.launch only_review
    = 100%float /\
  Project.get_completion_percentage Sample.launch only_review
    <> Project.completion_percentage_skipping Sample.launch only_review.
Proof.
  split; [reflexivity|]. split; [reflexivity|].
  intros Heq.
  apply (f_equal (fun x => PrimFloat.eqb x 50%float)) in Heq.
  vm_compute in Heq. discriminate.
Qed.

(** ** Identity of registered users *)

Section UserIdentity.
Context `{DateTime}.

(** While the counter is above every registered id, [create] takes an
    unused id: every user found before is found unchanged afterwards, and
    the counter stays above every registered id. *)
Lemma User_create_keeps_registered now name email st id (u : User.t) :
  User.counter_ahead st ->
  User.find_by_id st id = Some u ->
  User.find_by_id (snd (User.create now name email st)) id = Some u /\
  User.counter_ahead (snd (User.create now name email st)).
Proof.
  intros Hahead Hfind. unfold User.counter_ahead in *.
  rewrite Forall_forall in Hahead.
  assert (Hid : id < User._next_id st).
  { apply Hahead. apply dict_get_In in Hfind.
    change id with (fst (id, u)). now apply in_map. }
  change (User.create now name email st)
    with (Ok {| User.user_id := User._next_id st;
               User._name := name;
               User._email := email;
               User.created_at := isoformat now;
               User.projects := [] |},
          {| User._all_users :=
               dict_set (User._all_users st) (User._next_id st)
                 {| User.user_id := User._next_id st;
                    User._name := name;
                    User._email := email;
                    User.created_at := isoformat now;
                    User.projects := [] |};
             User._next_id := User._next_id st + 1 |}).
  simpl. split.
  - unfold User.find_by_id in *. simpl.
    rewrite dict_get_set_other by lia. exact Hfind.
  - apply Forall_forall. intros k Hk.
    apply dict_keys_set_In in Hk. destruct Hk as [->|Hk]; [lia|].
    specialize (Hahead k Hk). lia.
Qed.

End UserIdentity.

(** The constructor called with an explicit id leaves the counter where it
    is, so the counter need not stay above the registered ids. *)
Lemma User_explicit_id_leaves_counter_behind :
  let st := snd (User.__init__ IsoText.noon "Ann" "ann@x.com" (Some 1) None
                               None User.initial) in
  User.counter_ahead User.initial /\ ~ User.counter_ahead st.
Proof.
  split.
  - constructor.
  - intros Hahead. inversion Hahead as [|k l Hk Hl]; subst.
    vm_compute in Hk. discriminate.
Qed.

(** C7, at the failing input: on the initial registry, a user built with
    the explicit id 1 is found under id 1, but the counter has not moved;
    the next [create] hands out id 1 again and takes the slot, so that
    [find_by_id 1] now answers another user and the first one is gone from
    [get_all]. *)
Theorem explicit_id_is_handed_out_again :
  exists ann st1 bob st2,
    User.__init__ IsoText.noon "Ann" "ann@x.com" (Some 1) None None
                  User.initial = (Ok ann, st1) /\
    User.find_by_id st1 1 = Some ann /\
    User._next_id st1 = 1 /\
    User.create IsoText.noon "Bob" "bob@x.com" st1 = (Ok bob, st2) /\
    User.user_id bob = User.user_id ann /\
    User.find_by_id st2 1 = Some bob /\
    bob <> ann /\
    User.get_all st2 = [bob].
Proof.
  do 4 eexists. split; [cbv; reflexivity|]. split; [reflexivity|].
  split; [reflexivity|]. split; [cbv; reflexivity|]. split; [reflexivity|].
  split; [reflexivity|]. split; [discriminate | reflexivity].
Qed.

(** ** Loading users *)

Lemma dict_set_idem {V} (d : dict V) (k : Z) (v : V) :
  dict_set (dict_set d k v) k v = dict_set d k v.
Proof. apply dict_set_same, dict_get_set_same. Qed.

Lemma or_str_nonempty (c : option string) (dflt : string) :
  dflt <> "" -> or_str c dflt <> "".
Proof.
  intros Hd. destruct c as [[|a s]|]; simpl; [assumption | discriminate
                                              | assumption].
Qed.

Lemma or_str_Some (c dflt : string) : c <> "" -> or_str (Some c) dflt = c.
Proof. destruct c; [contradiction | reflexivity]. Qed.

Section LoadUsers.
Context `{DateTime}.

Lemma User_load_all_unfold now d st :
  User.load_all now (d, st)
  = match FileHandler.load_data "users.json" d with
    | (Ok data, d') =>
        let (r, st') := User.reload now data st in (r, (d', st'))
    | (Raise e, d') => (Raise e, (d', st))
    end.
Proof.
  unfold User.load_all, bind, on_fst, on_snd. simpl.
  destruct (FileHandler.load_data "users.json" d) as [[data|e] d'];
    reflexivity.
Qed.

Lemma User_reload_unfold now data st :
  User.reload now data st
  = for_each data (User.load_one now) User.initial.
Proof. reflexivity. Qed.

Lemma User_load_one_complete now data st :
  User.complete data = true ->
  let self := User.built now data (User._next_id st) in
  User.load_one now data st
  = (Ok tt,
     {| User._all_users :=
          dict_set (User._all_users st) (User.user_id self) self;
        User._next_id := Z.max (User._next_id st) (User.user_id self + 1) |}).
Proof.
  destruct data as [[i|] [n|] [e|] c p]; try discriminate. intros _.
  unfold User.built. cbn [User.j_user_id User.j_name User.j_email
    User.j_created_at User.j_projects get_default User.user_id].
  unfold User.load_one, User.from_dict, User.__init__, getitem, or_int,
    User._get_next_id, User.register, bind, get, put, ret.
  cbn [User.j_user_id User.j_name User.j_email User.j_created_at
    User.j_projects get_default or_list].
  destruct (Z.eqb_spec i 0) as [->|Hne];
    cbn [User.user_id User._all_users User._next_id];
    rewrite dict_set_idem, Z.geb_leb.
  - destruct (Z.leb_spec (User._next_id st + 1) (User._next_id st));
      [lia|]. do 2 f_equal. lia.
  - destruct (Z.leb_spec (User._next_id st) i); do 2 f_equal; lia.
Qed.

Lemma User_load_one_incomplete now data st :
  User.complete data = false ->
  exists key,
    User.load_one now data st = (Raise (KeyError key), st) /\
    (key = "name" \/ key = "email" \/ key = "user_id").
Proof.
  destruct data as [[i|] [n|] [e|] c p]; try discriminate; intros _;
    unfold User.load_one, User.from_dict, getitem, bind, raise; simpl;
    eexists; (split; [reflexivity|]); auto.
Qed.

Lemma User_built_id now data next :
  1 <= next -> User.user_id (User.built now data next) <> 0.
Proof.
  intros Hnext. unfold User.built. simpl.
  destruct (Z.eqb_spec (get_default (User.j_user_id data) 0) 0); lia.
Qed.

End LoadUsers.

(** ** Loops *)

Lemma for_each_app {S A} (l1 l2 : list A) (body : A -> M S unit) (s : S) :
  for_each (l1 ++ l2) body s
  = match for_each l1 body s with
    | (Ok _, s') => for_each l2 body s'
    | (Raise e, s') => (Raise e, s')
    end.
Proof.
  revert s. induction l1 as [|x l1 IH]; intros s; simpl.
  - reflexivity.
  - unfold bind. destruct (body x s) as [[[]|e] s']; [apply IH | reflexivity].
Qed.

(** What every turn of a loop preserves holds when the loop is left,
    normally or by an exception. *)
Lemma for_each_invariant {S A} (P : S -> Prop) (body : A -> M S unit) :
  (forall x s, P s -> P (snd (body x s))) ->
  forall l s, P s -> P (snd (for_each l body s)).
Proof.
  intros Hbody l. induction l as [|x l IH]; intros s Hs; simpl.
  - exact Hs.
  - unfold bind. specialize (Hbody x s Hs).
    destruct (body x s) as [[[]|e] s']; simpl in *; auto.
Qed.

Section LoadUsersLoop.
Context `{DateTime}.

Lemma max_id_dict_set {V} (d : dict V) (k : Z) (v : V) :
  User.max_id (dict_keys (dict_set d k v))
  = Z.max k (User.max_id (dict_keys d)).
Proof.
  unfold User.max_id, dict_keys.
  induction d as [|[k0 v0] d IH]; cbn [dict_set map fst fold_right].
  - reflexivity.
  - destruct (Z.eqb_spec k k0) as [->|Hne]; cbn [map fst fold_right].
    + lia.
    + rewrite IH. lia.
Qed.

Lemma max_id_bounds (l : list Z) (k : Z) : In k l -> k <= User.max_id l.
Proof.
  unfold User.max_id. induction l as [|x l IH]; simpl; [intros []|].
  intros [->|Hin]; [lia|]. specialize (IH Hin). lia.
Qed.

(** Each turn of the loop of [load_all] keeps the counter one past the
    greatest registered id. *)
Lemma User_load_one_counter now data st :
  User.counter_past_ids st ->
  User.counter_past_ids (snd (User.load_one now data st)).
Proof.
  intros Hinv. destruct (User.complete data) eqn:Hc.
  - rewrite (User_load_one_complete now data st Hc). cbv zeta.
    unfold User.counter_past_ids in *. simpl.
    rewrite max_id_dict_set. lia.
  - destruct (User_load_one_incomplete now data st Hc) as (key & -> & _).
    exact Hinv.
Qed.

Lemma User_reload_counter now data st :
  User.counter_past_ids (snd (User.reload now data st)).
Proof.
  rewrite User_reload_unfold. apply for_each_invariant.
  - intros x s. apply User_load_one_counter.
  - reflexivity.
Qed.

(** The loop over complete records returns normally; it keeps the keys it
    finds, adds every record id other than [0], and adds nothing but record
    ids and ids taken from the counter. *)
Lemma User_load_loop_complete now data :
  forallb User.complete data = true ->
  forall st,
  exists st',
    for_each data (User.load_one now) st = (Ok tt, st') /\
    (forall k, In k (dict_keys (User._all_users st)) ->
               In k (dict_keys (User._all_users st'))) /\
    (forall r i, In r data -> User.j_user_id r = Some i -> i <> 0 ->
                 In i (dict_keys (User._all_users st'))) /\
    (forall k, In k (dict_keys (User._all_users st')) ->
               In k (dict_keys (User._all_users st)) \/
               In (Some k) (map User.j_user_id data) \/
               In (Some 0) (map User.j_user_id data)).
Proof.
  induction data as [|r data IH]; intros Hall st.
  - exists st. simpl. repeat split; auto. intros r i [].
  - simpl in Hall. apply andb_prop in Hall as [Hr Hall].
    simpl for_each. unfold bind.
    rewrite (User_load_one_complete now r st Hr). cbv zeta.
    set (self := User.built now r (User._next_id st)).
    set (st1 := {| User._all_users := _; User._next_id := _ |}).
    destruct (IH Hall st1) as (st' & Hrun & Hkeep & Hadd & Hfrom).
    exists st'. split; [exact Hrun|].
    assert (Hself : In (User.user_id self)
                       (dict_keys (User._all_users st1))).
    { subst st1. simpl. apply dict_keys_set_In. now left. }
    split; [|split].
    + intros k Hk. apply Hkeep. subst st1. simpl.
      apply dict_keys_set_In. now right.
    + intros r' i [<-|Hin] Hi Hne.
      * apply Hkeep. replace i with (User.user_id self); [exact Hself|].
        subst self. unfold User.built. rewrite Hi. simpl.
        destruct (Z.eqb_spec i 0); [contradiction | reflexivity].
      * now apply (Hadd r' i).
    + intros k Hk. destruct (Hfrom k Hk) as [Hst1 | [Hrec | Hzero]].
      * subst st1. simpl in Hst1. apply dict_keys_set_In in Hst1.
        destruct Hst1 as [-> | Hold]; [|now left].
        right. simpl. subst self. unfold User.built.
        destruct r as [[i|] [n|] [e|] c p]; try discriminate. simpl.
        destruct (Z.eqb_spec i 0) as [->|Hne]; [right|left]; now left.
      * right. left. now right.
      * right. right. now right.
Qed.

End LoadUsersLoop.

(** ** What a load leaves in the registry *)

Section LoadAllUsers.
Context `{DateTime}.

Lemma User_create_returns now name email st :
  let self := {| User.user_id := User._next_id st;
                 User._name := name;
                 User._email := email;
                 User.created_at := isoformat now;
                 User.projects := [] |} in
  User.create now name email st
  = (Ok self,
     {| User._all_users := dict_set (User._all_users st) (User._next_id st) self;
        User._next_id := User._next_id st + 1 |}).
Proof. reflexivity. Qed.

Lemma max_id_cases (l : list Z) :
  (User.max_id l = 0 /\ Forall (fun k => k <= 0) l) \/
  (In (User.max_id l) l /\ 0 < User.max_id l).
Proof.
  unfold User.max_id. induction l as [|x l IH]; simpl.
  - left. split; [reflexivity | constructor].
  - destruct IH as [[Hz Hall] | [Hin Hpos]].
    + rewrite Hz. destruct (Z.max_spec x 0) as [[Hlt ->] | [Hle ->]].
      * left. split; [reflexivity|]. constructor; [lia | assumption].
      * destruct (Z.eq_dec x 0) as [->|Hne].
        -- left. split; [reflexivity|]. constructor; [lia | assumption].
        -- right. split; [now left | lia].
    + right.
      destruct (Z.max_spec x (fold_right Z.max 0 l)) as [[Hlt ->] | [Hle ->]].
      * split; [now right | assumption].
      * split; [now left | lia].
Qed.

(** A load of complete records returns normally, and what it leaves does
    not depend on what the registry held before.  The registry then holds
    every record id other than 0, and nothing but record ids (and ids taken
    from the counter for records whose id is 0).  The counter is one more
    than the greatest of 0 and the registered ids, and the next [create]
    gets the counter's value as its id. *)
Lemma User_load_all_complete
    now (d d' : FileHandler.Disk User.record)
    (data : list User.record) :
  FileHandler.load_data "users.json" d = (Ok data, d') ->
  forallb User.complete data = true ->
  exists st',
    (forall st0, User.load_all now (d, st0) = (Ok tt, (d', st'))) /\
    (forall r i, In r data -> User.j_user_id r = Some i -> i <> 0 ->
                 In i (dict_keys (User._all_users st'))) /\
    (forall k, In k (dict_keys (User._all_users st')) ->
               In (Some k) (map User.j_user_id data) \/
               In (Some 0) (map User.j_user_id data)) /\
    User._next_id st' = User.max_id (dict_keys (User._all_users st')) + 1 /\
    (data = [] -> User._all_users st' = [] /\ User._next_id st' = 1) /\
    (forall now' name email,
       exists self st'',
         User.create now' name email st' = (Ok self, st'') /\
         User.user_id self = User._next_id st' /\
         User.find_by_id st' (User.user_id self) = None).
Proof.
  intros Hdoc Hcomplete.
  destruct (User_load_loop_complete now data Hcomplete User.initial)
    as (st' & Hrun & _ & Hadd & Hfrom).
  assert (Hload : forall st0,
             User.load_all now (d, st0) = (Ok tt, (d', st'))).
  { intros st0. rewrite User_load_all_unfold, Hdoc, User_reload_unfold, Hrun.
    reflexivity. }
  assert (Hcount : User._next_id st'
                   = User.max_id (dict_keys (User._all_users st')) + 1).
  { pose proof (User_reload_counter now data User.initial) as Hc.
    rewrite User_reload_unfold, Hrun in Hc. exact Hc. }
  exists st'. split; [exact Hload|].
  split; [exact Hadd|]. split.
  { intros k Hk. destruct (Hfrom k Hk) as [[] | Hrec]. exact Hrec. }
  split; [exact Hcount|]. split.
  - intros ->. simpl in Hrun. injection Hrun as <-. split; reflexivity.
  - intros now' name email. rewrite User_create_returns. cbv zeta.
    eexists. eexists.
    split; [reflexivity|]. simpl. split; [reflexivity|].
    unfold User.find_by_id. apply dict_get_None. intros Hin.
    apply max_id_bounds in Hin. lia.
Qed.

(** C5: a load of a document whose records are complete and carry the ids
    [ids], all of them ids a registry issues (1 or more), returns normally,
    and what it leaves does not depend on what the registry held before:
    the registered ids are exactly the loaded ids.  When no record was
    loaded the registry is empty and the counter is 1; otherwise the
    counter is the greatest loaded id plus one.  The next [create] gets the
    counter's value as its id, and that id was not in use. *)
Theorem load_all_replaces_contents_and_resets_counter
    now (d d' : FileHandler.Disk User.record)
    (data : list User.record) (ids : list Z)
    (Hdoc : FileHandler.load_data "users.json" d = (Ok data, d'))
    (Hcomplete : forallb User.complete data = true)
    (Hids : map User.j_user_id data = map Some ids)
    (Hpos : Forall (fun i => 1 <= i) ids) :
  exists st',
    (forall st0, User.load_all now (d, st0) = (Ok tt, (d', st'))) /\
    (forall k, User.find_by_id st' k <> None <-> In k ids) /\
    (forall k, In k (dict_keys (User._all_users st')) <-> In k ids) /\
    ((ids = [] /\ User._all_users st' = [] /\ User._next_id st' = 1) \/
     (exists m, In m ids /\ (forall i, In i ids -> i <= m) /\
                User._next_id st' = m + 1)) /\
    (forall now' name email,
       exists self st'',
         User.create now' name email st' = (Ok self, st'') /\
         User.user_id self = User._next_id st' /\
         User.find_by_id st' (User.user_id self) = None).
Proof.
  destruct (User_load_all_complete now d d' data Hdoc Hcomplete)
    as (st' & Hload & Hadd & Hfrom & Hcount & Hempty & Hcreate).
  rewrite Forall_forall in Hpos.
  assert (Hsome : forall k, In (Some k) (map User.j_user_id data)
                            <-> In k ids).
  { intros k. rewrite Hids, in_map_iff. split.
    - intros (i & [= ->] & Hin). exact Hin.
    - intros Hin. now exists k. }
  assert (Hkeys : forall k, In k (dict_keys (User._all_users st'))
                            <-> In k ids).
  { intros k. split.
    - intros Hk. destruct (Hfrom k Hk) as [Hrec | Hzero].
      + now apply Hsome.
      + apply Hsome, Hpos in Hzero. lia.
    - intros Hin. pose proof (Hpos k Hin) as Hk.
      apply Hsome, in_map_iff in Hin as (r & Hr & Hin).
      apply (Hadd r k Hin Hr). lia. }
  exists st'. split; [exact Hload|]. split; [|split; [exact Hkeys|split]].
  - intros k. rewrite <- Hkeys. apply dict_get_keys.
  - destruct ids as [|i0 ids'].
    + left. destruct data; [|discriminate]. now destruct (Hempty eq_refl).
    + right.
      destruct (max_id_cases (dict_keys (User._all_users st')))
        as [[_ Hall] | [Hin Hmax]].
      * rewrite Forall_forall in Hall.
        assert (Hi0 : In i0 (i0 :: ids')) by now left.
        pose proof (Hpos i0 Hi0). apply Hkeys, Hall in Hi0. lia.
      * exists (User.max_id (dict_keys (User._all_users st'))).
        split; [now apply Hkeys|]. split; [|exact Hcount].
        intros i Hi. apply Hkeys in Hi. now apply max_id_bounds.
  - exact Hcreate.
Qed.


End LoadAllUsers.

(** Witness of [load_all_replaces_contents_and_resets_counter], and its
    worked example: a registry that holds Ana alone loads records with the
    ids 3, 7 and 1; it then holds these three ids, the counter is 8, and
    the next [create] assigns id 8. *)
Lemma load_all_replaces_contents_and_resets_counter_witness :
  let doc := [Sample.user_record 3 "Cy" "cy@x.com";
              Sample.user_record 7 "Di" "di@x.com";
              Sample.user_record 1 "Bo" "bo@x.com"] in
  let d := Sample.disk_with "data/users.json" (FileHandler.Document doc) in
  exists st',
    User.load_all IsoText.noon (d, Sample.one_user) = (Ok tt, (d, st')) /\
    (forall k, User.find_by_id st' k <> None <-> In k [3; 7; 1]) /\
    User._next_id st' = 7 + 1 /\
    exists self st'',
      User.create IsoText.noon "Eve" "eve@x.com" st' = (Ok self, st'') /\
      User.user_id self = 8.
Proof.
  intros doc d.
  destruct (@load_all_replaces_contents_and_resets_counter IsoText.calendar
              IsoText.noon d d doc [3; 7; 1] eq_refl eq_refl eq_refl)
    as (st' & Hload & Hfind & _ & Hcount & Hcreate).
  { repeat constructor; lia. }
  exists st'. split; [apply Hload|]. split; [exact Hfind|].
  assert (Hnext : User._next_id st' = 7 + 1).
  { destruct Hcount as [(Hnil & _) | (m & Hin & Hmax & Hnext)];
      [discriminate|].
    assert (H7 : 7 <= m) by (apply Hmax; simpl; auto).
    simpl in Hin. lia. }
  split; [exact Hnext|].
  destruct (Hcreate IsoText.noon "Eve" "eve@x.com")
    as (self & st'' & Hc & Hid & _).
  exists self, st''. split; [exact Hc|]. rewrite Hid, Hnext. reflexivity.
Defined.

(** Ids below 1 are not ids a registry issues, and the counter does not
    follow them: after a load of the one record with id -5 the counter is 1,
    and the next [create] assigns id 1. *)
Lemma load_all_counter_with_negative_id :
  let doc := [Sample.user_record (-5) "Cy" "cy@x.com"] in
  let d := Sample.disk_with "data/users.json" (FileHandler.Document doc) in
  exists st' self st'',
    User.load_all IsoText.noon (d, User.initial) = (Ok tt, (d, st')) /\
    dict_keys (User._all_users st') = [-5] /\
    User._next_id st' = 1 /\
    User.create IsoText.noon "Eve" "eve@x.com" st' = (Ok self, st'') /\
    User.user_id self = 1.
Proof.
  intros doc d. do 3 eexists.
  split; [vm_compute; reflexivity|].
  split; [reflexivity|]. split; [reflexivity|].
  split; [vm_compute; reflexivity | reflexivity].
Qed.



(** ** Reachable registries of users are well formed *)

Section UserInvariant.
Context `{DateTimeLaws}.

Lemma User_init_eq now name email user_id created_at projects st :
  let fresh := match user_id with
               | Some z => z =? 0
               | None => true
               end in
  let id := if fresh then User._next_id st else get_default user_id 0 in
  let self := {| User.user_id := id;
                 User._name := name;
                 User._email := email;
                 User.created_at := or_str created_at (isoformat now);
                 User.projects := or_list projects |} in
  User.__init__ now name email user_id created_at projects st
  = (Ok self,
     {| User._all_users := dict_set (User._all_users st) id self;
        User._next_id := if fresh then User._next_id st + 1
                         else User._next_id st |}).
Proof.
  unfold User.__init__, or_int, User._get_next_id, User.register, bind, get,
    put, ret.
  destruct user_id as [z|]; [destruct (z =? 0) eqn:Hz|]; reflexivity.
Qed.

Lemma User_wf_register st id self next :
  User.wf st ->
  User.entry_ok (id, self) ->
  1 <= next ->
  User.wf {| User._all_users := dict_set (User._all_users st) id self;
             User._next_id := next |}.
Proof.
  intros (Hall & Hnd & _) Hok Hnext. split; [|split]; simpl.
  - now apply dict_set_Forall.
  - now apply dict_keys_set_NoDup.
  - exact Hnext.
Qed.

Lemma User_init_wf now name email user_id created_at projects st :
  User.wf st ->
  User.wf (snd (User.__init__ now name email user_id created_at projects st)).
Proof.
  intros Hwf. rewrite User_init_eq. cbv zeta. simpl snd.
  pose proof Hwf as (_ & _ & Hnext).
  apply User_wf_register; [exact Hwf | |].
  - unfold User.entry_ok. simpl. split; [reflexivity|]. split.
    + destruct user_id as [z|]; simpl; [|lia].
      destruct (Z.eqb_spec z 0); lia.
    + apply or_str_nonempty, isoformat_nonempty.
  - destruct user_id as [z|]; [destruct (z =? 0)|]; lia.
Qed.

Lemma User_from_dict_wf now data st :
  User.wf st -> User.wf (snd (User.from_dict now data st)).
Proof.
  intros Hwf. unfold User.from_dict, getitem, bind, raise, ret.
  destruct (User.j_name data); [|exact Hwf].
  destruct (User.j_email data); [|exact Hwf].
  destruct (User.j_user_id data); [|exact Hwf].
  now apply User_init_wf.
Qed.

Lemma User_load_one_wf now data st :
  User.wf st -> User.wf (snd (User.load_one now data st)).
Proof.
  intros Hwf. destruct (User.complete data) eqn:Hc.
  - rewrite (User_load_one_complete now data st Hc). cbv zeta. simpl snd.
    pose proof Hwf as (_ & _ & Hnext).
    apply User_wf_register; [exact Hwf | | lia].
    unfold User.entry_ok. simpl fst. simpl snd.
    split; [reflexivity|]. split.
    + now apply (User_built_id now data).
    + unfold User.built. simpl. apply or_str_nonempty, isoformat_nonempty.
  - destruct (User_load_one_incomplete now data st Hc) as (key & -> & _).
    exact Hwf.
Qed.

Lemma User_initial_wf : User.wf User.initial.
Proof.
  split; [constructor | split; [constructor | simpl; lia]].
Qed.

Lemma User_load_all_wf now d st :
  User.wf st -> User.wf (snd (snd (User.load_all now (d, st)))).
Proof.
  intros Hwf. rewrite User_load_all_unfold.
  destruct (FileHandler.load_data "users.json" d) as [[data|e] d'];
    [|exact Hwf].
  rewrite User_reload_unfold.
  pose proof (for_each_invariant User.wf (User.load_one now)
                (fun x s => User_load_one_wf now x s) data User.initial
                User_initial_wf) as Hloop.
  destruct (for_each data (User.load_one now) User.initial) as [r st'].
  exact Hloop.
Qed.

Lemma User_save_all_state d st : snd (snd (User.save_all (d, st))) = st.
Proof.
  unfold User.save_all, bind, on_fst, on_snd, get, ret. simpl.
  destruct (FileHandler.save_data _ _ d) as [[b|e] d']; reflexivity.
Qed.

Lemma User_call_keeps m (self : User.t) :
  User.user_id (snd (User.call m self)) = User.user_id self /\
  User.created_at (snd (User.call m self)) = User.created_at self.
Proof.
  destruct m as [value | value | project_id | project_id]; simpl;
    unfold User.set_name, User.set_email, User.add_project,
      User.remove_project, User.set_projects, bind, get, put, raise, ret.
  - destruct (negb (truthy_str value) || (len (strip value) <? 2)); auto.
  - destruct (negb (char_in "@" value) || negb (char_in "." value)); auto.
  - destruct (negb (mem project_id (User.projects self))); auto.
  - destruct (mem project_id (User.projects self)); auto.
Qed.

Lemma User_step_wf st st' : User.step st st' -> User.wf st -> User.wf st'.
Proof.
  intros Hstep Hwf. destruct Hstep.
  - now apply User_init_wf.
  - now apply User_init_wf.
  - now apply User_from_dict_wf.
  - pose proof Hwf as (Hall & _ & Hnext).
    apply User_wf_register; [exact Hwf | | exact Hnext].
    match goal with Hf : User.find_by_id _ _ = Some _ |- _ =>
      apply dict_get_In in Hf; rewrite Forall_forall in Hall;
      specialize (Hall _ Hf) end.
    destruct (User_call_keeps m self) as (Hid & Hcreated).
    unfold User.entry_ok in *. simpl in *. now rewrite Hid, Hcreated.
  - now apply User_load_all_wf.
  - now rewrite User_save_all_state.
Qed.

Lemma User_reachable_wf st : User.reachable st -> User.wf st.
Proof.
  induction 1 as [|st st' _ IH Hstep].
  - apply User_initial_wf.
  - exact (User_step_wf st st' Hstep IH).
Qed.

(** *** Saving and loading users *)

Lemma User_load_one_to_dict now k (u : User.t) st :
  User.entry_ok (k, u) ->
  User.load_one now (User.to_dict u) st
  = (Ok tt,
     {| User._all_users := dict_set (User._all_users st) k u;
        User._next_id := Z.max (User._next_id st) (k + 1) |}).
Proof.
  intros (Hid & Hne & Hcreated). simpl in Hid, Hne, Hcreated.
  rewrite User_load_one_complete by reflexivity. cbv zeta.
  assert (Hbuilt : User.built now (User.to_dict u) (User._next_id st) = u).
  { unfold User.built, User.to_dict.
    cbn [User.j_user_id User.j_name User.j_email User.j_created_at
         User.j_projects get_default].
    rewrite Hid, (or_str_Some _ _ Hcreated).
    destruct (Z.eqb_spec k 0); [contradiction|].
    destruct u; simpl in *; now subst. }
  now rewrite Hbuilt, Hid.
Qed.

Lemma User_loop_roundtrip now (entries : dict User.t) :
  forall acc next,
    Forall User.entry_ok entries ->
    NoDup (dict_keys (acc ++ entries)) ->
    exists next',
      for_each (map User.to_dict (dict_values entries)) (User.load_one now)
               {| User._all_users := acc; User._next_id := next |}
      = (Ok tt, {| User._all_users := acc ++ entries;
                   User._next_id := next' |}).
Proof.
  induction entries as [|[k u] entries IH]; intros acc next Hok Hnd.
  - exists next. simpl. now rewrite app_nil_r.
  - inversion Hok as [|? ? Hku Hrest]; subst.
    simpl. unfold bind. rewrite (User_load_one_to_dict now k u _ Hku).
    simpl User._all_users. simpl User._next_id.
    assert (Hfresh : ~ In k (dict_keys acc)).
    { unfold dict_keys in *. rewrite map_app in Hnd. simpl in Hnd.
      apply NoDup_remove_2 in Hnd. intros Hin. apply Hnd.
      apply in_or_app. now left. }
    rewrite (dict_set_fresh _ _ _ Hfresh).
    destruct (IH (acc ++ [(k, u)]) (Z.max next (k + 1)) Hrest)
      as (next' & Hrun).
    { now rewrite <- app_assoc. }
    exists next'. rewrite Hrun. now rewrite <- app_assoc.
Qed.

Lemma User_save_all_unfold d st :
  User.save_all (d, st)
  = match FileHandler.save_data "users.json"
            (map User.to_dict (dict_values (User._all_users st))) d with
    | (Ok _, d') => (Ok tt, (d', st))
    | (Raise e, d') => (Raise e, (d', st))
    end.
Proof.
  unfold User.save_all, bind, on_fst, on_snd, get, ret. simpl.
  destruct (FileHandler.save_data _ _ d) as [[b|e] d']; reflexivity.
Qed.

(** Saving the users and loading them again, whatever the registry holds
    when the load starts, gives back the registry that was saved. *)
Lemma User_roundtrip now d st :
  User.wf st ->
  FileHandler.can_save d "users.json" ->
  exists d' st',
    User.save_all (d, st) = (Ok tt, (d', st)) /\
    (forall st0, User.load_all now (d', st0) = (Ok tt, (d', st'))) /\
    User._all_users st' = User._all_users st.
Proof.
  intros (Hall & Hnd & _) (Hdir & Hw).
  destruct (save_data_then_load_data "users.json"
              (map User.to_dict (dict_values (User._all_users st))) d Hdir Hw)
    as (d' & Hsave & Hload).
  destruct (User_loop_roundtrip now (User._all_users st) [] 1 Hall Hnd)
    as (next' & Hrun).
  exists d', {| User._all_users := User._all_users st;
                User._next_id := next' |}.
  split; [|split].
  - now rewrite User_save_all_unfold, Hsave.
  - intros st0. rewrite User_load_all_unfold, Hload, User_reload_unfold.
    unfold User.initial. now rewrite Hrun.
  - reflexivity.
Qed.

End UserInvariant.

(** ** Reachable registries of tasks are well formed *)

Section TaskInvariant.
Context `{DateTimeLaws}.

Lemma Task_init_eq now title description project_id task_id status
    assigned_users created_at st :
  let fresh := match task_id with
               | Some z => z =? 0
               | None => true
               end in
  let id := if fresh then Task._next_id st else get_default task_id 0 in
  let next := if fresh then Task._next_id st + 1 else Task._next_id st in
  let self := {| Task.task_id := id;
                 Task._title := title;
                 Task._description := description;
                 Task._status := status;
                 Task.project_id := project_id;
                 Task.assigned_users := or_list assigned_users;
                 Task.created_at := or_str created_at (isoformat now) |} in
  Task.__init__ now title description project_id task_id status
                assigned_users created_at st
  = if Task.str_in status Task.VALID_STATUSES
    then (Ok self,
          {| Task._all_tasks := dict_set (Task._all_tasks st) id self;
             Task._next_id := next |})
    else (Raise Task.invalid_status,
          {| Task._all_tasks := Task._all_tasks st; Task._next_id := next |}).
Proof.
  unfold Task.__init__, or_int, Task._get_next_id, Task.register, bind, get,
    put, ret, raise.
  destruct task_id as [z|]; [destruct (z =? 0) eqn:Hz|];
    cbn [Task._status get_default];
    destruct (Task.str_in status Task.VALID_STATUSES); try reflexivity.
  destruct st; reflexivity.
Qed.

Lemma Task_wf_register st id self next :
  Task.wf st ->
  Task.entry_ok (id, self) ->
  1 <= next ->
  Task.wf {| Task._all_tasks := dict_set (Task._all_tasks st) id self;
             Task._next_id := next |}.
Proof.
  intros (Hall & Hnd & _) Hok Hnext. split; [|split]; simpl.
  - now apply dict_set_Forall.
  - now apply dict_keys_set_NoDup.
  - exact Hnext.
Qed.

Lemma Task_wf_counter st next :
  Task.wf st ->
  1 <= next ->
  Task.wf {| Task._all_tasks := Task._all_tasks st; Task._next_id := next |}.
Proof. intros (Hall & Hnd & _) Hnext. now repeat split. Qed.

(** The constructor keeps the registry well formed, whether it returns or
    raises, and what it returns is fit to be registered under its id. *)
Lemma Task_init_spec now title description project_id task_id status
    assigned_users created_at st :
  Task.wf st ->
  match Task.__init__ now title description project_id task_id status
                      assigned_users created_at st with
  | (Ok self, st') => Task.wf st' /\ Task.entry_ok (Task.task_id self, self)
  | (Raise _, st') => Task.wf st'
  end.
Proof.
  intros Hwf. rewrite Task_init_eq. cbv zeta.
  pose proof Hwf as (_ & _ & Hnext).
  assert (Hnext' : 1 <= (if match task_id with
                            | Some z => z =? 0
                            | None => true
                            end
                         then Task._next_id st + 1 else Task._next_id st)).
  { destruct task_id as [z|]; [destruct (z =? 0)|]; lia. }
  destruct (Task.str_in status Task.VALID_STATUSES) eqn:Hstatus.
  - assert (Hok : Task.entry_ok
                    (if match task_id with
                        | Some z => z =? 0
                        | None => true
                        end
                     then Task._next_id st else get_default task_id 0,
                     {| Task.task_id :=
                          if match task_id with
                             | Some z => z =? 0
                             | None => true
                             end
                          then Task._next_id st else get_default task_id 0;
                        Task._title := title;
                        Task._description := description;
                        Task._status := status;
                        Task.project_id := project_id;
                        Task.assigned_users := or_list assigned_users;
                        Task.created_at := or_str created_at (isoformat now) |})).
    { unfold Task.entry_ok. simpl. split; [reflexivity|]. split; [|split].
      - destruct task_id as [z|]; simpl; [|lia].
        destruct (Z.eqb_spec z 0); lia.
      - apply or_str_nonempty, isoformat_nonempty.
      - exact Hstatus. }
    split; [|exact Hok]. now apply Task_wf_register.
  - now apply Task_wf_counter.
Qed.

Lemma Task_init_wf now title description project_id task_id status
    assigned_users created_at st :
  Task.wf st ->
  Task.wf (snd (Task.__init__ now title description project_id task_id
                              status assigned_users created_at st)).
Proof.
  intros Hwf.
  pose proof (Task_init_spec now title description project_id task_id status
                assigned_users created_at st Hwf) as Hspec.
  destruct (Task.__init__ _ _ _ _ _ _ _ _ _) as [[self|e] st']; simpl; tauto.
Qed.

Lemma Task_from_dict_spec now data st :
  Task.wf st ->
  match Task.from_dict now data st with
  | (Ok self, st') => Task.wf st' /\ Task.entry_ok (Task.task_id self, self)
  | (Raise _, st') => Task.wf st'
  end.
Proof.
  intros Hwf. unfold Task.from_dict, getitem, bind, raise, ret.
  destruct (Task.j_title data); [|exact Hwf].
  destruct (Task.j_description data); [|exact Hwf].
  destruct (Task.j_project_id data); [|exact Hwf].
  destruct (Task.j_task_id data); [|exact Hwf].
  now apply Task_init_spec.
Qed.

Lemma Task_load_one_wf now data st :
  Task.wf st -> Task.wf (snd (Task.load_one now data st)).
Proof.
  intros Hwf. pose proof (Task_from_dict_spec now data st Hwf) as Hspec.
  unfold Task.load_one, bind.
  destruct (Task.from_dict now data st) as [[self|e] st1]; [|exact Hspec].
  destruct Hspec as (Hwf1 & Hok). pose proof Hwf1 as (_ & _ & Hnext).
  unfold Task.register, bind, get, put, ret. simpl.
  rewrite Z.geb_leb.
  destruct (Z.leb_spec (Task._next_id st1) (Task.task_id self)); simpl.
  - apply Task_wf_register; [exact Hwf1 | exact Hok | lia].
  - now apply Task_wf_register.
Qed.

Lemma Task_initial_wf : Task.wf Task.initial.
Proof.
  split; [constructor | split; [constructor | simpl; lia]].
Qed.

Lemma Task_load_all_unfold now d st :
  Task.load_all now (d, st)
  = match FileHandler.load_data "tasks.json" d with
    | (Ok data, d') =>
        let (r, st') := for_each data (Task.load_one now) Task.initial in
        (r, (d', st'))
    | (Raise e, d') => (Raise e, (d', st))
    end.
Proof.
  unfold Task.load_all, bind, on_fst, on_snd. simpl.
  destruct (FileHandler.load_data "tasks.json" d) as [[data|e] d'];
    reflexivity.
Qed.

Lemma Task_load_all_wf now d st :
  Task.wf st -> Task.wf (snd (snd (Task.load_all now (d, st)))).
Proof.
  intros Hwf. rewrite Task_load_all_unfold.
  destruct (FileHandler.load_data "tasks.json" d) as [[data|e] d'];
    [|exact Hwf].
  pose proof (for_each_invariant Task.wf (Task.load_one now)
                (fun x s => Task_load_one_wf now x s) data Task.initial
                Task_initial_wf) as Hloop.
  destruct (for_each data (Task.load_one now) Task.initial) as [r st'].
  exact Hloop.
Qed.

Lemma Task_save_all_unfold d st :
  Task.save_all (d, st)
  = match FileHandler.save_data "tasks.json"
            (map Task.to_dict (dict_values (Task._all_tasks st))) d with
    | (Ok _, d') => (Ok tt, (d', st))
    | (Raise e, d') => (Raise e, (d', st))
    end.
Proof.
  unfold Task.save_all, bind, on_fst, on_snd, get, ret. simpl.
  destruct (FileHandler.save_data _ _ d) as [[b|e] d']; reflexivity.
Qed.

Lemma Task_save_all_state d st : snd (snd (Task.save_all (d, st))) = st.
Proof.
  rewrite Task_save_all_unfold.
  destruct (FileHandler.save_data _ _ d) as [[b|e] d']; reflexivity.
Qed.

(** No method changes the id or the creation stamp, and none leaves an
    invalid status behind. *)
Lemma Task_call_keeps m (self : Task.t) :
  Task.task_id (snd (Task.call m self)) = Task.task_id self /\
  Task.created_at (snd (Task.call m self)) = Task.created_at self /\
  (Task.str_in (Task._status self) Task.VALID_STATUSES = true ->
   Task.str_in (Task._status (snd (Task.call m self))) Task.VALID_STATUSES
   = true).
Proof.
  destruct m as [value | value | value | | user_id | user_id]; simpl;
    unfold Task.mark_complete, Task.set_title, Task.set_description,
      Task.set_status, Task.assign_user, Task.unassign_user,
      Task.set_assigned_users, bind, get, put, raise, ret.
  - destruct (negb (truthy_str value) || negb (truthy_str (strip value)));
      auto.
  - auto.
  - destruct (Task.str_in value Task.VALID_STATUSES) eqn:Hv; simpl; auto.
  - simpl. auto.
  - destruct (negb (mem user_id (Task.assigned_users self))); auto.
  - destruct (mem user_id (Task.assigned_users self)); auto.
Qed.

Lemma Task_step_wf st st' : Task.step st st' -> Task.wf st -> Task.wf st'.
Proof.
  intros Hstep Hwf. destruct Hstep.
  - now apply Task_init_wf.
  - now apply Task_init_wf.
  - pose proof (Task_from_dict_spec now data st Hwf) as Hspec.
    destruct (Task.from_dict now data st) as [[self|e] st1]; simpl; tauto.
  - pose proof Hwf as (Hall & _ & Hnext).
    apply Task_wf_register; [exact Hwf | | exact Hnext].
    match goal with Hf : Task.find_by_id _ _ = Some _ |- _ =>
      apply dict_get_In in Hf; rewrite Forall_forall in Hall;
      specialize (Hall _ Hf) end.
    destruct (Task_call_keeps m self) as (Hid & Hcreated & Hstatus).
    unfold Task.entry_ok in *. simpl in *. rewrite Hid, Hcreated.
    tauto.
  - now apply Task_load_all_wf.
  - now rewrite Task_save_all_state.
Qed.

Lemma Task_reachable_wf st : Task.reachable st -> Task.wf st.
Proof.
  induction 1 as [|st st' _ IH Hstep].
  - apply Task_initial_wf.
  - exact (Task_step_wf st st' Hstep IH).
Qed.

(** *** Saving and loading tasks *)

Lemma Task_load_one_to_dict now k (u : Task.t) st :
  Task.entry_ok (k, u) ->
  Task.load_one now (Task.to_dict u) st
  = (Ok tt,
     {| Task._all_tasks := dict_set (Task._all_tasks st) k u;
        Task._next_id := Z.max (Task._next_id st) (k + 1) |}).
Proof.
  intros (Hid & Hne & Hcreated & Hstatus).
  cbn [fst snd] in Hid, Hne, Hcreated, Hstatus.
  unfold Task.load_one, Task.from_dict, Task.to_dict, getitem, bind.
  cbn [Task.j_title Task.j_description Task.j_project_id Task.j_task_id
       Task.j_status Task.j_assigned_users Task.j_created_at get_default ret].
  rewrite Task_init_eq. cbv zeta. rewrite Hstatus, Hid.
  destruct (Z.eqb_spec k 0) as [|_]; [contradiction|].
  cbn [get_default or_list]. rewrite (or_str_Some _ _ Hcreated).
  assert (Hself : {| Task.task_id := k;
                     Task._title := Task._title u;
                     Task._description := Task._description u;
                     Task._status := Task._status u;
                     Task.project_id := Task.project_id u;
                     Task.assigned_users := Task.assigned_users u;
                     Task.created_at := Task.created_at u |} = u).
  { destruct u; simpl in *; now subst. }
  rewrite Hself, Hid.
  unfold Task.register, bind, get, put, ret.
  cbn [Task._all_tasks Task._next_id]. rewrite dict_set_idem, Z.geb_leb.
  destruct (Z.leb_spec (Task._next_id st) k); do 2 f_equal; lia.
Qed.

Lemma Task_loop_roundtrip now (entries : dict Task.t) :
  forall acc next,
    Forall Task.entry_ok entries ->
    NoDup (dict_keys (acc ++ entries)) ->
    exists next',
      for_each (map Task.to_dict (dict_values entries)) (Task.load_one now)
               {| Task._all_tasks := acc; Task._next_id := next |}
      = (Ok tt, {| Task._all_tasks := acc ++ entries;
                   Task._next_id := next' |}).
Proof.
  induction entries as [|[k u] entries IH]; intros acc next Hok Hnd.
  - exists next. simpl. now rewrite app_nil_r.
  - inversion Hok as [|? ? Hku Hrest]; subst.
    simpl. unfold bind. rewrite (Task_load_one_to_dict now k u _ Hku).
    simpl Task._all_tasks. simpl Task._next_id.
    assert (Hfresh : ~ In k (dict_keys acc)).
    { unfold dict_keys in *. rewrite map_app in Hnd. simpl in Hnd.
      apply NoDup_remove_2 in Hnd. intros Hin. apply Hnd.
      apply in_or_app. now left. }
    rewrite (dict_set_fresh _ _ _ Hfresh).
    destruct (IH (acc ++ [(k, u)]) (Z.max next (k + 1)) Hrest)
      as (next' & Hrun).
    { now rewrite <- app_assoc. }
    exists next'. rewrite Hrun. now rewrite <- app_assoc.
Qed.

(** Saving the tasks and loading them again, whatever the registry holds
    when the load starts, gives back the registry that was saved. *)
Lemma Task_roundtrip now d st :
  Task.wf st ->
  FileHandler.can_save d "tasks.json" ->
  exists d' st',
    Task.save_all (d, st) = (Ok tt, (d', st)) /\
    (forall st0, Task.load_all now (d', st0) = (Ok tt, (d', st'))) /\
    Task._all_tasks st' = Task._all_tasks st.
Proof.
  intros (Hall & Hnd & _) (Hdir & Hw).
  destruct (save_data_then_load_data "tasks.json"
              (map Task.to_dict (dict_values (Task._all_tasks st))) d Hdir Hw)
    as (d' & Hsave & Hload).
  destruct (Task_loop_roundtrip now (Task._all_tasks st) [] 1 Hall Hnd)
    as (next' & Hrun).
  exists d', {| Task._all_tasks := Task._all_tasks st;
                Task._next_id := next' |}.
  split; [|split].
  - now rewrite Task_save_all_unfold, Hsave.
  - intros st0. rewrite Task_load_all_unfold, Hload.
    unfold Task.initial. now rewrite Hrun.
  - reflexivity.
Qed.

End TaskInvariant.

(** ** Reachable registries of projects are well formed *)

Section ProjectInvariant.
Context `{DateTimeLaws}.

Lemma Project_init_eq now title description due_date user_id project_id
    tasks created_at st :
  let fresh := match project_id with
               | Some z => z =? 0
               | None => true
               end in
  let id := if fresh then Project._next_id st else get_default project_id 0 in
  let next := if fresh then Project._next_id st + 1 else Project._next_id st in
  let self due := {| Project.project_id := id;
                     Project._title := title;
                     Project._description := description;
                     Project._due_date := due;
                     Project.user_id := user_id;
                     Project.tasks := or_list tasks;
                     Project.created_at := or_str created_at (isoformat now) |} in
  let built due :=
    (Ok (self due),
     {| Project._all_projects :=
          dict_set (Project._all_projects st) id (self due);
        Project._next_id := next |}) in
  Project.__init__ now title description due_date user_id project_id tasks
                   created_at st
  = match due_date with
    | inl s =>
        match parse s with
        | Some due => built due
        | None =>
            (Raise (parse_error s),
             {| Project._all_projects := Project._all_projects st;
                Project._next_id := next |})
        end
    | inr d => built d
    end.
Proof.
  unfold Project.__init__, Project.parser_parse, or_int,
    Project._get_next_id, Project.register, bind, get, put, ret, raise.
  destruct project_id as [z|]; [destruct (z =? 0) eqn:Hz|];
    destruct due_date as [s|d]; cbn [get_default];
    try destruct (parse s); try reflexivity;
    destruct st; reflexivity.
Qed.

Lemma Project_wf_register st id self next :
  Project.wf st ->
  Project.entry_ok (id, self) ->
  1 <= next ->
  Project.wf
    {| Project._all_projects := dict_set (Project._all_projects st) id self;
       Project._next_id := next |}.
Proof.
  intros (Hall & Hnd & _) Hok Hnext. split; [|split]; simpl.
  - now apply dict_set_Forall.
  - now apply dict_keys_set_NoDup.
  - exact Hnext.
Qed.

Lemma Project_wf_counter st next :
  Project.wf st ->
  1 <= next ->
  Project.wf {| Project._all_projects := Project._all_projects st;
                Project._next_id := next |}.
Proof. intros (Hall & Hnd & _) Hnext. now repeat split. Qed.

(** The constructor keeps the registry well formed, whether it returns or
    raises, and what it returns is fit to be registered under its id. *)
Lemma Project_init_spec now title description due_date user_id project_id
    tasks created_at st :
  Project.wf st ->
  match Project.__init__ now title description due_date user_id project_id
                         tasks created_at st with
  | (Ok self, st') =>
      Project.wf st' /\ Project.entry_ok (Project.project_id self, self)
  | (Raise _, st') => Project.wf st'
  end.
Proof.
  intros Hwf. rewrite Project_init_eq. cbv zeta.
  pose proof Hwf as (_ & _ & Hnext).
  assert (Hnext' : 1 <= (if match project_id with
                            | Some z => z =? 0
                            | None => true
                            end
                         then Project._next_id st + 1
                         else Project._next_id st)).
  { destruct project_id as [z|]; [destruct (z =? 0)|]; lia. }
  assert (Hbuilt : forall due,
            let self :=
              {| Project.project_id :=
                   if match project_id with
                      | Some z => z =? 0
                      | None => true
                      end
                   then Project._next_id st
                   else get_default project_id 0;
                 Project._title := title;
                 Project._description := description;
                 Project._due_date := due;
                 Project.user_id := user_id;
                 Project.tasks := or_list tasks;
                 Project.created_at := or_str created_at (isoformat now) |} in
            Project.entry_ok (Project.project_id self, self)).
  { intros due. unfold Project.entry_ok. simpl. split; [reflexivity|]. split.
    - destruct project_id as [z|]; simpl; [|lia].
      destruct (Z.eqb_spec z 0); lia.
    - apply or_str_nonempty, isoformat_nonempty. }
  destruct due_date as [s|d]; [destruct (parse s) as [due|]|].
  - split; [|exact (Hbuilt due)].
    apply Project_wf_register; [exact Hwf | exact (Hbuilt due) | exact Hnext'].
  - now apply Project_wf_counter.
  - split; [|exact (Hbuilt d)].
    apply Project_wf_register; [exact Hwf | exact (Hbuilt d) | exact Hnext'].
Qed.

Lemma Project_init_wf now title description due_date user_id project_id
    tasks created_at st :
  Project.wf st ->
  Project.wf (snd (Project.__init__ now title description due_date user_id
                                    project_id tasks created_at st)).
Proof.
  intros Hwf.
  pose proof (Project_init_spec now title description due_date user_id
                project_id tasks created_at st Hwf) as Hspec.
  destruct (Project.__init__ _ _ _ _ _ _ _ _ _) as [[self|e] st']; simpl;
    tauto.
Qed.

Lemma Project_from_dict_spec now data st :
  Project.wf st ->
  match Project.from_dict now data st with
  | (Ok self, st') =>
      Project.wf st' /\ Project.entry_ok (Project.project_id self, self)
  | (Raise _, st') => Project.wf st'
  end.
Proof.
  intros Hwf. unfold Project.from_dict, getitem, bind, raise, ret.
  destruct (Project.j_title data); [|exact Hwf].
  destruct (Project.j_description data); [|exact Hwf].
  destruct (Project.j_due_date data); [|exact Hwf].
  destruct (Project.j_user_id data); [|exact Hwf].
  destruct (Project.j_project_id data); [|exact Hwf].
  now apply Project_init_spec.
Qed.

Lemma Project_load_one_wf now data st :
  Project.wf st -> Project.wf (snd (Project.load_one now data st)).
Proof.
  intros Hwf. pose proof (Project_from_dict_spec now data st Hwf) as Hspec.
  unfold Project.load_one, bind.
  destruct (Project.from_dict now data st) as [[self|e] st1]; [|exact Hspec].
  destruct Hspec as (Hwf1 & Hok). pose proof Hwf1 as (_ & _ & Hnext).
  unfold Project.register, bind, get, put, ret. simpl.
  rewrite Z.geb_leb.
  destruct (Z.leb_spec (Project._next_id st1) (Project.project_id self));
    simpl.
  - apply Project_wf_register; [exact Hwf1 | exact Hok | lia].
  - now apply Project_wf_register.
Qed.

Lemma Project_initial_wf : Project.wf Project.initial.
Proof.
  split; [constructor | split; [constructor | simpl; lia]].
Qed.

Lemma Project_load_all_unfold now d st :
  Project.load_all now (d, st)
  = match FileHandler.load_data "projects.json" d with
    | (Ok data, d') =>
        let (r, st') :=
          for_each data (Project.load_one now) Project.initial in
        (r, (d', st'))
    | (Raise e, d') => (Raise e, (d', st))
    end.
Proof.
  unfold Project.load_all, bind, on_fst, on_snd. simpl.
  destruct (FileHandler.load_data "projects.json" d) as [[data|e] d'];
    reflexivity.
Qed.

Lemma Project_load_all_wf now d st :
  Project.wf st -> Project.wf (snd (snd (Project.load_all now (d, st)))).
Proof.
  intros Hwf. rewrite Project_load_all_unfold.
  destruct (FileHandler.load_data "projects.json" d) as [[data|e] d'];
    [|exact Hwf].
  pose proof (for_each_invariant Project.wf (Project.load_one now)
                (fun x s => Project_load_one_wf now x s) data Project.initial
                Project_initial_wf) as Hloop.
  destruct (for_each data (Project.load_one now) Project.initial) as [r st'].
  exact Hloop.
Qed.

Lemma Project_save_all_unfold d st :
  Project.save_all (d, st)
  = match FileHandler.save_data "projects.json"
            (map Project.to_dict (dict_values (Project._all_projects st)))
            d with
    | (Ok _, d') => (Ok tt, (d', st))
    | (Raise e, d') => (Raise e, (d', st))
    end.
Proof.
  unfold Project.save_all, bind, on_fst, on_snd, get, ret. simpl.
  destruct (FileHandler.save_data _ _ d) as [[b|e] d']; reflexivity.
Qed.

Lemma Project_save_all_state d st : snd (snd (Project.save_all (d, st))) = st.
Proof.
  rewrite Project_save_all_unfold.
  destruct (FileHandler.save_data _ _ d) as [[b|e] d']; reflexivity.
Qed.

(** No method changes the id or the creation stamp. *)
Lemma Project_call_keeps m (self : Project.t) :
  Project.project_id (snd (Project.call m self)) = Project.project_id self /\
  Project.created_at (snd (Project.call m self)) = Project.created_at self.
Proof.
  destruct m as [value | value | value | task_id | task_id]; simpl;
    unfold Project.set_title, Project.set_description, Project.set_due_date,
      Project.add_task, Project.remove_task, Project.set_tasks, bind, get,
      put, raise, ret.
  - destruct (negb (truthy_str value) || negb (truthy_str (strip value)));
      auto.
  - auto.
  - destruct (parse value); [|destruct (is_ValueError _)]; auto.
  - destruct (negb (mem task_id (Project.tasks self))); auto.
  - destruct (mem task_id (Project.tasks self)); auto.
Qed.

Lemma Project_step_wf st st' :
  Project.step st st' -> Project.wf st -> Project.wf st'.
Proof.
  intros Hstep Hwf. destruct Hstep.
  - now apply Project_init_wf.
  - now apply Project_init_wf.
  - pose proof (Project_from_dict_spec now data st Hwf) as Hspec.
    destruct (Project.from_dict now data st) as [[self|e] st1]; simpl; tauto.
  - pose proof Hwf as (Hall & _ & Hnext).
    apply Project_wf_register; [exact Hwf | | exact Hnext].
    match goal with Hf : Project.find_by_id _ _ = Some _ |- _ =>
      apply dict_get_In in Hf; rewrite Forall_forall in Hall;
      specialize (Hall _ Hf) end.
    destruct (Project_call_keeps m self) as (Hid & Hcreated).
    unfold Project.entry_ok in *. simpl in *. now rewrite Hid, Hcreated.
  - now apply Project_load_all_wf.
  - now rewrite Project_save_all_state.
Qed.

Lemma Project_reachable_wf st : Project.reachable st -> Project.wf st.
Proof.
  induction 1 as [|st st' _ IH Hstep].
  - apply Project_initial_wf.
  - exact (Project_step_wf st st' Hstep IH).
Qed.

(** *** Saving and loading projects *)

Lemma Project_load_one_to_dict now k (u : Project.t) st :
  Project.entry_ok (k, u) ->
  reads_back (Project.due_date u) ->
  Project.load_one now (Project.to_dict u) st
  = (Ok tt,
     {| Project._all_projects := dict_set (Project._all_projects st) k u;
        Project._next_id := Z.max (Project._next_id st) (k + 1) |}).
Proof.
  intros (Hid & Hne & Hcreated) Hback.
  cbn [fst snd] in Hid, Hne, Hcreated.
  unfold reads_back, Project.due_date in Hback.
  unfold Project.load_one, Project.from_dict, Project.to_dict, getitem, bind.
  cbn [Project.j_title Project.j_description Project.j_project_id
       Project.j_due_date Project.j_user_id Project.j_tasks
       Project.j_created_at get_default ret].
  rewrite Project_init_eq. cbv zeta. rewrite Hback, Hid.
  destruct (Z.eqb_spec k 0) as [|_]; [contradiction|].
  cbn [get_default or_list]. rewrite (or_str_Some _ _ Hcreated).
  assert (Hself : {| Project.project_id := k;
                     Project._title := Project._title u;
                     Project._description := Project._description u;
                     Project._due_date := Project._due_date u;
                     Project.user_id := Project.user_id u;
                     Project.tasks := Project.tasks u;
                     Project.created_at := Project.created_at u |} = u).
  { destruct u; simpl in *; now subst. }
  rewrite Hself, Hid.
  unfold Project.register, bind, get, put, ret.
  cbn [Project._all_projects Project._next_id].
  rewrite dict_set_idem, Z.geb_leb.
  destruct (Z.leb_spec (Project._next_id st) k); do 2 f_equal; lia.
Qed.

Lemma Project_loop_roundtrip now (entries : dict Project.t) :
  forall acc next,
    Forall Project.entry_ok entries ->
    Forall (fun e => reads_back (Project.due_date (snd e))) entries ->
    NoDup (dict_keys (acc ++ entries)) ->
    exists next',
      for_each (map Project.to_dict (dict_values entries))
               (Project.load_one now)
               {| Project._all_projects := acc; Project._next_id := next |}
      = (Ok tt, {| Project._all_projects := acc ++ entries;
                   Project._next_id := next' |}).
Proof.
  induction entries as [|[k u] entries IH]; intros acc next Hok Hback Hnd.
  - exists next. simpl. now rewrite app_nil_r.
  - inversion Hok as [|? ? Hku Hrest]; subst.
    inversion Hback as [|? ? Hbu Hbrest]; subst.
    simpl. unfold bind. rewrite (Project_load_one_to_dict now k u _ Hku Hbu).
    simpl Project._all_projects. simpl Project._next_id.
    assert (Hfresh : ~ In k (dict_keys acc)).
    { unfold dict_keys in *. rewrite map_app in Hnd. simpl in Hnd.
      apply NoDup_remove_2 in Hnd. intros Hin. apply Hnd.
      apply in_or_app. now left. }
    rewrite (dict_set_fresh _ _ _ Hfresh).
    destruct (IH (acc ++ [(k, u)]) (Z.max next (k + 1)) Hrest Hbrest)
      as (next' & Hrun).
    { now rewrite <- app_assoc. }
    exists next'. rewrite Hrun. now rewrite <- app_assoc.
Qed.

(** Saving the projects and loading them again, whatever the registry
    holds when the load starts, gives back the registry that was saved,
    provided the parser reads back the due dates that were written. *)
Lemma Project_roundtrip now d st :
  Project.wf st ->
  FileHandler.can_save d "projects.json" ->
  (forall id project,
     Project.find_by_id st id = Some project ->
     reads_back (Project.due_date project)) ->
  exists d' st',
    Project.save_all (d, st) = (Ok tt, (d', st)) /\
    (forall st0, Project.load_all now (d', st0) = (Ok tt, (d', st'))) /\
    Project._all_projects st' = Project._all_projects st.
Proof.
  intros (Hall & Hnd & _) (Hdir & Hw) Hback.
  destruct (save_data_then_load_data "projects.json"
              (map Project.to_dict (dict_values (Project._all_projects st)))
              d Hdir Hw)
    as (d' & Hsave & Hload).
  assert (Hback' : Forall (fun e => reads_back (Project.due_date (snd e)))
                     (Project._all_projects st)).
  { apply Forall_forall. intros [k u] Hin. simpl.
    apply (Hback k). unfold Project.find_by_id.
    now apply dict_In_get. }
  destruct (Project_loop_roundtrip now (Project._all_projects st) [] 1
              Hall Hback' Hnd)
    as (next' & Hrun).
  exists d', {| Project._all_projects := Project._all_projects st;
                Project._next_id := next' |}.
  split; [|split].
  - now rewrite Project_save_all_unfold, Hsave.
  - intros st0. rewrite Project_load_all_unfold, Hload.
    unfold Project.initial. now rewrite Hrun.
  - reflexivity.
Qed.

(** What the loop of [load_all] does with a saved entry, whether or not
    the parser reads the due date back: it raises what the parser raised,
    or it registers the entry with the date the parser read. *)
Lemma Project_load_one_saved now k (u : Project.t) st :
  Project.entry_ok (k, u) ->
  Project.load_one now (Project.to_dict u) st
  = match parse (isoformat (Project.due_date u)) with
    | Some due =>
        (Ok tt,
         {| Project._all_projects :=
              dict_set (Project._all_projects st) k
                {| Project.project_id := k;
                   Project._title := Project._title u;
                   Project._description := Project._description u;
                   Project._due_date := due;
                   Project.user_id := Project.user_id u;
                   Project.tasks := Project.tasks u;
                   Project.created_at := Project.created_at u |};
            Project._next_id := Z.max (Project._next_id st) (k + 1) |})
    | None => (Raise (parse_error (isoformat (Project.due_date u))), st)
    end.
Proof.
  intros (Hid & Hne & Hcreated).
  cbn [fst snd] in Hid, Hne, Hcreated.
  unfold Project.load_one, Project.from_dict, Project.to_dict, getitem, bind,
    Project.due_date.
  cbn [Project.j_title Project.j_description Project.j_project_id
       Project.j_due_date Project.j_user_id Project.j_tasks
       Project.j_created_at get_default ret].
  rewrite Project_init_eq. cbv zeta. rewrite Hid.
  destruct (Z.eqb_spec k 0) as [|_]; [contradiction|].
  destruct (parse (isoformat (Project._due_date u))) as [due|].
  - cbn [get_default or_list]. rewrite (or_str_Some _ _ Hcreated).
    unfold Project.register, bind, get, put, ret.
    cbn [Project._all_projects Project._next_id Project.project_id].
    rewrite dict_set_idem, Z.geb_leb.
    destruct (Z.leb_spec (Project._next_id st) k); do 2 f_equal; lia.
  - destruct st; reflexivity.
Qed.

Lemma Project_loop_saved now (entries : dict Project.t) :
  forall acc next st',
    Forall Project.entry_ok entries ->
    NoDup (dict_keys (acc ++ entries)) ->
    for_each (map Project.to_dict (dict_values entries))
             (Project.load_one now)
             {| Project._all_projects := acc; Project._next_id := next |}
    = (Ok tt, st') ->
    exists entries',
      Project._all_projects st' = acc ++ entries' /\
      Forall2 (fun e e' =>
                 parse (isoformat (Project.due_date (snd e)))
                 = Some (Project.due_date (snd e')))
              entries entries'.
Proof.
  induction entries as [|[k u] entries IH]; intros acc next st' Hok Hnd Hrun.
  - simpl in Hrun. injection Hrun as <-. exists []. simpl.
    split; [now rewrite app_nil_r | constructor].
  - inversion Hok as [|? ? Hku Hrest]; subst.
    simpl in Hrun. unfold bind in Hrun.
    rewrite (Project_load_one_saved now k u _ Hku) in Hrun.
    destruct (parse (isoformat (Project.due_date u))) as [due|] eqn:Hparse;
      [|discriminate].
    cbn [Project._all_projects Project._next_id] in Hrun.
    assert (Hfresh : ~ In k (dict_keys acc)).
    { unfold dict_keys in *. rewrite map_app in Hnd. simpl in Hnd.
      apply NoDup_remove_2 in Hnd. intros Hin. apply Hnd.
      apply in_or_app. now left. }
    rewrite (dict_set_fresh _ _ _ Hfresh) in Hrun.
    apply IH in Hrun as (entries' & Hall & Hrel); [|exact Hrest|].
    + eexists (_ :: entries'). split.
      * rewrite Hall, <- app_assoc. reflexivity.
      * constructor; [exact Hparse | exact Hrel].
    + unfold dict_keys in *. rewrite !map_app in *. simpl in *.
      now rewrite <- app_assoc.
Qed.

(** The condition on the due dates cannot be left out: when a load after
    a save gives back the registry that was saved, the parser has read
    back the rendering of every registered due date. *)
Lemma Project_roundtrip_needs_reads_back now d d1 d2 st st0 st' :
  Project.wf st ->
  FileHandler.can_save d "projects.json" ->
  Project.save_all (d, st) = (Ok tt, (d1, st)) ->
  Project.load_all now (d1, st0) = (Ok tt, (d2, st')) ->
  Project._all_projects st' = Project._all_projects st ->
  forall id project,
    Project.find_by_id st id = Some project ->
    reads_back (Project.due_date project).
Proof.
  intros (Hall & Hnd & _) (Hdir & Hw) Hsave Hload Hsame id project Hfind.
  destruct (save_data_then_load_data "projects.json"
              (map Project.to_dict (dict_values (Project._all_projects st)))
              d Hdir Hw)
    as (d' & Hsaved & Hloaded).
  rewrite Project_save_all_unfold, Hsaved in Hsave.
  injection Hsave as <-.
  rewrite Project_load_all_unfold, Hloaded in Hload.
  destruct (for_each _ (Project.load_one now) Project.initial)
    as [r st1] eqn:Hrun.
  injection Hload as -> _ ->.
  apply (Project_loop_saved now _ [] 1 st' Hall Hnd) in Hrun
    as (entries' & Hentries & Hrel).
  simpl in Hentries. rewrite Hsame in Hentries. subst entries'.
  apply dict_get_In in Hfind.
  clear - Hrel Hfind. unfold reads_back.
  induction (Project._all_projects st) as [|e l IH]; [contradiction|].
  inversion Hrel; subst.
  destruct Hfind as [-> | Hin]; [assumption | now apply IH].
Qed.

End ProjectInvariant.

(** ** The calendars of the worked examples *)

#[global] Instance calendar_laws : @DateTimeLaws IsoText.calendar.
Proof. split. intros d. discriminate. Qed.

(** The ISO 8601 calendar reads back what it renders. *)

Lemma digit_value_digit (q : Z) :
  0 <= q < 10 -> Iso8601.digit_value (Iso8601.digit q) = Some q.
Proof.
  intros Hq.
  assert (Hc : q = 0 \/ q = 1 \/ q = 2 \/ q = 3 \/ q = 4 \/ q = 5 \/ q = 6 \/
               q = 7 \/ q = 8 \/ q = 9) by lia.
  repeat (destruct Hc as [-> | Hc]; [reflexivity|]). subst. reflexivity.
Qed.

Lemma number_pad (w : nat) : forall n acc rest,
  0 <= n < 10 ^ Z.of_nat w ->
  Iso8601.number w acc (Iso8601.pad w n ++ rest)
  = Some (acc * 10 ^ Z.of_nat w + n, rest).
Proof.
  induction w as [|w IH]; intros n acc rest Hn.
  - simpl in *. f_equal. f_equal. lia.
  - rewrite Nat2Z.inj_succ, Z.pow_succ_r in Hn by lia.
    assert (Hpos : 0 < 10 ^ Z.of_nat w) by (apply Z.pow_pos_nonneg; lia).
    cbn [Iso8601.pad Iso8601.number String.append].
    rewrite digit_value_digit.
    2:{ split; [apply Z.div_pos; lia | apply Z.div_lt_upper_bound; lia]. }
    rewrite IH by (apply Z.mod_pos_bound; lia).
    f_equal. f_equal.
    rewrite Nat2Z.inj_succ, Z.pow_succ_r by lia.
    pose proof (Z.div_mod n (10 ^ Z.of_nat w)). nia.
Qed.

Lemma checked_value (d : Iso8601.t) :
  Iso8601.checked (Iso8601.value d) = Some d.
Proof.
  destruct d as [f Hf]. unfold Iso8601.checked. cbn [Iso8601.value].
  generalize (eq_refl (Iso8601.in_range f)).
  generalize (Iso8601.in_range f) at 2 3.
  intros b E. destruct b.
  - f_equal. f_equal. apply UIP_dec, bool_dec.
  - congruence.
Qed.

Lemma days_in_month_le (y m : Z) : Iso8601.days_in_month y m <= 31.
Proof.
  unfold Iso8601.days_in_month.
  destruct (m =? 2); [destruct (Iso8601.is_leap y); lia|].
  destruct ((m =? 4) || (m =? 6) || (m =? 9) || (m =? 11)); lia.
Qed.

Lemma read_fields_render (d : Iso8601.t) :
  Iso8601.read_fields (Iso8601.render d) = Some (Iso8601.value d).
Proof.
  destruct d as [[y m dd h mi sec us] Hf].
  unfold Iso8601.render, Iso8601.read_fields.
  cbn [Iso8601.value Iso8601.year Iso8601.month Iso8601.day Iso8601.hour
       Iso8601.minute Iso8601.second Iso8601.microsecond] in *.
  unfold Iso8601.in_range, Iso8601.between in Hf.
  cbn [Iso8601.year Iso8601.month Iso8601.day Iso8601.hour
       Iso8601.minute Iso8601.second Iso8601.microsecond] in Hf.
  rewrite !andb_true_iff, !Z.leb_le in Hf.
  pose proof (days_in_month_le y m) as Hdays.
  rewrite number_pad by (simpl; lia).
  cbn [Iso8601.then_ Iso8601.expect String.append Ascii.eqb Bool.eqb].
  rewrite number_pad by (simpl; lia).
  cbn [Iso8601.then_ Iso8601.expect String.append Ascii.eqb Bool.eqb].
  rewrite number_pad by (simpl; lia).
  cbn [Iso8601.then_ Iso8601.expect String.append Ascii.eqb Bool.eqb
       Iso8601.read_time].
  rewrite number_pad by (simpl; lia).
  cbn [Iso8601.then_ Iso8601.expect String.append Ascii.eqb Bool.eqb].
  rewrite number_pad by (simpl; lia).
  cbn [Iso8601.then_ Iso8601.expect String.append Ascii.eqb Bool.eqb].
  rewrite number_pad by (simpl; lia).
  cbn [Iso8601.then_].
  destruct (Z.eqb_spec us 0) as [->|Hus].
  - reflexivity.
  - cbn [Iso8601.read_fraction Iso8601.then_ Iso8601.expect String.append
         Ascii.eqb Bool.eqb].
    replace (Iso8601.pad 6 us) with (Iso8601.pad 6 us ++ "")%string
      by (generalize (Iso8601.pad 6 us) as s;
          induction s as [|c s IH]; simpl; [reflexivity | now rewrite IH]).
    rewrite number_pad by (simpl; lia).
    cbn [Iso8601.then_]. do 2 f_equal; lia.
Qed.

(** Every date-time of the calendar is read back from its rendering. *)
Lemma Iso8601_reads_back (d : Iso8601.t) : @reads_back Iso8601.calendar d.
Proof.
  unfold reads_back. cbn [parse isoformat Iso8601.calendar].
  unfold Iso8601.read. rewrite read_fields_render. apply checked_value.
Qed.

Lemma Iso8601_laws : @DateTimeLaws Iso8601.calendar.
Proof. split. intros d. cbn. unfold Iso8601.render. simpl. discriminate. Qed.

(** ** Save, then load *)

Section RoundTrip.
Context `{DateTimeLaws}.

(** A method called on a registered object is a step of the registry. *)
Lemma User_reachable_call key m st :
  User.reachable st ->
  User.reachable
    match User.find_by_id st key with
    | Some self => User.store key (snd (User.call m self)) st
    | None => st
    end.
Proof.
  intros Hreach. destruct (User.find_by_id st key) as [self|] eqn:Hfind.
  - exact (User.reachable_step _ _ Hreach (User.step_call key self m st Hfind)).
  - exact Hreach.
Qed.

Lemma Project_reachable_call key m st :
  Project.reachable st ->
  Project.reachable
    match Project.find_by_id st key with
    | Some self => Project.store key (snd (Project.call m self)) st
    | None => st
    end.
Proof.
  intros Hreach. destruct (Project.find_by_id st key) as [self|] eqn:Hfind.
  - exact (Project.reachable_step _ _ Hreach
             (Project.step_call key self m st Hfind)).
  - exact Hreach.
Qed.

Lemma Task_reachable_call key m st :
  Task.reachable st ->
  Task.reachable
    match Task.find_by_id st key with
    | Some self => Task.store key (snd (Task.call m self)) st
    | None => st
    end.
Proof.
  intros Hreach. destruct (Task.find_by_id st key) as [self|] eqn:Hfind.
  - exact (Task.reachable_step _ _ Hreach (Task.step_call key self m st Hfind)).
  - exact Hreach.
Qed.

(** C4: for registries reached through the public operations, and data
    files that can be written, [save_all] returns and leaves the registry
    as it is; a [load_all] from the disk the save leaves then returns,
    whatever the registry holds when the load starts, and rebuilds the
    entries that were saved: the same ids in the same order, each with the
    same value in every field.  So [get_all] and every [find_by_id] answer
    as before the save.  This holds for users and tasks as it stands.  For
    projects the due date goes through [datetime.isoformat] and
    [dateutil.parser.parse]: it holds when the parser reads back the
    rendering of each registered due date, which is a property of those
    two libraries and not of this program. *)
Theorem save_all_then_load_all_roundtrip
    now
    (ud : FileHandler.Disk User.record) (ust : User.State)
    (pd : FileHandler.Disk Project.record) (pst : Project.State)
    (td : FileHandler.Disk Task.record) (tst : Task.State)
    (Hu : User.reachable ust)
    (Hp : Project.reachable pst)
    (Ht : Task.reachable tst)
    (Hud : FileHandler.can_save ud "users.json")
    (Hpd : FileHandler.can_save pd "projects.json")
    (Htd : FileHandler.can_save td "tasks.json")
    (Hdue : forall id project,
        Project.find_by_id pst id = Some project ->
        reads_back (Project.due_date project)) :
  (exists ud' ust',
     User.save_all (ud, ust) = (Ok tt, (ud', ust)) /\
     (forall ust0, User.load_all now (ud', ust0) = (Ok tt, (ud', ust'))) /\
     User._all_users ust' = User._all_users ust /\
     User.get_all ust' = User.get_all ust /\
     (forall id, User.find_by_id ust' id = User.find_by_id ust id)) /\
  (exists pd' pst',
     Project.save_all (pd, pst) = (Ok tt, (pd', pst)) /\
     (forall pst0,
        Project.load_all now (pd', pst0) = (Ok tt, (pd', pst'))) /\
     Project._all_projects pst' = Project._all_projects pst /\
     Project.get_all pst' = Project.get_all pst /\
     (forall id, Project.find_by_id pst' id = Project.find_by_id pst id)) /\
  (exists td' tst',
     Task.save_all (td, tst) = (Ok tt, (td', tst)) /\
     (forall tst0, Task.load_all now (td', tst0) = (Ok tt, (td', tst'))) /\
     Task._all_tasks tst' = Task._all_tasks tst /\
     Task.get_all tst' = Task.get_all tst /\
     (forall id, Task.find_by_id tst' id = Task.find_by_id tst id)).
Proof.
  split; [|split].
  - destruct (User_roundtrip now ud ust (User_reachable_wf ust Hu) Hud)
      as (ud' & ust' & Hsave & Hload & Hsame).
    exists ud', ust'. repeat split; auto.
    + unfold User.get_all. now rewrite Hsame.
    + intros id. unfold User.find_by_id. now rewrite Hsame.
  - destruct (Project_roundtrip now pd pst (Project_reachable_wf pst Hp) Hpd
                Hdue)
      as (pd' & pst' & Hsave & Hload & Hsame).
    exists pd', pst'. repeat split; auto.
    + unfold Project.get_all. now rewrite Hsame.
    + intros id. unfold Project.find_by_id. now rewrite Hsame.
  - destruct (Task_roundtrip now td tst (Task_reachable_wf tst Ht) Htd)
      as (td' & tst' & Hsave & Hload & Hsame).
    exists td', tst'. repeat split; auto.
    + unfold Task.get_all. now rewrite Hsame.
    + intros id. unfold Task.find_by_id. now rewrite Hsame.
Qed.

End RoundTrip.

(** Witness of [save_all_then_load_all_roundtrip]: the registries of the
    worked session, with ISO 8601 dates.  They hold entities made by the
    factories and by the constructors, one under an explicit id, with a
    name, a status, a due date and relationship lists changed since; they
    are saved over the documents of an earlier session and loaded back
    into any registry. *)
Lemma save_all_then_load_all_roundtrip_witness :
  (exists ud' ust',
     User.save_all (Office.users_disk, Office.users)
       = (Ok tt, (ud', Office.users)) /\
     (forall ust0,
        @User.load_all Iso8601.calendar Office.morning (ud', ust0)
        = (Ok tt, (ud', ust'))) /\
     User._all_users ust' = User._all_users Office.users /\
     User.get_all ust' = User.get_all Office.users /\
     (forall id, User.find_by_id ust' id
                 = User.find_by_id Office.users id)) /\
  (exists pd' pst',
     Project.save_all (Office.projects_disk, Office.projects)
       = (Ok tt, (pd', Office.projects)) /\
     (forall pst0,
        @Project.load_all Iso8601.calendar Office.morning (pd', pst0)
        = (Ok tt, (pd', pst'))) /\
     Project._all_projects pst' = Project._all_projects Office.projects /\
     Project.get_all pst' = Project.get_all Office.projects /\
     (forall id, Project.find_by_id pst' id
                 = Project.find_by_id Office.projects id)) /\
  (exists td' tst',
     Task.save_all (Office.tasks_disk, Office.tasks)
       = (Ok tt, (td', Office.tasks)) /\
     (forall tst0,
        @Task.load_all Iso8601.calendar Office.morning (td', tst0)
        = (Ok tt, (td', tst'))) /\
     Task._all_tasks tst' = Task._all_tasks Office.tasks /\
     Task.get_all tst' = Task.get_all Office.tasks /\
     (forall id, Task.find_by_id tst' id
                 = Task.find_by_id Office.tasks id)).
Proof.
  apply (@save_all_then_load_all_roundtrip Iso8601.calendar Iso8601_laws
           Office.morning Office.users_disk Office.users
           Office.projects_disk Office.projects
           Office.tasks_disk Office.tasks).
  - unfold Office.users, Office.on_user.
    do 3 apply User_reachable_call.
    refine (User.reachable_step _ _ _ (User.step_init _ _ _ _ _ _ _)).
    refine (User.reachable_step _ _ _ (User.step_create _ _ _ _)).
    refine (User.reachable_step _ _ _ (User.step_create _ _ _ _)).
    apply User.reachable_initial.
  - unfold Office.projects, Office.on_project.
    do 3 apply Project_reachable_call.
    refine (Project.reachable_step _ _ _
              (Project.step_init _ _ _ _ _ _ _ _ _)).
    refine (Project.reachable_step _ _ _
              (Project.step_create _ _ _ _ _ _)).
    apply Project.reachable_initial.
  - unfold Office.tasks, Office.on_task.
    do 4 apply Task_reachable_call.
    refine (Task.reachable_step _ _ _ (Task.step_create _ _ _ _ _)).
    refine (Task.reachable_step _ _ _ (Task.step_create _ _ _ _ _)).
    apply Task.reachable_initial.
  - split; reflexivity.
  - split; reflexivity.
  - split; reflexivity.
  - intros id project Hfind. apply dict_get_In in Hfind.
    simpl in Hfind.
    destruct Hfind as [Heq | [Heq | []]]; injection Heq as <- <-;
      reflexivity.
Defined.

(** * Further properties of the models *)

(** ** Stripping whitespace *)

Lemma string_app_nil_r (s : string) : (s ++ "")%string = s.
Proof. induction s as [|c s IH]; simpl; [reflexivity | now rewrite IH]. Qed.

Lemma string_app_assoc (a b c : string) :
  ((a ++ b) ++ c)%string = (a ++ (b ++ c))%string.
Proof. induction a as [|x a IH]; simpl; [reflexivity | now rewrite IH]. Qed.

Lemma rev_string_acc (s acc : string) :
  rev_string s acc = (rev_string s "" ++ acc)%string.
Proof.
  revert acc. induction s as [|c s IH]; intros acc; simpl; [reflexivity|].
  rewrite (IH (String c acc)), (IH (String c "")), string_app_assoc.
  reflexivity.
Qed.

Lemma rev_string_app (a b : string) :
  rev_string (a ++ b)%string "" = (rev_string b "" ++ rev_string a "")%string.
Proof.
  induction a as [|c a IH]; simpl.
  - now rewrite string_app_nil_r.
  - rewrite rev_string_acc, IH, (rev_string_acc a (String c "")).
    now rewrite string_app_assoc.
Qed.

Lemma rev_string_involutive (s : string) :
  rev_string (rev_string s "") "" = s.
Proof.
  induction s as [|c s IH]; simpl; [reflexivity|].
  rewrite (rev_string_acc s (String c "")), rev_string_app, IH. reflexivity.
Qed.

Lemma all_space_app (a b : string) :
  all_space (a ++ b)%string = all_space a && all_space b.
Proof.
  induction a as [|c a IH]; simpl; [reflexivity|].
  now rewrite IH, andb_assoc.
Qed.

Lemma all_space_rev (s : string) : all_space (rev_string s "") = all_space s.
Proof.
  induction s as [|c s IH]; simpl; [reflexivity|].
  rewrite rev_string_acc, all_space_app, IH. simpl.
  rewrite andb_true_r. apply andb_comm.
Qed.

Lemma lstrip_empty_iff (s : string) : lstrip s = "" <-> all_space s = true.
Proof.
  induction s as [|c s IH]; simpl; [tauto|].
  destruct (isspace c); simpl; [exact IH|]. split; discriminate.
Qed.

Lemma lstrip_all_space (s : string) : all_space s = true -> lstrip s = "".
Proof. apply lstrip_empty_iff. Qed.

Lemma lstrip_app (a b : string) :
  lstrip (a ++ b)%string
  = if all_space a then lstrip b else (lstrip a ++ b)%string.
Proof.
  induction a as [|c a IH]; simpl; [reflexivity|].
  destruct (isspace c); simpl; [exact IH | reflexivity].
Qed.

(** What is left of a string stripped on the left is empty or starts with
    a character that is not whitespace. *)
Lemma lstrip_head (s : string) :
  lstrip s = "" \/
  exists c r, lstrip s = String c r /\ isspace c = false.
Proof.
  induction s as [|c s IH]; simpl; [now left|].
  destruct (isspace c) eqn:Hc; [exact IH|].
  right. now exists c, s.
Qed.

Lemma lstrip_fixed (c : ascii) (r : string) :
  isspace c = false -> lstrip (String c r) = String c r.
Proof. intros Hc. simpl. now rewrite Hc. Qed.

Lemma lstrip_idem (s : string) : lstrip (lstrip s) = lstrip s.
Proof.
  destruct (lstrip_head s) as [-> | (c & r & -> & Hc)];
    [reflexivity | now apply lstrip_fixed].
Qed.

Lemma rstrip_cons (c : ascii) (r : string) :
  rstrip (String c r)
  = if all_space r
    then (if isspace c then "" else String c "")
    else String c (rstrip r).
Proof.
  unfold rstrip.
  change (rev_string (String c r) "") with (rev_string r (String c "")).
  rewrite (rev_string_acc r (String c "")), lstrip_app, all_space_rev.
  destruct (all_space r).
  - simpl. destruct (isspace c); reflexivity.
  - rewrite rev_string_app. reflexivity.
Qed.

Lemma rstrip_idem (s : string) : rstrip (rstrip s) = rstrip s.
Proof.
  unfold rstrip. now rewrite rev_string_involutive, lstrip_idem.
Qed.

Lemma rstrip_empty_iff (s : string) : rstrip s = "" <-> all_space s = true.
Proof.
  induction s as [|c s IH]; [simpl; tauto|].
  rewrite rstrip_cons. simpl all_space.
  destruct (all_space s), (isspace c); simpl; split; try discriminate; auto.
Qed.

(** Stripping on the right keeps a first character that is not
    whitespace. *)
Lemma rstrip_keeps_head (c : ascii) (r : string) :
  isspace c = false -> exists r', rstrip (String c r) = String c r'.
Proof.
  intros Hc. rewrite rstrip_cons, Hc.
  destruct (all_space r); eauto.
Qed.

Lemma strip_idem (s : string) : strip (strip s) = strip s.
Proof.
  unfold strip.
  destruct (lstrip_head s) as [-> | (c & r & -> & Hc)]; [reflexivity|].
  destruct (rstrip_keeps_head c r Hc) as (r' & Hr).
  rewrite Hr, (lstrip_fixed c r' Hc), <- Hr. apply rstrip_idem.
Qed.

Lemma strip_empty_iff (s : string) : strip s = "" <-> all_space s = true.
Proof.
  unfold strip. rewrite <- lstrip_empty_iff.
  destruct (lstrip_head s) as [-> | (c & r & -> & Hc)]; [tauto|].
  destruct (rstrip_keeps_head c r Hc) as (r' & ->). split; discriminate.
Qed.

Lemma char_in_app (c : ascii) (a b : string) :
  char_in c (a ++ b)%string = char_in c a || char_in c b.
Proof.
  induction a as [|x a IH]; simpl; [reflexivity|].
  now rewrite IH, orb_assoc.
Qed.

Lemma char_in_rev (c : ascii) (s : string) :
  char_in c (rev_string s "") = char_in c s.
Proof.
  induction s as [|x s IH]; simpl; [reflexivity|].
  rewrite rev_string_acc, char_in_app, IH. simpl.
  rewrite orb_false_r. apply orb_comm.
Qed.

Lemma char_in_lstrip (c : ascii) (s : string) :
  isspace c = false -> char_in c (lstrip s) = char_in c s.
Proof.
  intros Hc. induction s as [|x s IH]; simpl; [reflexivity|].
  destruct (isspace x) eqn:Hx; [|reflexivity].
  rewrite IH. destruct (Ascii.eqb_spec c x) as [->|]; [congruence | reflexivity].
Qed.

(** Stripping neither adds nor removes a character that is not
    whitespace. *)
Lemma char_in_strip (c : ascii) (s : string) :
  isspace c = false -> char_in c (strip s) = char_in c s.
Proof.
  intros Hc. unfold strip, rstrip.
  now rewrite char_in_rev, (char_in_lstrip c _ Hc), char_in_rev,
    (char_in_lstrip c _ Hc).
Qed.

Lemma truthy_str_empty (s : string) : truthy_str s = false <-> s = "".
Proof. destruct s; simpl; split; congruence. Qed.

(** ** Validated setters *)

Section Setters.
Context `{DateTime}.

Lemma title_guard (value : string) :
  negb (truthy_str value) || negb (truthy_str (strip value))
  = all_space value.
Proof.
  destruct (all_space value) eqn:Hall.
  - apply strip_empty_iff in Hall. rewrite Hall. simpl. apply orb_true_r.
  - assert (Hs : strip value <> "").
    { intros Hs. apply strip_empty_iff in Hs. congruence. }
    destruct value as [|c r]; [discriminate|].
    destruct (strip (String c r)); [contradiction | reflexivity].
Qed.

(** X1: the name setter of a user rejects exactly the values whose stripped
    form has fewer than two characters, and then leaves the user as it was;
    otherwise it stores the stripped value, which has at least two
    characters, and setting the stored name again changes nothing. *)
Theorem User_set_name_normalises (value : string) (u : User.t) :
  match User.set_name value u with
  | (Ok _, u') =>
      2 <= len (strip value) /\
      User.name u' = strip value /\
      User.set_name (User.name u') u' = (Ok tt, u')
  | (Raise e, u') =>
      len (strip value) < 2 /\ u' = u /\
      e = ValueError "Name must be at least 2 characters long"
  end.
Proof.
  unfold User.set_name at 1. rewrite set_name_guard.
  destruct (Z.ltb_spec (len (strip value)) 2) as [Hlt|Hge].
  - now repeat split.
  - unfold bind, get, put. cbn [User.name User._name].
    split; [exact Hge|]. split; [reflexivity|].
    unfold User.set_name. rewrite set_name_guard, strip_idem.
    destruct (Z.ltb_spec (len (strip value)) 2); [lia | reflexivity].
Qed.

(** X2: the email setter of a user rejects exactly the values without "@"
    or without ".", and then leaves the user as it was; otherwise it stores
    the stripped value, which still holds both characters, and setting the
    stored email again changes nothing. *)
Theorem User_set_email_normalises (value : string) (u : User.t) :
  match User.set_email value u with
  | (Ok _, u') =>
      char_in "@" value = true /\ char_in "." value = true /\
      User.email u' = strip value /\
      char_in "@" (User.email u') = true /\
      char_in "." (User.email u') = true /\
      User.set_email (User.email u') u' = (Ok tt, u')
  | (Raise e, u') =>
      (char_in "@" value = false \/ char_in "." value = false) /\
      u' = u /\ e = ValueError "Invalid email format"
  end.
Proof.
  assert (Hat : char_in "@" (strip value) = char_in "@" value)
    by (now apply char_in_strip).
  assert (Hdot : char_in "." (strip value) = char_in "." value)
    by (now apply char_in_strip).
  unfold User.set_email at 1.
  destruct (char_in "@" value) eqn:Hv1; [|simpl; auto].
  destruct (char_in "." value) eqn:Hv2; [|simpl; auto].
  unfold bind, get, put. cbn [negb orb User.email User._email].
  repeat (split; [assumption || reflexivity|]).
  unfold User.set_email. rewrite Hat, Hdot, strip_idem. reflexivity.
Qed.

(** X3: an address that [validate_email] accepts is accepted by the email
    setter of a user, which stores it stripped. *)
Theorem validate_email_implies_setter_accepts (email : string) (u : User.t)
    (Hvalid : Helpers.validate_email email = true) :
  exists u',
    User.set_email email u = (Ok tt, u') /\
    User.email u' = strip email.
Proof.
  unfold Helpers.validate_email in Hvalid.
  apply andb_prop in Hvalid as [Hvalid _].
  apply andb_prop in Hvalid as [Hat Hdot].
  unfold User.set_email, bind, get, put. rewrite Hat, Hdot.
  eexists. split; reflexivity.
Qed.

(** X4: the title setter of a task rejects exactly the empty and the
    whitespace-only values, and then leaves the task as it was; otherwise it
    stores the stripped value, which is not empty, and setting the stored
    title again changes nothing.  The description setter never raises and
    stores the stripped value. *)
Theorem Task_set_title_normalises (value : string) (self : Task.t) :
  match Task.set_title value self with
  | (Ok _, self') =>
      all_space value = false /\
      Task.title self' = strip value /\
      Task.title self' <> "" /\
      Task.set_title (Task.title self') self' = (Ok tt, self')
  | (Raise e, self') =>
      all_space value = true /\ self' = self /\
      e = ValueError "Title cannot be empty"
  end /\
  exists self',
    Task.set_description value self = (Ok tt, self') /\
    Task.description self' = strip value /\
    Task.set_description (Task.description self') self' = (Ok tt, self').
Proof.
  split.
  - unfold Task.set_title at 1. rewrite title_guard.
    destruct (all_space value) eqn:Hall; [now repeat split|].
    unfold bind, get, put. cbn [Task.title Task._title].
    assert (Hne : strip value <> "").
    { intros Hs. apply strip_empty_iff in Hs. congruence. }
    repeat (split; [assumption || reflexivity|]).
    unfold Task.set_title. rewrite title_guard.
    assert (Hall' : all_space (strip value) = false).
    { destruct (all_space (strip value)) eqn:Ha; [|reflexivity].
      apply strip_empty_iff in Ha. rewrite strip_idem in Ha. contradiction. }
    rewrite Hall', strip_idem. reflexivity.
  - assert (Hd : forall v, (if truthy_str v then strip v else "") = strip v).
    { intros [|c r]; reflexivity. }
    eexists. split; [reflexivity|].
    cbn [Task.description Task._description].
    split; [apply Hd|].
    unfold Task.set_description, bind, get, put.
    cbn [Task._description Task.task_id Task._title Task._status
         Task.project_id Task.assigned_users Task.created_at].
    now rewrite !Hd, strip_idem.
Qed.

(** X5: the title and description setters of a project behave as those of
    a task. *)
Theorem Project_set_title_normalises (value : string) (self : Project.t) :
  match Project.set_title value self with
  | (Ok _, self') =>
      all_space value = false /\
      Project.title self' = strip value /\
      Project.title self' <> "" /\
      Project.set_title (Project.title self') self' = (Ok tt, self')
  | (Raise e, self') =>
      all_space value = true /\ self' = self /\
      e = ValueError "Title cannot be empty"
  end /\
  exists self',
    Project.set_description value self = (Ok tt, self') /\
    Project.description self' = strip value /\
    Project.set_description (Project.description self') self'
      = (Ok tt, self').
Proof.
  split.
  - unfold Project.set_title at 1. rewrite title_guard.
    destruct (all_space value) eqn:Hall; [now repeat split|].
    unfold bind, get, put. cbn [Project.title Project._title].
    assert (Hne : strip value <> "").
    { intros Hs. apply strip_empty_iff in Hs. congruence. }
    repeat (split; [assumption || reflexivity|]).
    unfold Project.set_title. rewrite title_guard.
    assert (Hall' : all_space (strip value) = false).
    { destruct (all_space (strip value)) eqn:Ha; [|reflexivity].
      apply strip_empty_iff in Ha. rewrite strip_idem in Ha. contradiction. }
    rewrite Hall', strip_idem. reflexivity.
  - assert (Hd : forall v, (if truthy_str v then strip v else "") = strip v).
    { intros [|c r]; reflexivity. }
    eexists. split; [reflexivity|].
    cbn [Project.description Project._description].
    split; [apply Hd|].
    unfold Project.set_description, bind, get, put.
    cbn [Project._description Project.project_id Project._title
         Project._due_date Project.user_id Project.tasks Project.created_at].
    now rewrite !Hd, strip_idem.
Qed.

End Setters.

(** Witness of [validate_email_implies_setter_accepts]. *)
Lemma validate_email_implies_setter_accepts_witness :
  exists u',
    User.set_email " ana@x.com " Sample.ana = (Ok tt, u') /\
    User.email u' = strip " ana@x.com ".
Proof.
  apply (validate_email_implies_setter_accepts " ana@x.com " Sample.ana).
  reflexivity.
Defined.

(** ** Relationship lists without duplicates *)

Lemma append_In (x y : Z) (l : list Z) : In y (append x l) <-> y = x \/ In y l.
Proof.
  unfold append. rewrite in_app_iff. simpl. intuition.
Qed.

Lemma append_NoDup (x : Z) (l : list Z) :
  NoDup l -> ~ In x l -> NoDup (append x l).
Proof.
  intros Hnd Hnin. unfold append. induction l as [|y l IH]; simpl.
  - constructor; [intros [] | constructor].
  - inversion Hnd as [|? ? Hy Hl]; subst. constructor.
    + rewrite in_app_iff. simpl. intros [Hin | [-> | []]];
        [contradiction | apply Hnin; now left].
    + apply IH; [assumption | intros Hin; apply Hnin; now right].
Qed.

Lemma remove_In (x y : Z) (l : list Z) :
  NoDup l -> (In y (remove x l) <-> In y l /\ y <> x).
Proof.
  intros Hnd. induction l as [|z l IH]; simpl; [tauto|].
  inversion Hnd as [|? ? Hz Hl]; subst.
  destruct (Z.eqb_spec x z) as [->|Hne].
  - split.
    + intros Hin. split; [now right | intros ->; contradiction].
    + intros [[-> | Hin] Hy]; [contradiction | assumption].
  - simpl. rewrite (IH Hl). split.
    + intros [-> | [Hin Hy]]; split; auto.
    + intros [[-> | Hin] Hy]; auto.
Qed.

Lemma remove_NoDup (x : Z) (l : list Z) : NoDup l -> NoDup (remove x l).
Proof.
  intros Hnd. induction l as [|z l IH]; simpl; [constructor|].
  inversion Hnd as [|? ? Hz Hl]; subst.
  destruct (Z.eqb_spec x z); [assumption|].
  constructor; [|now apply IH].
  rewrite (remove_In x z l Hl). tauto.
Qed.

Lemma remove_append (x : Z) (l : list Z) :
  ~ In x l -> remove x (append x l) = l.
Proof.
  intros Hnin. unfold append. induction l as [|z l IH]; simpl.
  - now rewrite Z.eqb_refl.
  - destruct (Z.eqb_spec x z) as [->|Hne]; [exfalso; apply Hnin; now left|].
    f_equal. apply IH. intros Hin. apply Hnin. now right.
Qed.

(** On a list without duplicates, adding puts the id in and removing takes
    it out, and both keep the list free of duplicates and every other id
    where it was. *)
Lemma add_remove_spec (x : Z) (l : list Z) :
  NoDup l ->
  let added := if negb (mem x l) then append x l else l in
  let removed := if mem x l then remove x l else l in
  (NoDup added /\ forall y, In y added <-> y = x \/ In y l) /\
  (NoDup removed /\ forall y, In y removed <-> In y l /\ y <> x).
Proof.
  intros Hnd. cbv zeta. destruct (mem x l) eqn:Hmem; simpl.
  - apply mem_In in Hmem. split; split.
    + assumption.
    + intros y. split; [auto | intros [-> | Hin]; assumption].
    + now apply remove_NoDup.
    + intros y. now apply remove_In.
  - apply mem_not_In in Hmem. split; split.
    + now apply append_NoDup.
    + intros y. apply append_In.
    + assumption.
    + intros y. split; [|tauto].
      intros Hin. split; [assumption | intros ->; contradiction].
Qed.

Section RelationshipLists.
Context `{DateTime}.

Lemma User_add_project_projects x (u : User.t) :
  User.projects (snd (User.add_project x u))
  = if negb (mem x (User.projects u)) then append x (User.projects u)
    else User.projects u.
Proof.
  unfold User.add_project, User.set_projects, bind, get, put, ret.
  destruct (mem x (User.projects u)); reflexivity.
Qed.

Lemma User_remove_project_projects x (u : User.t) :
  User.projects (snd (User.remove_project x u))
  = if mem x (User.projects u) then remove x (User.projects u)
    else User.projects u.
Proof.
  unfold User.remove_project, User.set_projects, bind, get, put, ret.
  destruct (mem x (User.projects u)); reflexivity.
Qed.

Lemma Project_add_task_tasks x (p : Project.t) :
  Project.tasks (snd (Project.add_task x p))
  = if negb (mem x (Project.tasks p)) then append x (Project.tasks p)
    else Project.tasks p.
Proof.
  unfold Project.add_task, Project.set_tasks, bind, get, put, ret.
  destruct (mem x (Project.tasks p)); reflexivity.
Qed.

Lemma Project_remove_task_tasks x (p : Project.t) :
  Project.tasks (snd (Project.remove_task x p))
  = if mem x (Project.tasks p) then remove x (Project.tasks p)
    else Project.tasks p.
Proof.
  unfold Project.remove_task, Project.set_tasks, bind, get, put, ret.
  destruct (mem x (Project.tasks p)); reflexivity.
Qed.

Lemma Task_assign_user_users x (k : Task.t) :
  Task.assigned_users (snd (Task.assign_user x k))
  = if negb (mem x (Task.assigned_users k))
    then append x (Task.assigned_users k)
    else Task.assigned_users k.
Proof.
  unfold Task.assign_user, Task.set_assigned_users, bind, get, put, ret.
  destruct (mem x (Task.assigned_users k)); reflexivity.
Qed.

Lemma Task_unassign_user_users x (k : Task.t) :
  Task.assigned_users (snd (Task.unassign_user x k))
  = if mem x (Task.assigned_users k)
    then remove x (Task.assigned_users k)
    else Task.assigned_users k.
Proof.
  unfold Task.unassign_user, Task.set_assigned_users, bind, get, put, ret.
  destruct (mem x (Task.assigned_users k)); reflexivity.
Qed.

(** X6: on relationship lists without duplicates, each of the three add
    operations leaves a list without duplicates that holds the id and
    otherwise the ids it held, and each of the three remove operations
    leaves a list without duplicates that no longer holds the id and
    otherwise holds the ids it held. *)
Theorem relationship_lists_stay_duplicate_free
    (u : User.t) (p : Project.t) (k : Task.t) (x : Z)
    (Hu : NoDup (User.projects u))
    (Hp : NoDup (Project.tasks p))
    (Hk : NoDup (Task.assigned_users k)) :
  let added_u := User.projects (snd (User.add_project x u)) in
  let removed_u := User.projects (snd (User.remove_project x u)) in
  let added_p := Project.tasks (snd (Project.add_task x p)) in
  let removed_p := Project.tasks (snd (Project.remove_task x p)) in
  let added_k := Task.assigned_users (snd (Task.assign_user x k)) in
  let removed_k := Task.assigned_users (snd (Task.unassign_user x k)) in
  (NoDup added_u /\ forall y, In y added_u <-> y = x \/ In y (User.projects u)) /\
  (NoDup removed_u /\
   forall y, In y removed_u <-> In y (User.projects u) /\ y <> x) /\
  (NoDup added_p /\ forall y, In y added_p <-> y = x \/ In y (Project.tasks p)) /\
  (NoDup removed_p /\
   forall y, In y removed_p <-> In y (Project.tasks p) /\ y <> x) /\
  (NoDup added_k /\
   forall y, In y added_k <-> y = x \/ In y (Task.assigned_users k)) /\
  (NoDup removed_k /\
   forall y, In y removed_k <-> In y (Task.assigned_users k) /\ y <> x).
Proof.
  cbv zeta.
  rewrite User_add_project_projects, User_remove_project_projects,
    Project_add_task_tasks, Project_remove_task_tasks,
    Task_assign_user_users, Task_unassign_user_users.
  pose proof (add_remove_spec x _ Hu) as [Hu1 Hu2].
  pose proof (add_remove_spec x _ Hp) as [Hp1 Hp2].
  pose proof (add_remove_spec x _ Hk) as [Hk1 Hk2].
  cbv zeta in Hu1, Hu2, Hp1, Hp2, Hk1, Hk2.
  split; [exact Hu1|]. split; [exact Hu2|].
  split; [exact Hp1|]. split; [exact Hp2|].
  split; [exact Hk1 | exact Hk2].
Qed.

(** X7: adding an id that the relationship list does not hold and then
    removing it gives back the object as it was, for the three kinds. *)
Theorem add_then_remove_restores
    (u : User.t) (p : Project.t) (k : Task.t) (x : Z)
    (Hu : ~ In x (User.projects u))
    (Hp : ~ In x (Project.tasks p))
    (Hk : ~ In x (Task.assigned_users k)) :
  User.remove_project x (snd (User.add_project x u)) = (Ok tt, u) /\
  Project.remove_task x (snd (Project.add_task x p)) = (Ok tt, p) /\
  Task.unassign_user x (snd (Task.assign_user x k)) = (Ok tt, k).
Proof.
  apply mem_not_In in Hu as Hmu. apply mem_not_In in Hp as Hmp.
  apply mem_not_In in Hk as Hmk.
  split; [|split].
  - unfold User.add_project, User.remove_project, User.set_projects, bind,
      get, put, ret. rewrite Hmu. simpl.
    rewrite mem_append_same, (remove_append x _ Hu). now destruct u.
  - unfold Project.add_task, Project.remove_task, Project.set_tasks, bind,
      get, put, ret. rewrite Hmp. simpl.
    rewrite mem_append_same, (remove_append x _ Hp). now destruct p.
  - unfold Task.assign_user, Task.unassign_user, Task.set_assigned_users,
      bind, get, put, ret. rewrite Hmk. simpl.
    rewrite mem_append_same, (remove_append x _ Hk). now destruct k.
Qed.

End RelationshipLists.

(** Witness of [relationship_lists_stay_duplicate_free], with id 2: Ana
    holds project 1, Launch holds tasks 1 and 2, "Write doc" is assigned to
    user 1. *)
Lemma relationship_lists_stay_duplicate_free_witness :
  NoDup (User.projects (snd (User.add_project 2 Sample.ana))) /\
  ~ In 2 (Project.tasks (snd (Project.remove_task 2 Sample.launch))) /\
  In 2 (Task.assigned_users (snd (Task.assign_user 2 Sample.write_doc))).
Proof.
  assert (Hu : NoDup (User.projects Sample.ana)).
  { simpl. constructor; [intros [] | constructor]. }
  assert (Hp : NoDup (Project.tasks Sample.launch)).
  { simpl. constructor; [intros [Heq | []]; discriminate|].
    constructor; [intros [] | constructor]. }
  assert (Hk : NoDup (Task.assigned_users Sample.write_doc)).
  { simpl. constructor; [intros [] | constructor]. }
  destruct (@relationship_lists_stay_duplicate_free IsoText.calendar
              Sample.ana Sample.launch Sample.write_doc 2 Hu Hp Hk)
    as ((Hau & _) & _ & _ & (_ & Hrp) & (_ & Hak) & _).
  split; [exact Hau|]. split.
  - intros Hin. apply Hrp in Hin. destruct Hin as [_ Hne]. now apply Hne.
  - apply Hak. now left.
Defined.

(** Witness of [add_then_remove_restores], with id 7. *)
Lemma add_then_remove_restores_witness :
  User.remove_project 7 (snd (User.add_project 7 Sample.ana))
    = (Ok tt, Sample.ana) /\
  Project.remove_task 7 (snd (Project.add_task 7 Sample.launch))
    = (Ok tt, Sample.launch) /\
  Task.unassign_user 7 (snd (Task.assign_user 7 Sample.write_doc))
    = (Ok tt, Sample.write_doc).
Proof.
  apply (@add_then_remove_restores IsoText.calendar
           Sample.ana Sample.launch Sample.write_doc 7); simpl;
    solve [ intros [Heq | []]; discriminate
          | intros [Heq | [Heq | []]]; discriminate ].
Defined.

(** ** Lookups *)

Lemma dict_values_In {V} (d : dict V) (v : V) :
  In v (dict_values d) <-> exists k, In (k, v) d.
Proof.
  unfold dict_values. rewrite in_map_iff. split.
  - intros ([k v'] & Heq & Hin). simpl in Heq. subst. now exists k.
  - intros (k & Hin). now exists (k, v).
Qed.

Lemma dict_set_In_other {V} (d : dict V) (k k' : Z) (v v' : V) :
  k' <> k -> (In (k', v') (dict_set d k v) <-> In (k', v') d).
Proof.
  intros Hne. induction d as [|[k0 v0] d IH]; simpl.
  - split; [intros [[= -> _] | []]; contradiction | intros []].
  - destruct (Z.eqb_spec k k0) as [->|Hne0]; simpl.
    + split; (intros [[= -> _] | Hin]; [contradiction | now right]).
    + rewrite IH. tauto.
Qed.

Lemma dict_set_values_In {V} (d : dict V) (k : Z) (v : V) :
  In v (dict_values (dict_set d k v)).
Proof.
  apply dict_values_In. exists k. apply dict_get_In, dict_get_set_same.
Qed.

Section TaskLookups.
Context `{DateTimeLaws}.

Lemma valid_status_cases (s : string) :
  Task.str_in s Task.VALID_STATUSES = true ->
  s = "pending" \/ s = "in_progress" \/ s = "completed".
Proof.
  intros Hin. apply str_in_In in Hin. simpl in Hin.
  destruct Hin as [<- | [<- | [<- | []]]]; auto.
Qed.

Lemma status_partition (l : list Task.t) :
  Forall (fun task => Task.str_in (Task._status task) Task.VALID_STATUSES
                      = true) l ->
  (List.length
     (filter (fun task => String.eqb (Task._status task) "pending") l)
   + List.length
       (filter (fun task => String.eqb (Task._status task) "in_progress") l)
   + List.length
       (filter (fun task => String.eqb (Task._status task) "completed") l)
   = List.length l)%nat.
Proof.
  induction 1 as [|task l Hv _ IH]; [reflexivity|].
  cbn [filter].
  destruct (valid_status_cases _ Hv) as [-> | [-> | ->]];
    cbn [String.eqb Ascii.eqb Bool.eqb andb List.length]; simpl; lia.
Qed.

(** X8: in a registry of tasks reached through the public operations,
    [find_by_status] returns normally for each of the three valid statuses,
    the three answers together are as long as [get_all] (every registered
    task has exactly one of the three statuses), and each answer holds
    exactly the registered tasks of that status.  For any other status it
    raises the validation error, whatever the registry holds. *)
Theorem find_by_status_partitions_registry (st : Task.State) (other : string)
    (Hreach : Task.reachable st)
    (Hother : ~ In other Task.VALID_STATUSES) :
  (exists pending in_progress completed,
     Task.find_by_status st "pending" = Ok pending /\
     Task.find_by_status st "in_progress" = Ok in_progress /\
     Task.find_by_status st "completed" = Ok completed /\
     (List.length pending + List.length in_progress + List.length completed
      = List.length (Task.get_all st))%nat /\
     (forall task, In task pending <->
        In task (Task.get_all st) /\ Task.status task = "pending") /\
     (forall task, In task in_progress <->
        In task (Task.get_all st) /\ Task.status task = "in_progress") /\
     (forall task, In task completed <->
        In task (Task.get_all st) /\ Task.status task = "completed")) /\
  Task.find_by_status st other = Raise Task.invalid_status.
Proof.
  split.
  - do 3 eexists. split; [reflexivity|]. split; [reflexivity|].
    split; [reflexivity|]. split.
    + apply status_partition.
      destruct (Task_reachable_wf st Hreach) as (Hall & _).
      unfold Task.get_all. apply Forall_forall. intros task Hin.
      apply dict_values_In in Hin as (k & Hin).
      rewrite Forall_forall in Hall. apply (Hall _ Hin).
    + repeat split; intros; unfold Task.get_all, Task.status in *;
        rewrite filter_In, String.eqb_eq in *; tauto.
  - unfold Task.find_by_status. apply str_in_not_In in Hother.
    now rewrite Hother.
Qed.

(** X9: a task made by the factory is listed by [find_by_project] for its
    project and by [find_by_status] for "pending", and by [find_by_user]
    for no user. *)
Theorem created_task_is_listed now title description project_id st user_id :
  exists task st' pending,
    Task.create now title description project_id st = (Ok task, st') /\
    In task (Task.find_by_project st' project_id) /\
    Task.find_by_status st' "pending" = Ok pending /\
    In task pending /\
    ~ In task (Task.find_by_user st' user_id).
Proof.
  rewrite Task_create_returns. cbv zeta.
  do 3 eexists. split; [reflexivity|].
  split; [|split; [reflexivity|split]].
  - unfold Task.find_by_project. apply filter_In. split.
    + simpl. apply dict_set_values_In.
    + unfold Task.get_project_id. simpl. apply Z.eqb_refl.
  - apply filter_In. split; [simpl; apply dict_set_values_In | reflexivity].
  - unfold Task.find_by_user. rewrite filter_In. simpl.
    intros [_ Hmem]. discriminate.
Qed.


End TaskLookups.

(** Witness of [find_by_status_partitions_registry]: the registry after one
    factory call, and the status "bogus". *)
Lemma find_by_status_partitions_registry_witness :
  Task.find_by_status Sample.one_task "bogus" = Raise Task.invalid_status.
Proof.
  apply (@find_by_status_partitions_registry IsoText.calendar calendar_laws
           Sample.one_task "bogus").
  - eapply Task.reachable_step; [apply Task.reachable_initial|].
    apply Task.step_create.
  - simpl. intros [Heq | [Heq | [Heq | []]]]; discriminate.
Defined.


(** ** Searching by name and by title *)

Lemma lower_char_idem (c : ascii) : lower_char (lower_char c) = lower_char c.
Proof.
  destruct c as [[] [] [] [] [] [] [] []]; reflexivity.
Qed.

Lemma lower_idem (s : string) : lower (lower s) = lower s.
Proof.
  induction s as [|c s IH]; simpl; [reflexivity|].
  now rewrite lower_char_idem, IH.
Qed.

Lemma prefix_refl (s : string) : String.prefix s s = true.
Proof.
  induction s as [|c s IH]; simpl; [reflexivity|].
  destruct (ascii_dec c c); [exact IH | contradiction].
Qed.

Lemma contains_refl (s : string) : contains s s = true.
Proof.
  destruct s as [|c r]; [reflexivity|].
  cbn [contains]. now rewrite prefix_refl.
Qed.

Lemma contains_empty (hay : string) : contains "" hay = true.
Proof. destruct hay; reflexivity. Qed.

Lemma filter_all {A} (f : A -> bool) (l : list A) :
  (forall x, f x = true) -> filter f l = l.
Proof.
  intros Hf. induction l as [|x l IH]; simpl; [reflexivity|].
  now rewrite Hf, IH.
Qed.

Section NameLookups.
Context `{DateTime}.

(** X11: [User.find_by_name] lists registered users only; with the empty
    query it lists them all; it gives the same answer for a query and for
    the query in lower case; and every registered user is listed for its own
    name, also when the name is given in lower case. *)
Theorem find_by_name_is_case_insensitive (st : User.State) (query : string) :
  User.find_by_name st "" = User.get_all st /\
  User.find_by_name st (lower query) = User.find_by_name st query /\
  (forall user, In user (User.find_by_name st query) ->
                In user (User.get_all st)) /\
  (forall user, In user (User.get_all st) ->
                In user (User.find_by_name st (User.name user)) /\
                In user (User.find_by_name st (lower (User.name user)))).
Proof.
  unfold User.find_by_name, User.get_all, User.name.
  split; [|split; [|split]].
  - apply filter_all. intros user. apply contains_empty.
  - now rewrite lower_idem.
  - intros user Hin. now apply filter_In in Hin.
  - intros user Hin. rewrite !filter_In, lower_idem, contains_refl. tauto.
Qed.

(** X12: [Project.find_by_title] behaves on titles as [User.find_by_name]
    does on names. *)
Theorem find_by_title_is_case_insensitive
    (st : Project.State) (query : string) :
  Project.find_by_title st "" = Project.get_all st /\
  Project.find_by_title st (lower query) = Project.find_by_title st query /\
  (forall project, In project (Project.find_by_title st query) ->
                   In project (Project.get_all st)) /\
  (forall project, In project (Project.get_all st) ->
     In project (Project.find_by_title st (Project.title project)) /\
     In project (Project.find_by_title st (lower (Project.title project)))).
Proof.
  unfold Project.find_by_title, Project.get_all, Project.title.
  split; [|split; [|split]].
  - apply filter_all. intros project. apply contains_empty.
  - now rewrite lower_idem.
  - intros project Hin. now apply filter_In in Hin.
  - intros project Hin. rewrite !filter_In, lower_idem, contains_refl. tauto.
Qed.

End NameLookups.

(** ** Files: saving, loading and backing up *)

Section Files.
Context {R : Type}.

Lemma string_app_length (a b : string) :
  String.length (a ++ b)%string = (String.length a + String.length b)%nat.
Proof. induction a as [|c a IH]; simpl; [reflexivity | now rewrite IH]. Qed.

Lemma path_join_injective (a b : string) :
  FileHandler.path_join FileHandler.DATA_DIR a
  = FileHandler.path_join FileHandler.DATA_DIR b -> a = b.
Proof. unfold FileHandler.path_join. simpl. now intros [= ->]. Qed.

Lemma backup_path_differs (filename : string) :
  FileHandler.path_join FileHandler.DATA_DIR (filename ++ ".backup")%string
  <> FileHandler.path_join FileHandler.DATA_DIR filename.
Proof.
  intros Heq. apply path_join_injective in Heq.
  apply (f_equal String.length) in Heq.
  rewrite string_app_length in Heq. simpl in Heq. lia.
Qed.

(** Computing a path, with a data directory that exists or can be created:
    the directory exists afterwards and every path holds what it held. *)
Lemma get_file_path_keeps (filename : string) (d : FileHandler.Disk R) :
  FileHandler.dir_exists d || FileHandler.makedirs_ok d = true ->
  exists d',
    FileHandler.get_file_path filename d
      = (Ok (FileHandler.path_join FileHandler.DATA_DIR filename), d') /\
    FileHandler.dir_exists d' = true /\
    FileHandler.write_fault d' = FileHandler.write_fault d /\
    (forall p, FileHandler.stat d' p = FileHandler.stat d p) /\
    (forall p, FileHandler.files d' p = FileHandler.stat d p).
Proof.
  intros Hdir.
  unfold FileHandler.get_file_path, FileHandler.ensure_data_dir,
    FileHandler.makedirs, FileHandler.stat, bind, get, ret.
  destruct (FileHandler.dir_exists d) eqn:Hex; simpl in *.
  - exists d. rewrite Hex. auto.
  - rewrite Hdir. eexists. split; [reflexivity|]. simpl. auto.
Qed.

Lemma load_data_eq (filename : string) (d : FileHandler.Disk R) :
  FileHandler.dir_exists d = true ->
  FileHandler.load_data filename d
  = (Ok match FileHandler.files d
                (FileHandler.path_join FileHandler.DATA_DIR filename) with
        | FileHandler.Document data => data
        | _ => []
        end, d).
Proof.
  intros Hex.
  unfold FileHandler.load_data, FileHandler.get_file_path,
    FileHandler.ensure_data_dir, FileHandler.stat, bind, get, ret.
  rewrite Hex. simpl. rewrite Hex.
  destruct (FileHandler.files d _); reflexivity.
Qed.

Lemma load_data_fst (filename : string) (d : FileHandler.Disk R) :
  FileHandler.dir_exists d || FileHandler.makedirs_ok d = true ->
  fst (FileHandler.load_data filename d)
  = Ok match FileHandler.stat d
               (FileHandler.path_join FileHandler.DATA_DIR filename) with
       | FileHandler.Document data => data
       | _ => []
       end.
Proof.
  intros Hdir. unfold FileHandler.load_data, bind.
  destruct (get_file_path_keeps filename d Hdir)
    as (d' & -> & _ & _ & Hstat & _).
  unfold get. rewrite Hstat.
  destruct (FileHandler.stat d _); reflexivity.
Qed.

(** X13: when a save can go through, whatever the file held before,
    [save_data] returns [True], the file then holds the records saved, and
    a following [load_data] of the file returns them and leaves the disk
    as it is. *)
Theorem save_data_then_load_data_roundtrip
    (filename : string) (data : list R) (d : FileHandler.Disk R)
    (Hsave : FileHandler.can_save d filename) :
  exists d',
    FileHandler.save_data filename data d = (Ok true, d') /\
    FileHandler.stat d' (FileHandler.path_join FileHandler.DATA_DIR filename)
    = FileHandler.Document data /\
    FileHandler.load_data filename d' = (Ok data, d').
Proof.
  destruct Hsave as (Hdir & Hw).
  unfold FileHandler.save_data, bind.
  destruct (get_file_path_keeps filename d Hdir)
    as (d1 & -> & Hex & Hwf & Hstat & Hfiles).
  unfold get, put, ret. rewrite Hwf, Hw. simpl.
  eexists. split; [reflexivity|]. split.
  - unfold FileHandler.stat, FileHandler.write. simpl.
    now rewrite Hex, String.eqb_refl.
  - rewrite load_data_eq by exact Hex. simpl. now rewrite String.eqb_refl.
Qed.

(** X14: when the data directory exists or can be created and the write
    meets a fault, [save_data] returns [False].  If the file could not be
    opened, a following [load_data] returns what it returned before; if
    the dump failed after the file was opened, the file's previous
    contents are lost and a following [load_data] returns [[]]. *)
Theorem failed_save_reports_false
    (filename : string) (data : list R) (d : FileHandler.Disk R)
    (fault : FileHandler.WriteFault)
    (Hdir : FileHandler.dir_exists d || FileHandler.makedirs_ok d = true)
    (Hfault : FileHandler.write_fault d
                (FileHandler.path_join FileHandler.DATA_DIR filename)
              = Some fault) :
  exists d',
    FileHandler.save_data filename data d = (Ok false, d') /\
    fst (FileHandler.load_data filename d')
    = match fault with
      | FileHandler.OpenFails => fst (FileHandler.load_data filename d)
      | FileHandler.DumpFails => Ok []
      end.
Proof.
  unfold FileHandler.save_data, bind.
  destruct (get_file_path_keeps filename d Hdir)
    as (d1 & -> & Hex & Hwf & Hstat & Hfiles).
  unfold get, put, ret. rewrite Hwf, Hfault.
  destruct fault; simpl; eexists; (split; [reflexivity|]).
  - rewrite (load_data_fst filename d Hdir).
    rewrite load_data_eq by exact Hex. simpl. now rewrite Hfiles.
  - rewrite load_data_eq by exact Hex. simpl. now rewrite String.eqb_refl.
Qed.

(** X15: with a data directory that exists or can be created,
    [backup_data] never raises and leaves the file itself as it was.  When
    it returns a name, the name is the file's name followed by ".backup",
    the file was there, the backup holds what the file holds, and loading
    the backup gives what loading the file gives.  It returns [None] only
    when the file is absent or unreadable or the write of the backup meets
    a fault. *)
Theorem backup_data_copies_the_file
    (filename : string) (d : FileHandler.Disk R)
    (Hdir : FileHandler.dir_exists d || FileHandler.makedirs_ok d = true) :
  let path := FileHandler.path_join FileHandler.DATA_DIR filename in
  let backup_name := (filename ++ ".backup")%string in
  let backup_path := FileHandler.path_join FileHandler.DATA_DIR backup_name in
  exists r d',
    FileHandler.backup_data filename d = (Ok r, d') /\
    FileHandler.stat d' path = FileHandler.stat d path /\
    match r with
    | Some name =>
        name = backup_name /\
        FileHandler.stat d path <> FileHandler.Absent /\
        FileHandler.stat d' backup_path = FileHandler.stat d path /\
        fst (FileHandler.load_data name d')
        = fst (FileHandler.load_data filename d)
    | None =>
        FileHandler.stat d path = FileHandler.Absent \/
        FileHandler.stat d path = FileHandler.Unreadable \/
        FileHandler.write_fault d backup_path <> None
    end.
Proof.
  unfold FileHandler.backup_data, bind. cbv zeta.
  set (backup_name := (filename ++ ".backup")%string).
  set (path := FileHandler.path_join FileHandler.DATA_DIR filename).
  set (backup_path := FileHandler.path_join FileHandler.DATA_DIR backup_name).
  destruct (get_file_path_keeps filename d Hdir)
    as (d1 & -> & Hex & Hwf & Hstat & Hfiles).
  fold path. unfold get at 1. rewrite (Hstat path).
  assert (Hdir1 : FileHandler.dir_exists d1 || FileHandler.makedirs_ok d1
                  = true) by (now rewrite Hex).
  assert (Hpath1 : FileHandler.get_file_path backup_name d1
                   = (Ok backup_path, d1)).
  { unfold FileHandler.get_file_path, FileHandler.ensure_data_dir, bind, get,
      ret. now rewrite Hex. }
  assert (Hneq : String.eqb path backup_path = false).
  { apply String.eqb_neq. intros Heq. symmetry in Heq.
    now apply backup_path_differs in Heq. }
  assert (Hcopy : forall src,
            FileHandler.stat d path = src ->
            src <> FileHandler.Absent ->
            src <> FileHandler.Unreadable ->
            FileHandler.write_fault d backup_path = None ->
            exists d',
              FileHandler.copy2 path backup_path d1 = (Ok (Some tt), d') /\
              FileHandler.dir_exists d' = true /\
              FileHandler.files d' backup_path = src /\
              FileHandler.files d' path = src).
  { intros src Hsrc Habs Hunr Hnone.
    unfold FileHandler.copy2, bind, get, put, ret.
    rewrite (Hstat path), Hsrc, Hwf, Hnone.
    destruct src; try contradiction; eexists;
      (split; [reflexivity|]);
      cbn [FileHandler.dir_exists FileHandler.files FileHandler.write];
      rewrite String.eqb_refl, Hneq, Hfiles, Hsrc; auto. }
  destruct (FileHandler.stat d path) as [| | |data] eqn:Hsrc.
  - exists None, d1. split; [reflexivity|]. rewrite (Hstat path). auto.
  - rewrite Hpath1. unfold FileHandler.copy2, bind, get, ret.
    rewrite (Hstat path), Hsrc. exists None, d1.
    split; [reflexivity|]. rewrite (Hstat path). auto.
  - rewrite Hpath1.
    destruct (FileHandler.write_fault d backup_path) as [fault|] eqn:Hf.
    + unfold FileHandler.copy2, bind, get, put, ret.
      rewrite (Hstat path), Hsrc, Hwf, Hf.
      destruct fault; eexists None, _; (split; [reflexivity|]);
        (split; [|right; right; discriminate]).
      * rewrite (Hstat path). exact Hsrc.
      * unfold FileHandler.stat.
        cbn [FileHandler.dir_exists FileHandler.files FileHandler.write].
        rewrite Hex, Hneq, Hfiles. exact Hsrc.
    + destruct (Hcopy _ eq_refl) as (d' & -> & Hex' & Hb & Hp);
        try discriminate; [reflexivity|].
      exists (Some backup_name), d'. split; [reflexivity|].
      unfold FileHandler.stat. rewrite Hex', Hp, Hb.
      split; [reflexivity|]. split; [reflexivity|].
      split; [discriminate|]. split; [reflexivity|].
      rewrite (load_data_fst filename d Hdir). fold path. rewrite Hsrc.
      rewrite load_data_eq by exact Hex'. fold backup_path. now rewrite Hb.
  - rewrite Hpath1.
    destruct (FileHandler.write_fault d backup_path) as [fault|] eqn:Hf.
    + unfold FileHandler.copy2, bind, get, put, ret.
      rewrite (Hstat path), Hsrc, Hwf, Hf.
      destruct fault; eexists None, _; (split; [reflexivity|]);
        (split; [|right; right; discriminate]).
      * rewrite (Hstat path). exact Hsrc.
      * unfold FileHandler.stat.
        cbn [FileHandler.dir_exists FileHandler.files FileHandler.write].
        rewrite Hex, Hneq, Hfiles. exact Hsrc.
    + destruct (Hcopy _ eq_refl) as (d' & -> & Hex' & Hb & Hp);
        try discriminate; [reflexivity|].
      exists (Some backup_name), d'. split; [reflexivity|].
      unfold FileHandler.stat. rewrite Hex', Hp, Hb.
      split; [reflexivity|]. split; [reflexivity|].
      split; [discriminate|]. split; [reflexivity|].
      rewrite (load_data_fst filename d Hdir). fold path. rewrite Hsrc.
      rewrite load_data_eq by exact Hex'. fold backup_path. now rewrite Hb.
Qed.

End Files.

(** Witness of [save_data_then_load_data_roundtrip]: Ana's record saved to
    [users.json] over a document that does not parse. *)
Lemma save_data_then_load_data_roundtrip_witness :
  let d := Sample.disk_with "data/users.json" FileHandler.Malformed in
  let data := [Sample.user_record 1 "Ana" "ana@x.com"] in
  exists d',
    FileHandler.save_data "users.json" data d = (Ok true, d') /\
    FileHandler.stat d' "data/users.json" = FileHandler.Document data /\
    FileHandler.load_data "users.json" d' = (Ok data, d').
Proof.
  intros d data.
  apply (save_data_then_load_data_roundtrip "users.json" data d).
  split; reflexivity.
Defined.

(** Witness of [failed_save_reports_false]: the dump fails. *)
Lemma failed_save_reports_false_witness :
  let d := @Sample.disk_failing User.record FileHandler.DumpFails in
  exists d',
    FileHandler.save_data "users.json"
      [Sample.user_record 1 "Ana" "ana@x.com"] d = (Ok false, d') /\
    fst (FileHandler.load_data "users.json" d') = Ok [].
Proof.
  intros d.
  apply (failed_save_reports_false "users.json"
           [Sample.user_record 1 "Ana" "ana@x.com"] d FileHandler.DumpFails);
    reflexivity.
Defined.

(** Witness of [backup_data_copies_the_file]: a data directory that holds
    Ana's record in [users.json]. *)
Lemma backup_data_copies_the_file_witness :
  let doc := FileHandler.Document [Sample.user_record 1 "Ana" "ana@x.com"] in
  let d := Sample.disk_with "data/users.json" doc in
  exists r d',
    FileHandler.backup_data "users.json" d = (Ok r, d') /\
    FileHandler.stat d' "data/users.json" = doc /\
    r = Some "users.json.backup" /\
    FileHandler.stat d' "data/users.json.backup" = doc.
Proof.
  intros doc d.
  destruct (backup_data_copies_the_file "users.json" d eq_refl)
    as (r & d' & Hrun & Hkeep & Hr).
  exists r, d'. split; [exact Hrun|]. split; [exact Hkeep|].
  destruct r as [name|].
  - destruct Hr as (-> & _ & Hcopy & _). split; [reflexivity | exact Hcopy].
  - exfalso. destruct Hr as [Hr | [Hr | Hr]];
      [discriminate Hr | discriminate Hr | now apply Hr].
Defined.

(** ** Registries reached through the public operations *)

Lemma dict_values_ids {V} (f : V -> Z) (d : dict V) :
  Forall (fun e => f (snd e) = fst e) d ->
  map f (dict_values d) = dict_keys d.
Proof.
  induction 1 as [|[k v] d Hk _ IH]; simpl; [reflexivity|].
  simpl in Hk. now rewrite Hk, IH.
Qed.

Section Consistency.
Context `{DateTimeLaws}.

(** X16: in registries reached through the public operations (explicit
    ids included), every entity found by [find_by_id] carries the id it was
    looked up with, an id other than 0, and a creation stamp that is not
    empty (and a task a valid status); [get_all] lists no two entities with
    the same id; and every entity [get_all] lists is found by [find_by_id]
    under its id. *)
Theorem reachable_registries_are_consistent
    (ust : User.State) (pst : Project.State) (tst : Task.State)
    (Hu : User.reachable ust)
    (Hp : Project.reachable pst)
    (Ht : Task.reachable tst) :
  ((forall id user, User.find_by_id ust id = Some user ->
      User.user_id user = id /\ id <> 0 /\ User.created_at user <> "") /\
   NoDup (map User.user_id (User.get_all ust)) /\
   (forall user, In user (User.get_all ust) ->
      User.find_by_id ust (User.user_id user) = Some user)) /\
  ((forall id project, Project.find_by_id pst id = Some project ->
      Project.project_id project = id /\ id <> 0 /\
      Project.created_at project <> "") /\
   NoDup (map Project.project_id (Project.get_all pst)) /\
   (forall project, In project (Project.get_all pst) ->
      Project.find_by_id pst (Project.project_id project) = Some project)) /\
  ((forall id task, Task.find_by_id tst id = Some task ->
      Task.task_id task = id /\ id <> 0 /\ Task.created_at task <> "" /\
      In (Task.status task) Task.VALID_STATUSES) /\
   NoDup (map Task.task_id (Task.get_all tst)) /\
   (forall task, In task (Task.get_all tst) ->
      Task.find_by_id tst (Task.task_id task) = Some task)).
Proof.
  split; [|split].
  - destruct (User_reachable_wf ust Hu) as (Hall & Hnd & _).
    assert (Hids : Forall (fun e => User.user_id (snd e) = fst e)
                          (User._all_users ust)).
    { eapply Forall_impl; [|exact Hall]. intros e He. apply He. }
    split; [|split].
    + intros id user Hfind. apply dict_get_In in Hfind.
      rewrite Forall_forall in Hall. apply (Hall _ Hfind).
    + unfold User.get_all. now rewrite (dict_values_ids _ _ Hids).
    + intros user Hin. apply dict_values_In in Hin as (k & Hin).
      rewrite Forall_forall in Hids. pose proof (Hids _ Hin) as Hk.
      simpl in Hk. rewrite Hk. now apply dict_In_get.
  - destruct (Project_reachable_wf pst Hp) as (Hall & Hnd & _).
    assert (Hids : Forall (fun e => Project.project_id (snd e) = fst e)
                          (Project._all_projects pst)).
    { eapply Forall_impl; [|exact Hall]. intros e He. apply He. }
    split; [|split].
    + intros id project Hfind. apply dict_get_In in Hfind.
      rewrite Forall_forall in Hall. apply (Hall _ Hfind).
    + unfold Project.get_all. now rewrite (dict_values_ids _ _ Hids).
    + intros project Hin. apply dict_values_In in Hin as (k & Hin).
      rewrite Forall_forall in Hids. pose proof (Hids _ Hin) as Hk.
      simpl in Hk. rewrite Hk. now apply dict_In_get.
  - destruct (Task_reachable_wf tst Ht) as (Hall & Hnd & _).
    assert (Hids : Forall (fun e => Task.task_id (snd e) = fst e)
                          (Task._all_tasks tst)).
    { eapply Forall_impl; [|exact Hall]. intros e He. apply He. }
    split; [|split].
    + intros id task Hfind. apply dict_get_In in Hfind.
      rewrite Forall_forall in Hall.
      destruct (Hall _ Hfind) as (Hid & Hne & Hc & Hs).
      repeat split; try assumption. now apply str_in_In.
    + unfold Task.get_all. now rewrite (dict_values_ids _ _ Hids).
    + intros task Hin. apply dict_values_In in Hin as (k & Hin).
      rewrite Forall_forall in Hids. pose proof (Hids _ Hin) as Hk.
      simpl in Hk. rewrite Hk. now apply dict_In_get.
Qed.

End Consistency.

Section FactoryIds.
Context `{DateTime}.

Lemma User_create_counter_ahead now name email st :
  User.counter_ahead st ->
  User.counter_ahead (snd (User.create now name email st)).
Proof.
  intros Hahead. rewrite User_create_returns. cbv zeta.
  unfold User.counter_ahead in *. simpl.
  rewrite Forall_forall in *. intros k Hk.
  apply dict_keys_set_In in Hk. destruct Hk as [->|Hk]; [lia|].
  specialize (Hahead k Hk). lia.
Qed.

Lemma User_store_counter_ahead key self new st :
  User.find_by_id st key = Some self ->
  User.counter_ahead st ->
  User.counter_ahead (User.store key new st).
Proof.
  intros Hfind Hahead. unfold User.counter_ahead in *. simpl.
  rewrite Forall_forall in *. intros k Hk.
  apply dict_keys_set_In in Hk. destruct Hk as [->|Hk]; [|now apply Hahead].
  apply Hahead. apply dict_get_In in Hfind.
  change key with (fst (key, self)). now apply in_map.
Qed.

Lemma User_load_all_counter_ahead now d st :
  User.counter_ahead st ->
  User.counter_ahead (snd (snd (User.load_all now (d, st)))).
Proof.
  intros Hahead. rewrite User_load_all_unfold.
  destruct (FileHandler.load_data "users.json" d) as [[data|e] d'];
    [|exact Hahead].
  pose proof (User_reload_counter now data st) as Hc.
  destruct (User.reload now data st) as [r st']. simpl in *.
  unfold User.counter_ahead, User.counter_past_ids in *.
  apply Forall_forall. intros k Hk. rewrite Hc.
  apply max_id_bounds in Hk. lia.
Qed.

Lemma User_save_all_keeps d st : snd (snd (User.save_all (d, st))) = st.
Proof.
  rewrite User_save_all_unfold.
  destruct (FileHandler.save_data _ _ d) as [[b|e] d']; reflexivity.
Qed.

Lemma User_reachable_auto_counter_ahead st :
  User.reachable_auto st -> User.counter_ahead st.
Proof.
  induction 1 as [|st st' _ IH Hstep].
  - constructor.
  - destruct Hstep.
    + now apply User_create_counter_ahead.
    + eapply User_store_counter_ahead; eassumption.
    + now apply User_load_all_counter_ahead.
    + now rewrite User_save_all_keeps.
Qed.

(** X17: as long as the constructor is never called with an explicit id
    (the registry is reached through the factory, the methods, [load_all]
    and [save_all]), the counter is above every registered id, and the
    factory gives the new user an id that no registered user has: every
    user found before is found unchanged, and [get_all] lists the users it
    listed, in the same order, followed by the new one. *)
Theorem factory_ids_are_fresh (st : User.State) now name email
    (Hreach : User.reachable_auto st) :
  exists self st',
    User.create now name email st = (Ok self, st') /\
    User.user_id self = User._next_id st /\
    User.find_by_id st (User.user_id self) = None /\
    User.find_by_id st' (User.user_id self) = Some self /\
    User.get_all st' = User.get_all st ++ [self] /\
    (forall id user, User.find_by_id st id = Some user ->
                     User.find_by_id st' id = Some user) /\
    User.reachable_auto st'.
Proof.
  pose proof (User_reachable_auto_counter_ahead st Hreach) as Hahead.
  assert (Hfresh : ~ In (User._next_id st) (dict_keys (User._all_users st))).
  { intros Hin. unfold User.counter_ahead in Hahead.
    rewrite Forall_forall in Hahead. specialize (Hahead _ Hin). lia. }
  assert (Hstep : User.reachable_auto (snd (User.create now name email st))).
  { eapply User.reachable_auto_step; [exact Hreach|]. apply User.auto_create. }
  revert Hstep. rewrite User_create_returns. cbv zeta. intros Hstep.
  do 2 eexists. split; [reflexivity|]. simpl.
  split; [reflexivity|]. split; [now apply dict_get_None|].
  split; [apply dict_get_set_same|]. split; [|split; [|exact Hstep]].
  - unfold User.get_all. simpl. rewrite (dict_set_fresh _ _ _ Hfresh).
    unfold dict_values. now rewrite map_app.
  - intros id user Hfind. unfold User.find_by_id in *. simpl.
    rewrite dict_get_set_other; [exact Hfind|].
    intros ->. now rewrite (dict_get_None _ _ Hfresh) in Hfind.
Qed.

End FactoryIds.

(** Witness of [reachable_registries_are_consistent]: the registries after
    one factory call each. *)
Lemma reachable_registries_are_consistent_witness :
  NoDup (map User.user_id (User.get_all Sample.one_user)) /\
  NoDup (map Project.project_id (Project.get_all Sample.one_project)) /\
  NoDup (map Task.task_id (Task.get_all Sample.one_task)).
Proof.
  destruct (@reachable_registries_are_consistent IsoText.calendar
              calendar_laws Sample.one_user Sample.one_project
              Sample.one_task)
    as ((_ & Hu & _) & (_ & Hp & _) & (_ & Ht & _)).
  - eapply User.reachable_step; [apply User.reachable_initial|].
    apply User.step_create.
  - eapply Project.reachable_step; [apply Project.reachable_initial|].
    apply Project.step_create.
  - eapply Task.reachable_step; [apply Task.reachable_initial|].
    apply Task.step_create.
  - now repeat split.
Defined.

(** Witness of [factory_ids_are_fresh]: a second user after Ana. *)
Lemma factory_ids_are_fresh_witness :
  exists self st',
    User.create IsoText.noon "Bob" "bob@x.com" Sample.one_user
      = (Ok self, st') /\
    User.user_id self = User._next_id Sample.one_user /\
    User.find_by_id Sample.one_user (User.user_id self) = None /\
    User.find_by_id st' (User.user_id self) = Some self /\
    User.get_all st' = User.get_all Sample.one_user ++ [self] /\
    (forall id user, User.find_by_id Sample.one_user id = Some user ->
                     User.find_by_id st' id = Some user) /\
    User.reachable_auto st'.
Proof.
  apply (@factory_ids_are_fresh IsoText.calendar Sample.one_user
           IsoText.noon "Bob" "bob@x.com").
  eapply User.reachable_auto_step; [apply User.reachable_auto_initial|].
  apply User.auto_create.
Defined.

(** ** More on loading and saving registries *)

Section LoadEdges.
Context `{DateTime}.

(** X18: in a load of complete records, the last record decides what is
    registered under its id, whatever records with the same id came before
    it: the user found there has the record's name, email and projects.
    The id is the record's, unless the record's id is 0; then it is taken
    from the counter, which ends one above it. *)
Theorem load_all_last_record_wins
    now (d d' : FileHandler.Disk User.record) (st : User.State)
    (data : list User.record) (r : User.record)
    (Hdoc : FileHandler.load_data "users.json" d = (Ok (data ++ [r]), d'))
    (Hcomplete : forallb User.complete (data ++ [r]) = true) :
  exists st' user,
    User.load_all now (d, st) = (Ok tt, (d', st')) /\
    User.find_by_id st' (User.user_id user) = Some user /\
    User.j_name r = Some (User.name user) /\
    User.j_email r = Some (User.email user) /\
    User.projects user = get_default (User.j_projects r) [] /\
    (forall i, User.j_user_id r = Some i -> i <> 0 -> User.user_id user = i) /\
    (User.j_user_id r = Some 0 ->
       1 <= User.user_id user /\ User._next_id st' = User.user_id user + 1).
Proof.
  rewrite forallb_app in Hcomplete. apply andb_prop in Hcomplete as [Hd Hr].
  simpl in Hr. rewrite andb_true_r in Hr.
  destruct (User_load_loop_complete now data Hd User.initial)
    as (st1 & Hrun & _).
  assert (Hnext : 1 <= User._next_id st1).
  { pose proof (User_reload_counter now data st) as Hc.
    rewrite User_reload_unfold, Hrun in Hc. simpl in Hc.
    unfold User.counter_past_ids in Hc. rewrite Hc.
    assert (0 <= User.max_id (dict_keys (User._all_users st1))); [|lia].
    unfold User.max_id. clear.
    induction (dict_keys (User._all_users st1)) as [|x l IH]; simpl; lia. }
  pose proof (User_load_one_complete now r st1 Hr) as Hone. cbv zeta in Hone.
  set (user := User.built now r (User._next_id st1)) in *.
  eexists. exists user. split; [|split].
  - rewrite User_load_all_unfold, Hdoc, User_reload_unfold, for_each_app,
      Hrun. simpl. unfold bind. rewrite Hone. reflexivity.
  - unfold User.find_by_id. simpl. apply dict_get_set_same.
  - destruct r as [[i|] [n|] [e|] c p]; try discriminate.
    subst user. unfold User.built, User.name, User.email.
    cbn [User.j_user_id User.j_name User.j_email User.j_projects get_default
         User._name User._email User.projects User.user_id User._next_id].
    split; [reflexivity|]. split; [reflexivity|]. split; [reflexivity|].
    split.
    + intros i' [= <-] Hne. destruct (Z.eqb_spec i 0); [contradiction|].
      reflexivity.
    + intros [= ->]. cbn [Z.eqb]. split; [exact Hnext | lia].
Qed.

Lemma load_data_unusable {R} (filename : string) (d : FileHandler.Disk R) :
  FileHandler.dir_exists d || FileHandler.makedirs_ok d = true ->
  (forall data, FileHandler.stat d
                  (FileHandler.path_join FileHandler.DATA_DIR filename)
                <> FileHandler.Document data) ->
  exists d', FileHandler.load_data filename d = (Ok [], d').
Proof.
  intros Hdir Hnodoc.
  destruct (load_data_returns filename d Hdir) as (data & d' & Hload & Hdata).
  exists d'. rewrite Hload.
  destruct (FileHandler.stat d _) as [| | |doc] eqn:Hs; subst; try reflexivity.
  exfalso. now apply (Hnodoc doc).
Qed.

(** X19: when the data directory exists or can be created and the data
    file is absent, unreadable or not valid JSON, [load_all] returns
    normally and leaves the registry empty with its counter at 1: whatever
    the registry held is dropped.  This holds for users, projects and
    tasks. *)
Theorem load_all_without_document_empties_registry
    now
    (ud : FileHandler.Disk User.record) (ust : User.State)
    (pd : FileHandler.Disk Project.record) (pst : Project.State)
    (td : FileHandler.Disk Task.record) (tst : Task.State)
    (Hud : FileHandler.dir_exists ud || FileHandler.makedirs_ok ud = true)
    (Hpd : FileHandler.dir_exists pd || FileHandler.makedirs_ok pd = true)
    (Htd : FileHandler.dir_exists td || FileHandler.makedirs_ok td = true)
    (Hu : forall data,
        FileHandler.stat ud "data/users.json" <> FileHandler.Document data)
    (Hp : forall data,
        FileHandler.stat pd "data/projects.json" <> FileHandler.Document data)
    (Ht : forall data,
        FileHandler.stat td "data/tasks.json" <> FileHandler.Document data) :
  (exists ud', User.load_all now (ud, ust) = (Ok tt, (ud', User.initial))) /\
  (exists pd',
     Project.load_all now (pd, pst) = (Ok tt, (pd', Project.initial))) /\
  (exists td', Task.load_all now (td, tst) = (Ok tt, (td', Task.initial))).
Proof.
  split; [|split].
  - destruct (load_data_unusable "users.json" ud Hud Hu) as (ud' & Hload).
    exists ud'. unfold User.load_all, bind, on_fst, on_snd. simpl.
    now rewrite Hload.
  - destruct (load_data_unusable "projects.json" pd Hpd Hp) as (pd' & Hload).
    exists pd'. unfold Project.load_all, bind, on_fst, on_snd. simpl.
    now rewrite Hload.
  - destruct (load_data_unusable "tasks.json" td Htd Ht) as (td' & Hload).
    exists td'. unfold Task.load_all, bind, on_fst, on_snd. simpl.
    now rewrite Hload.
Qed.

(** X20: when the data directory exists or can be created, [save_all]
    returns normally and leaves the registry as it is, whether the write
    went through or not: the boolean of [save_data], which is [True]
    exactly when the write met no fault, is dropped.  This holds for users,
    projects and tasks. *)
Theorem save_all_drops_the_outcome
    (ud : FileHandler.Disk User.record) (ust : User.State)
    (pd : FileHandler.Disk Project.record) (pst : Project.State)
    (td : FileHandler.Disk Task.record) (tst : Task.State)
    (Hud : FileHandler.dir_exists ud || FileHandler.makedirs_ok ud = true)
    (Hpd : FileHandler.dir_exists pd || FileHandler.makedirs_ok pd = true)
    (Htd : FileHandler.dir_exists td || FileHandler.makedirs_ok td = true) :
  (exists b ud',
     FileHandler.save_data "users.json"
       (map User.to_dict (User.get_all ust)) ud = (Ok b, ud') /\
     (b = true <-> FileHandler.write_fault ud "data/users.json" = None) /\
     User.save_all (ud, ust) = (Ok tt, (ud', ust))) /\
  (exists b pd',
     FileHandler.save_data "projects.json"
       (map Project.to_dict (Project.get_all pst)) pd = (Ok b, pd') /\
     (b = true <-> FileHandler.write_fault pd "data/projects.json" = None) /\
     Project.save_all (pd, pst) = (Ok tt, (pd', pst))) /\
  (exists b td',
     FileHandler.save_data "tasks.json"
       (map Task.to_dict (Task.get_all tst)) td = (Ok b, td') /\
     (b = true <-> FileHandler.write_fault td "data/tasks.json" = None) /\
     Task.save_all (td, tst) = (Ok tt, (td', tst))).
Proof.
  assert (Hsave : forall R (filename : string) (data : list R)
                         (d : FileHandler.Disk R),
             FileHandler.dir_exists d || FileHandler.makedirs_ok d = true ->
             exists b d',
               FileHandler.save_data filename data d = (Ok b, d') /\
               (b = true <->
                FileHandler.write_fault d
                  (FileHandler.path_join FileHandler.DATA_DIR filename)
                = None)).
  { intros R filename data d Hdir. unfold FileHandler.save_data, bind.
    destruct (get_file_path_keeps filename d Hdir)
      as (d1 & -> & _ & Hwf & _).
    unfold get, put, ret. rewrite Hwf.
    destruct (FileHandler.write_fault d _) as [[|]|]; simpl;
      do 2 eexists; (split; [reflexivity|]); split; congruence. }
  split; [|split].
  - destruct (Hsave _ "users.json" (map User.to_dict (User.get_all ust))
                ud Hud) as (b & ud' & Hrun & Hb).
    exists b, ud'. split; [exact Hrun|]. split; [exact Hb|].
    rewrite User_save_all_unfold. unfold User.get_all in Hrun.
    now rewrite Hrun.
  - destruct (Hsave _ "projects.json"
                (map Project.to_dict (Project.get_all pst)) pd Hpd)
      as (b & pd' & Hrun & Hb).
    exists b, pd'. split; [exact Hrun|]. split; [exact Hb|].
    unfold Project.save_all, bind, on_fst, on_snd, get, ret. simpl.
    unfold Project.get_all in Hrun. now rewrite Hrun.
  - destruct (Hsave _ "tasks.json" (map Task.to_dict (Task.get_all tst))
                td Htd) as (b & td' & Hrun & Hb).
    exists b, td'. split; [exact Hrun|]. split; [exact Hb|].
    unfold Task.save_all, bind, on_fst, on_snd, get, ret. simpl.
    unfold Task.get_all in Hrun. now rewrite Hrun.
Qed.

End LoadEdges.

(** Witness of [load_all_last_record_wins]: two records with id 1, the
    second named Di. *)
Lemma load_all_last_record_wins_witness :
  let doc := [Sample.user_record 1 "Ana" "ana@x.com";
              Sample.user_record 1 "Di" "di@x.com"] in
  let d := Sample.disk_with "data/users.json" (FileHandler.Document doc) in
  exists st' user,
    User.load_all IsoText.noon (d, User.initial) = (Ok tt, (d, st')) /\
    User.find_by_id st' (User.user_id user) = Some user /\
    Some "Di" = Some (User.name user) /\
    User.user_id user = 1.
Proof.
  intros doc d.
  destruct (@load_all_last_record_wins IsoText.calendar IsoText.noon d d
              User.initial [Sample.user_record 1 "Ana" "ana@x.com"]
              (Sample.user_record 1 "Di" "di@x.com") eq_refl eq_refl)
    as (st' & user & Hload & Hfind & Hname & _ & _ & Hid & _).
  exists st', user. split; [exact Hload|]. split; [exact Hfind|].
  split; [exact Hname|]. apply Hid; [reflexivity | discriminate].
Defined.

(** Witness of [load_all_without_document_empties_registry]: the registries
    after one factory call each, and an empty data directory. *)
Lemma load_all_without_document_empties_registry_witness :
  let ud := Sample.disk_with "data/users.json" FileHandler.Absent in
  let pd := Sample.disk_with "data/projects.json" FileHandler.Malformed in
  let td := Sample.disk_with "data/tasks.json" FileHandler.Unreadable in
  (exists ud', User.load_all IsoText.noon (ud, Sample.one_user)
               = (Ok tt, (ud', User.initial))) /\
  (exists pd', Project.load_all IsoText.noon (pd, Sample.one_project)
               = (Ok tt, (pd', Project.initial))) /\
  (exists td', Task.load_all IsoText.noon (td, Sample.one_task)
               = (Ok tt, (td', Task.initial))).
Proof.
  intros ud pd td.
  apply (@load_all_without_document_empties_registry IsoText.calendar
           IsoText.noon ud Sample.one_user pd Sample.one_project
           td Sample.one_task);
    try reflexivity; intros data; discriminate.
Defined.

(** Witness of [save_all_drops_the_outcome]: every write fails on opening
    the file. *)
Lemma save_all_drops_the_outcome_witness :
  let ud := @Sample.disk_failing User.record FileHandler.OpenFails in
  exists b ud',
    FileHandler.save_data "users.json"
      (map User.to_dict (User.get_all Sample.one_user)) ud = (Ok b, ud') /\
    (b = true <-> FileHandler.write_fault ud "data/users.json" = None) /\
    User.save_all (ud, Sample.one_user) = (Ok tt, (ud', Sample.one_user)).
Proof.
  intros ud.
  destruct (@save_all_drops_the_outcome IsoText.calendar
              ud Sample.one_user
              (@Sample.disk_failing Project.record FileHandler.OpenFails)
              Sample.one_project
              (@Sample.disk_failing Task.record FileHandler.OpenFails)
              Sample.one_task eq_refl eq_refl eq_refl)
    as (Hu & _).
  exact Hu.
Defined.

(** ** More on constructors and deserialization *)

Section Constructors.
Context `{DateTime}.

(** X21: constructing a project from a due date that the parser rejects,
    without an explicit id, raises what the parser raised for that string,
    after the counter has moved on by one and before anything is
    registered.  The next [create] with a date the parser accepts gets the
    id after the consumed one, holds the parsed date and no tasks, is found
    under its id, and is listed by [find_by_user] for its owner. *)
Theorem failed_project_construction_consumes_id
    now title description (due_date : string) user_id tasks created_at
    now' title' description' (good_date : string) user_id' due st
    (Hbad : parse due_date = None)
    (Hgood : parse good_date = Some due) :
  exists st1,
    Project.__init__ now title description (inl due_date) user_id None tasks
                     created_at st
      = (Raise (parse_error due_date), st1) /\
    Project._next_id st1 = Project._next_id st + 1 /\
    Project.get_all st1 = Project.get_all st /\
    exists project st2,
      Project.create now' title' description' good_date user_id' st1
        = (Ok project, st2) /\
      Project.project_id project = Project._next_id st + 1 /\
      Project.due_date project = due /\
      Project.tasks project = [] /\
      Project.find_by_id st2 (Project.project_id project) = Some project /\
      In project (Project.find_by_user st2 user_id').
Proof.
  eexists. split.
  - unfold Project.__init__, Project.parser_parse, or_int,
      Project._get_next_id, bind, get, put, ret, raise.
    rewrite Hbad. reflexivity.
  - simpl. split; [reflexivity|]. split; [reflexivity|].
    unfold Project.create, Project.__init__, Project.parser_parse, or_int,
      Project._get_next_id, Project.register, bind, get, put, ret.
    rewrite Hgood. do 2 eexists. split; [reflexivity|]. simpl.
    split; [reflexivity|]. split; [reflexivity|]. split; [reflexivity|].
    split.
    + unfold Project.find_by_id. simpl. apply dict_get_set_same.
    + unfold Project.find_by_user. apply filter_In. split.
      * simpl. apply dict_set_values_In.
      * unfold Project.get_user_id. simpl. apply Z.eqb_refl.
Qed.

(** X22: [Task.from_dict] raises [KeyError] for the first of the keys
    title, description, project_id and task_id that the record lacks, and
    then leaves the registry as it was.  With the four keys present it
    raises the validation error exactly when the record's status (or
    "pending", when the record has none) is not valid, and registers
    nothing.  Otherwise it returns a registered task with the record's
    title, description, project and id (when that is not 0), the status
    "pending" and no assigned users where the record is silent. *)
Theorem Task_from_dict_outcomes now (data : Task.record) (st : Task.State) :
  match Task.from_dict now data st with
  | (Ok task, st') =>
      Task.j_title data = Some (Task.title task) /\
      Task.j_description data = Some (Task.description task) /\
      Task.j_project_id data = Some (Task.project_id task) /\
      (exists i, Task.j_task_id data = Some i /\
                 (i <> 0 -> Task.task_id task = i)) /\
      Task.status task = get_default (Task.j_status data) "pending" /\
      In (Task.status task) Task.VALID_STATUSES /\
      Task.assigned_users task
        = get_default (Task.j_assigned_users data) [] /\
      Task.find_by_id st' (Task.task_id task) = Some task
  | (Raise (KeyError key), st') =>
      st' = st /\
      ((key = "title" /\ Task.j_title data = None) \/
       (key = "description" /\ Task.j_title data <> None /\
        Task.j_description data = None) \/
       (key = "project_id" /\ Task.j_title data <> None /\
        Task.j_description data <> None /\ Task.j_project_id data = None) \/
       (key = "task_id" /\ Task.j_title data <> None /\
        Task.j_description data <> None /\ Task.j_project_id data <> None /\
        Task.j_task_id data = None))
  | (Raise e, st') =>
      e = Task.invalid_status /\
      ~ In (get_default (Task.j_status data) "pending") Task.VALID_STATUSES /\
      Task.get_all st' = Task.get_all st /\
      Task.j_title data <> None /\ Task.j_description data <> None /\
      Task.j_project_id data <> None /\ Task.j_task_id data <> None
  end.
Proof.
  destruct data as [tid ttl dsc sts pid users created].
  unfold Task.from_dict, getitem, bind, raise, ret.
  cbn [Task.j_title Task.j_description Task.j_project_id Task.j_task_id
       Task.j_status Task.j_assigned_users Task.j_created_at].
  destruct ttl as [ttl|]; [|split; [reflexivity | left; now split]].
  destruct dsc as [dsc|];
    [|split; [reflexivity | right; left; repeat split; discriminate]].
  destruct pid as [pid|];
    [|split; [reflexivity
             | right; right; left; repeat split; discriminate]].
  destruct tid as [tid|];
    [|split; [reflexivity
             | right; right; right; repeat split; discriminate]].
  unfold Task.__init__, or_int, Task._get_next_id, Task.register, bind, get,
    put, ret, raise.
  destruct (Task.str_in (get_default sts "pending") Task.VALID_STATUSES)
    eqn:Hs;
    destruct (Z.eqb_spec tid 0) as [->|Hne];
    cbn [Task._status negb]; rewrite Hs; cbn [negb];
    try (apply str_in_not_In in Hs;
         repeat split; try discriminate; exact Hs);
    apply str_in_In in Hs;
    (split; [reflexivity|]); (split; [reflexivity|]);
    (split; [reflexivity|]); (split; [eexists; split; [reflexivity|]|]);
    try (split; [reflexivity|]; split; [exact Hs|]; split; [reflexivity|];
         unfold Task.find_by_id; simpl; apply dict_get_set_same).
  - intros Hne. now contradiction Hne.
  - intros _. reflexivity.
Qed.

(** X23: constructing a user with the id of a registered user replaces
    that user where it stands: the new user is found under the id, the
    registry lists the same ids in the same order, every other id finds
    what it found, and the counter is as it was. *)
Theorem explicit_id_replaces_in_place
    now name email (id : Z) created_at projects (st : User.State)
    (old : User.t)
    (Hid : id <> 0)
    (Hold : User.find_by_id st id = Some old) :
  exists self st',
    User.__init__ now name email (Some id) created_at projects st
      = (Ok self, st') /\
    User.user_id self = id /\
    User.find_by_id st' id = Some self /\
    dict_keys (User._all_users st') = dict_keys (User._all_users st) /\
    List.length (User.get_all st') = List.length (User.get_all st) /\
    (forall other, other <> id ->
                   User.find_by_id st' other = User.find_by_id st other) /\
    User._next_id st' = User._next_id st.
Proof.
  unfold User.__init__, or_int, User.register, bind, get, put, ret.
  destruct (Z.eqb_spec id 0); [contradiction|].
  do 2 eexists. split; [reflexivity|]. simpl.
  assert (Hkeys : forall (d : dict User.t) v,
             dict_get d id <> None ->
             dict_keys (dict_set d id v) = dict_keys d).
  { intros d v. induction d as [|[k0 v0] d IH]; simpl; [congruence|].
    destruct (Z.eqb_spec id k0) as [->|Hne]; simpl; [reflexivity|].
    intros Hget. now rewrite IH. }
  assert (Hk : dict_keys (dict_set (User._all_users st) id
                 {| User.user_id := id; User._name := name;
                    User._email := email;
                    User.created_at := or_str created_at (isoformat now);
                    User.projects := or_list projects |})
               = dict_keys (User._all_users st)).
  { apply Hkeys. unfold User.find_by_id in Hold. now rewrite Hold. }
  split; [reflexivity|]. split; [apply dict_get_set_same|].
  split; [exact Hk|]. split; [|split; [|reflexivity]].
  - unfold User.get_all, dict_values. simpl.
    rewrite !length_map.
    rewrite <- (length_map fst (dict_set _ _ _)),
      <- (length_map fst (User._all_users st)).
    unfold dict_keys in Hk. now rewrite Hk.
  - intros other Hne. unfold User.find_by_id. simpl.
    now apply dict_get_set_other.
Qed.

End Constructors.

(** Witness of [failed_project_construction_consumes_id], with ISO 8601
    dates: "next week" is no date of the calendar, "2099-01-01" is one. *)
Lemma failed_project_construction_consumes_id_witness :
  exists st1,
    @Project.__init__ Iso8601.calendar Office.morning "Launch" ""
                      (inl "next week") 1 None None None Project.initial
      = (Raise (@parse_error Iso8601.calendar "next week"), st1) /\
    Project._next_id st1 = 1 + 1 /\
    Project.get_all st1 = [] /\
    exists project st2,
      @Project.create Iso8601.calendar Office.morning "Launch" ""
                      "2099-01-01" 1 st1
        = (Ok project, st2) /\
      Project.project_id project = 1 + 1 /\
      Project.due_date project = Office.launch_day /\
      Project.tasks project = [] /\
      Project.find_by_id st2 (Project.project_id project) = Some project /\
      In project (Project.find_by_user st2 1).
Proof.
  apply (@failed_project_construction_consumes_id Iso8601.calendar
           Office.morning "Launch" "" "next week" 1 None None
           Office.morning "Launch" "" "2099-01-01" 1
           Office.launch_day Project.initial);
    reflexivity.
Defined.

(** Witness of [explicit_id_replaces_in_place]: Bob built with Ana's id. *)
Lemma explicit_id_replaces_in_place_witness :
  exists self st',
    User.__init__ IsoText.noon "Bob" "bob@x.com" (Some 1) None None
                  Sample.one_user = (Ok self, st') /\
    User.user_id self = 1 /\
    User.find_by_id st' 1 = Some self /\
    dict_keys (User._all_users st') = dict_keys (User._all_users Sample.one_user) /\
    List.length (User.get_all st') = List.length (User.get_all Sample.one_user) /\
    (forall other, other <> 1 ->
       User.find_by_id st' other = User.find_by_id Sample.one_user other) /\
    User._next_id st' = User._next_id Sample.one_user.
Proof.
  eapply (@explicit_id_replaces_in_place IsoText.calendar IsoText.noon
            "Bob" "bob@x.com" 1 None None Sample.one_user).
  - discriminate.
  - reflexivity.
Defined.

Lemma backup_data_copies_the_file_aux {R} (filename : string)
    (d : FileHandler.Disk R) :
  FileHandler.dir_exists d || FileHandler.makedirs_ok d = true ->
  exists r d',
    FileHandler.backup_data filename d = (Ok r, d') /\
    FileHandler.dir_exists d' = true.
Proof.
  intros Hdir. unfold FileHandler.backup_data, bind.
  destruct (get_file_path_keeps filename d Hdir)
    as (d1 & -> & Hex & _).
  unfold get at 1.
  assert (Hpath : forall name,
             FileHandler.get_file_path name d1
             = (Ok (FileHandler.path_join FileHandler.DATA_DIR name), d1)).
  { intros name.
    unfold FileHandler.get_file_path, FileHandler.ensure_data_dir, bind, get,
      ret. now rewrite Hex. }
  assert (Hcopy : forall src dst,
             exists c d',
               FileHandler.copy2 src dst d1 = (Ok c, d') /\
               FileHandler.dir_exists d' = true).
  { intros src dst. unfold FileHandler.copy2, bind, get, put, ret.
    destruct (FileHandler.stat d1 src);
      destruct (FileHandler.write_fault d1 dst) as [[|]|];
      simpl; eauto. }
  destruct (FileHandler.stat d1 _);
    [unfold ret; eauto | | | ];
    rewrite Hpath;
    match goal with
    | |- context [FileHandler.copy2 ?src ?dst d1] =>
        destruct (Hcopy src dst) as (c & d' & -> & Hex')
    end;
    destruct c; unfold ret; eauto.
Qed.

(** ** When the file operations raise *)

Section FileErrors.
Context {R : Type}.

Lemma get_file_path_raises (filename : string) (d : FileHandler.Disk R) :
  FileHandler.dir_exists d || FileHandler.makedirs_ok d = false ->
  FileHandler.get_file_path filename d = (Raise OSError, d).
Proof.
  intros Hdir. apply orb_false_elim in Hdir as [Hex Hmk].
  unfold FileHandler.get_file_path, FileHandler.ensure_data_dir,
    FileHandler.makedirs, bind, get.
  rewrite Hex. simpl. now rewrite Hmk.
Qed.

(** X24: [load_data], [save_data] and [backup_data] raise exactly when the
    data directory neither exists nor can be created; what they raise is
    the error of [os.makedirs], and the disk is as it was.  Whenever they
    return, the data directory exists afterwards. *)
Theorem file_operations_raise_only_without_data_dir
    (filename : string) (data : list R) (d : FileHandler.Disk R) :
  let usable := FileHandler.dir_exists d || FileHandler.makedirs_ok d in
  match FileHandler.load_data filename d with
  | (Ok _, d') => usable = true /\ FileHandler.dir_exists d' = true
  | (Raise e, d') => usable = false /\ e = OSError /\ d' = d
  end /\
  match FileHandler.save_data filename data d with
  | (Ok _, d') => usable = true /\ FileHandler.dir_exists d' = true
  | (Raise e, d') => usable = false /\ e = OSError /\ d' = d
  end /\
  match FileHandler.backup_data filename d with
  | (Ok _, d') => usable = true /\ FileHandler.dir_exists d' = true
  | (Raise e, d') => usable = false /\ e = OSError /\ d' = d
  end.
Proof.
  cbv zeta.
  destruct (FileHandler.dir_exists d || FileHandler.makedirs_ok d) eqn:Hdir.
  - split; [|split].
    + unfold FileHandler.load_data, bind.
      destruct (get_file_path_keeps filename d Hdir)
        as (d1 & -> & Hex & _).
      unfold get, ret. destruct (FileHandler.stat d1 _); auto.
    + unfold FileHandler.save_data, bind.
      destruct (get_file_path_keeps filename d Hdir)
        as (d1 & -> & Hex & _).
      unfold get, put, ret.
      destruct (FileHandler.write_fault d1 _) as [[|]|]; simpl; auto.
    + destruct (backup_data_copies_the_file_aux filename d Hdir)
        as (r & d' & -> & Hex).
      auto.
  - pose proof (get_file_path_raises filename d Hdir) as Hraise.
    unfold FileHandler.load_data, FileHandler.save_data,
      FileHandler.backup_data, bind.
    rewrite Hraise. auto.
Qed.

End FileErrors.

(** ** Load, then save *)

Section LoadThenSave.
Context `{DateTime}.

Lemma User_load_one_canonical now (r : User.record) st :
  User.canonical r ->
  exists id user,
    User.j_user_id r = Some id /\
    User.to_dict user = r /\
    User.load_one now r st
    = (Ok tt,
       {| User._all_users := dict_set (User._all_users st) id user;
          User._next_id := Z.max (User._next_id st) (id + 1) |}).
Proof.
  intros (id & name & email & created & projects & -> & Hid & Hcreated).
  exists id, (User.built now
                {| User.j_user_id := Some id; User.j_name := Some name;
                   User.j_email := Some email;
                   User.j_created_at := Some created;
                   User.j_projects := Some projects |} (User._next_id st)).
  split; [reflexivity|].
  assert (Hbuilt : User.built now
                {| User.j_user_id := Some id; User.j_name := Some name;
                   User.j_email := Some email;
                   User.j_created_at := Some created;
                   User.j_projects := Some projects |} (User._next_id st)
              = {| User.user_id := id; User._name := name;
                   User._email := email; User.created_at := created;
                   User.projects := projects |}).
  { unfold User.built.
    cbn [User.j_user_id User.j_name User.j_email User.j_created_at
         User.j_projects get_default].
    rewrite (or_str_Some _ _ Hcreated).
    destruct (Z.eqb_spec id 0); [contradiction | reflexivity]. }
  split.
  - now rewrite Hbuilt.
  - rewrite User_load_one_complete by reflexivity. cbv zeta.
    now rewrite Hbuilt.
Qed.

Lemma User_loop_canonical now (data : list User.record) :
  forall acc next,
    Forall User.canonical data ->
    NoDup (map Some (dict_keys acc) ++ map User.j_user_id data) ->
    exists entries next',
      for_each data (User.load_one now)
               {| User._all_users := acc; User._next_id := next |}
      = (Ok tt, {| User._all_users := acc ++ entries;
                   User._next_id := next' |}) /\
      map User.to_dict (dict_values entries) = data.
Proof.
  induction data as [|r data IH]; intros acc next Hcan Hnd.
  - exists [], next. simpl. now rewrite app_nil_r.
  - inversion Hcan as [|? ? Hr Hrest]; subst.
    destruct (User_load_one_canonical now r
                {| User._all_users := acc; User._next_id := next |} Hr)
      as (id & user & Hid & Hdict & Hone).
    simpl for_each. unfold bind. rewrite Hone.
    simpl User._all_users. simpl User._next_id.
    assert (Hfresh : ~ In id (dict_keys acc)).
    { simpl in Hnd. rewrite Hid in Hnd. apply NoDup_remove_2 in Hnd.
      intros Hin. apply Hnd. apply in_or_app. left. now apply in_map. }
    rewrite (dict_set_fresh _ _ _ Hfresh).
    destruct (IH (acc ++ [(id, user)]) (Z.max next (id + 1)) Hrest)
      as (entries & next' & Hrun & Hdicts).
    { unfold dict_keys. rewrite map_app, map_app, <- app_assoc. simpl.
      simpl in Hnd. now rewrite Hid in Hnd. }
    exists ((id, user) :: entries), next'. split.
    + rewrite Hrun. now rewrite <- app_assoc.
    + simpl. now rewrite Hdict, Hdicts.
Qed.

(** X26: when the document of [users.json] holds records as [to_dict]
    writes them (every key present, ids other than 0, creation stamps not
    empty) with no id twice, and the file can be written, [load_all]
    followed by [save_all] returns normally and leaves in the file the
    document it found: the same records in the same order. *)
Theorem load_all_then_save_all_rewrites_document
    now (d : FileHandler.Disk User.record) (st : User.State)
    (data : list User.record)
    (Hdoc : FileHandler.stat d "data/users.json" = FileHandler.Document data)
    (Hsave : FileHandler.can_save d "users.json")
    (Hcan : Forall User.canonical data)
    (Hnd : NoDup (map User.j_user_id data)) :
  exists st' d',
    User.load_all now (d, st) = (Ok tt, (d, st')) /\
    map User.to_dict (User.get_all st') = data /\
    User.save_all (d, st') = (Ok tt, (d', st')) /\
    FileHandler.stat d' "data/users.json" = FileHandler.Document data.
Proof.
  assert (Hex : FileHandler.dir_exists d = true).
  { unfold FileHandler.stat in Hdoc.
    destruct (FileHandler.dir_exists d); [reflexivity | discriminate]. }
  assert (Hfiles : FileHandler.files d "data/users.json"
                   = FileHandler.Document data).
  { unfold FileHandler.stat in Hdoc. now rewrite Hex in Hdoc. }
  destruct (User_loop_canonical now data [] 1 Hcan Hnd)
    as (entries & next' & Hrun & Hdicts).
  destruct Hsave as (Hdir & Hw).
  exists {| User._all_users := entries; User._next_id := next' |}.
  eexists. split; [|split; [exact Hdicts|split]].
  - rewrite User_load_all_unfold, (load_data_eq "users.json" d Hex).
    change (FileHandler.path_join FileHandler.DATA_DIR "users.json")
      with "data/users.json".
    rewrite Hfiles, User_reload_unfold. unfold User.initial.
    now rewrite Hrun.
  - rewrite User_save_all_unfold. cbn [User._all_users].
    change (dict_values entries)
      with (User.get_all {| User._all_users := entries;
                            User._next_id := next' |}) in Hdicts.
    unfold User.get_all in Hdicts. cbn [User._all_users] in Hdicts.
    rewrite Hdicts.
    unfold FileHandler.save_data, FileHandler.get_file_path,
      FileHandler.ensure_data_dir, bind, get, put, ret.
    rewrite Hex. cbn [negb]. unfold ret. rewrite Hw. reflexivity.
  - unfold FileHandler.stat. simpl. now rewrite Hex.
Qed.

(** X25: the completion percentage of a project depends on the Task
    registry only through the tasks the project lists: two registries in
    which every listed id resolves to a completed task in the one exactly
    when it does in the other give the same percentage. *)
Theorem completion_percentage_reads_listed_tasks_only
    (self : Project.t) (registry registry' : Task.State)
    (Hsame : forall task_id, In task_id (Project.tasks self) ->
       Project.resolves_completed registry task_id
       = Project.resolves_completed registry' task_id) :
  Project.get_completion_percentage self registry
  = Project.get_completion_percentage self registry'.
Proof.
  unfold Project.get_completion_percentage.
  destruct (Project.tasks self) as [|task_id l] eqn:Htasks; [reflexivity|].
  rewrite !sum_ones_count.
  change (fun task_id0 : Z =>
            match Task.find_by_id registry task_id0 with
            | Some task => (Task.status task =? "completed")%string
            | None => false
            end)
    with (Project.resolves_completed registry).
  change (fun task_id0 : Z =>
            match Task.find_by_id registry' task_id0 with
            | Some task => (Task.status task =? "completed")%string
            | None => false
            end)
    with (Project.resolves_completed registry').
  now rewrite (filter_ext_in _ _ _ Hsame).
Qed.

End LoadThenSave.

(** Witness of [load_all_then_save_all_rewrites_document]: the records of
    Cy (id 3) and Ana (id 1). *)
Lemma load_all_then_save_all_rewrites_document_witness :
  let data := [Sample.user_record 3 "Cy" "cy@x.com";
               Sample.user_record 1 "Ana" "ana@x.com"] in
  let d := Sample.disk_with "data/users.json" (FileHandler.Document data) in
  exists st' d',
    User.load_all IsoText.noon (d, User.initial) = (Ok tt, (d, st')) /\
    map User.to_dict (User.get_all st') = data /\
    User.save_all (d, st') = (Ok tt, (d', st')) /\
    FileHandler.stat d' "data/users.json" = FileHandler.Document data.
Proof.
  intros data d.
  apply (@load_all_then_save_all_rewrites_document IsoText.calendar
           IsoText.noon d User.initial data).
  - reflexivity.
  - split; reflexivity.
  - repeat constructor;
      (do 5 eexists; split; [reflexivity | split; discriminate]).
  - simpl. constructor; [intros [Heq | []]; discriminate|].
    constructor; [intros [] | constructor].
Defined.

(** Witness of [completion_percentage_reads_listed_tasks_only]: Launch
    lists tasks 1 and 2; the second registry also holds a task 3. *)
Lemma completion_percentage_reads_listed_tasks_only_witness :
  let registry := {| Task._all_tasks := [(1, Sample.write_doc);
                                         (2, Sample.review_doc)];
                     Task._next_id := 3 |} in
  let registry' := {| Task._all_tasks := [(1, Sample.write_doc);
                                          (2, Sample.review_doc);
                                          (3, Sample.review_doc)];
                      Task._next_id := 4 |} in
  Project.get_completion_percentage Sample.launch registry
  = Project.get_completion_percentage Sample.launch registry'.
Proof.
  intros registry registry'.
  apply (@completion_percentage_reads_listed_tasks_only IsoText.calendar
           Sample.launch registry registry').
  intros task_id [<- | [<- | []]]; reflexivity.
Defined.
